(** * vscode-git-copilot-tools: the remote content service, verified

    A shallow embedding of the content-resolution core of the extension:

    - [types.ts]         : [CopilotCategory], [RepoSource], [GitHubFile],
                           [resolveContentPath], [KIND_TO_CATEGORY];
    - [githubService.ts] : the [GitHubService] class (cache, TLS handling,
                           listing, file retrieval, [parsePluginJson]);
    - [extension.ts]     : the plugin branch of [downloadCopilotItem];
    - [views/note...ts]  : [extractSlashCommands], [generateNoteContent].

    Conventions of the embedding.

    - A JavaScript string is a [string]; a character stands for the code
      unit of the same number, so the strings covered are those over code
      units below 256.  [trim] removes exactly the ECMAScript white space of
      that range (code units 9-13, 32 and 160).
    - JavaScript numbers that the code uses as integers (time stamps, sizes,
      HTTP status codes) are [Z]; counters and indices are [nat].
    - [undefined] is [None]; a value that can also be [null] has a
      constructor of its own.
    - Everything outside the repository (HTTP server, VS Code dialogs and
      authentication sessions, the clock, the local file system, Node's
      library functions) is a [World]: the code asks, the world answers.
      Theorems quantify over every world. *)

From Stdlib Require Import String Ascii ZArith List Bool Lia.
From stdpp Require Import gmap strings list pretty.

Local Open Scope string_scope.
Local Open Scope Z_scope.

Set Warnings "-register-all".

(** ** JavaScript string operations used by the sources *)

Module Js.

(** ECMAScript WhiteSpace and LineTerminator code units below 256. *)
Definition isWhiteSpace (c : ascii) : bool :=
  let n := nat_of_ascii c in
  ((9 <=? n)%nat && (n <=? 13)%nat) || (n =? 32)%nat || (n =? 160)%nat.

Fixpoint trimStart (s : string) : string :=
  match s with
  | EmptyString => EmptyString
  | String c r => if isWhiteSpace c then trimStart r else s
  end.

Fixpoint trimEnd (s : string) : string :=
  match s with
  | EmptyString => EmptyString
  | String c r =>
      match trimEnd r with
      | EmptyString => if isWhiteSpace c then EmptyString else String c EmptyString
      | r' => String c r'
      end
  end.

(** [s.trim()] *)
Definition trim (s : string) : string := trimEnd (trimStart s).

(** [s.startsWith(p)] *)
Definition startsWith (s p : string) : bool := String.prefix p s.

(** [s.includes(needle)] *)
Fixpoint includes (s needle : string) : bool :=
  String.prefix needle s ||
  match s with
  | EmptyString => false
  | String _ r => includes r needle
  end.

(** [s.endsWith(p)] *)
Definition endsWith (s p : string) : bool :=
  let n := String.length s in
  let k := String.length p in
  (k <=? n)%nat && String.eqb (String.substring (n - k) k s) p.

(** [s.substring(n)] *)
Definition substringFrom (n : nat) (s : string) : string :=
  String.substring n (String.length s - n) s.

(** [s.split(sep)] for a one-character separator: the segments, in order;
    never the empty array. *)
Fixpoint split (sep : ascii) (s : string) : list string :=
  match s with
  | EmptyString => [EmptyString]
  | String c r =>
      if Ascii.eqb c sep then EmptyString :: split sep r
      else match split sep r with
           | seg :: segs => String c seg :: segs
           | [] => [String c EmptyString]
           end
  end.

(** [parts[parts.length - 1]] and [parts.pop()] on the result of a split. *)
Definition lastSegment (s : string) : string :=
  List.last (split "/" s) EmptyString.

(** Truthiness of an optional string: [undefined] and [''] are falsy. *)
Definition truthy (o : option string) : bool :=
  match o with
  | Some s => negb (String.eqb s "")
  | None => false
  end.

(** [o || d] on an optional string. *)
Definition orElse (o : option string) (d : string) : string :=
  match o with
  | Some s => if String.eqb s "" then d else s
  | None => d
  end.

End Js.

(** ** types.ts *)

(** [enum CopilotCategory]; the enum's values are the strings of
    [categoryName]. *)
Inductive CopilotCategory : Type :=
| Plugins | Instructions | Prompts | Agents | Skills.

Definition categoryName (c : CopilotCategory) : string :=
  match c with
  | Plugins => "plugins"
  | Instructions => "instructions"
  | Prompts => "prompts"
  | Agents => "agents"
  | Skills => "skills"
  end.

(** One slot of a [FolderMapping = Partial<Record<CopilotCategory, string | null>>]. *)
Inductive MappingValue : Type :=
| Absent                (* the key is missing: [undefined] *)
| Null                  (* [null]: the category is excluded *)
| Str (s : string).     (* a folder path, or the literal ['root'] *)

Definition FolderMapping : Type := CopilotCategory -> MappingValue.

Record RepoSource : Type := mkRepo {
  owner : string;
  repo : string;
  label : option string;
  baseUrl : option string;
  folderMappings : option FolderMapping
}.

(** [resolveContentPath(repo, category)]: [None] is the [null] result. *)
Definition resolveContentPath (r : RepoSource) (category : CopilotCategory)
  : option string :=
  let default := Some (categoryName category) in
  match folderMappings r with
  | Some fm =>
      match fm category with
      | Null => None
      | Str mapping =>
          if String.eqb mapping "root" then Some ""
          else if negb (String.eqb (Js.trim mapping) "") then Some (Js.trim mapping)
          else default
      | Absent => default
      end
  | None => default
  end.

(** [FOLDER_PATHS]: the local folder of a category. *)
Definition FOLDER_PATHS (c : CopilotCategory) : string :=
  match c with
  | Plugins => ".github/plugins"
  | Instructions => ".github/instructions"
  | Prompts => ".github/prompts"
  | Agents => ".github/agents"
  | Skills => ".github/skills"
  end.

Definition PLUGIN_JSON_RELATIVE_PATH : string := ".github/plugin/plugin.json".

(** [KIND_TO_CATEGORY[kind]]: [None] is [undefined].  (Keys inherited from
    [Object.prototype] are left out: [parsePluginJson] lets only the four
    kinds below through.) *)
Definition KIND_TO_CATEGORY (kind : string) : option CopilotCategory :=
  if String.eqb kind "instruction" then Some Instructions
  else if String.eqb kind "prompt" then Some Prompts
  else if String.eqb kind "agent" then Some Agents
  else if String.eqb kind "skill" then Some Skills
  else None.

(** [interface PluginItem] *)
Record PluginItem : Type := mkItem {
  item_path : string;
  item_kind : string
}.

(** A directory entry as the Contents API sends it. *)
Record RawFile : Type := mkRaw {
  raw_name : string;
  raw_path : string;
  raw_download_url : string;
  raw_size : Z;
  raw_type : string;                 (* 'file' | 'dir' *)
  raw_sha : option string
}.

(** [interface GitHubFile]: an entry once the service has tagged it with its
    repository ([{ ...f, repo }]); [displayName] is written later, in place. *)
Record GitHubFile : Type := mkFile {
  name : string;
  path : string;
  download_url : string;
  size : Z;
  type : string;
  sha : option string;
  file_repo : option RepoSource;
  displayName : option string
}.

(** [{ ...f, repo }] *)
Definition tagRepo (r : RepoSource) (f : RawFile) : GitHubFile :=
  {| name := raw_name f; path := raw_path f; download_url := raw_download_url f;
     size := raw_size f; type := raw_type f; sha := raw_sha f;
     file_repo := Some r; displayName := None |}.

(** [file.displayName = v] *)
Definition setDisplayName (v : string) (f : GitHubFile) : GitHubFile :=
  {| name := name f; path := path f; download_url := download_url f;
     size := size f; type := type f; sha := sha f;
     file_repo := file_repo f; displayName := Some v |}.

(** File objects live in a store and are referred to by their address: the
    arrays kept in the cache and the arrays handed to callers share them. *)
Abbreviation loc := nat.

(** [interface CacheEntry] *)
Record CacheEntry : Type := mkEntry {
  data : list loc;
  timestamp : Z;
  entry_category : CopilotCategory;
  entry_repo : RepoSource
}.

(** ** JSON values, as [JSON.parse] returns them *)

Inductive json : Type :=
| JNull
| JBool (b : bool)
| JNum (literal : string)
| JStr (s : string)
| JArr (elements : list json)
| JObj (fields : list (string * json)).

(** [v.key]: [None] is [undefined].  Arrays have none of the properties the
    code reads ([name], [description], [items], [id], [path], [kind]). *)
Fixpoint assoc (key : string) (fields : list (string * json)) : option json :=
  match fields with
  | [] => None
  | (k, v) :: rest => if String.eqb k key then Some v else assoc key rest
  end.

Definition getProp (v : json) (key : string) : option json :=
  match v with
  | JObj fields => assoc key fields
  | _ => None
  end.

(** [obj.key = v] on an object: an existing key keeps its place. *)
Fixpoint setField (key : string) (v : json) (fields : list (string * json))
  : list (string * json) :=
  match fields with
  | [] => [(key, v)]
  | (k, old) :: rest =>
      if String.eqb k key then (k, v) :: rest else (k, old) :: setField key v rest
  end.

Definition setProp (obj : json) (key : string) (v : json) : json :=
  match obj with
  | JObj fields => JObj (setField key v fields)
  | other => other
  end.

(** [typeof v === 'object'] (true of [null] too) *)
Definition typeofObject (v : json) : bool :=
  match v with
  | JNull | JArr _ | JObj _ => true
  | _ => false
  end.

(** [!v] *)
Definition falsy (v : json) : bool :=
  match v with
  | JNull => true
  | JBool b => negb b
  | JNum lit => String.eqb lit "0"
  | JStr s => String.eqb s ""
  | _ => false
  end.

(** [typeof v !== 'string' || !v.trim()] for a property that may be missing *)
Definition notNonBlankString (v : option json) : bool :=
  match v with
  | Some (JStr s) => String.eqb (Js.trim s) ""
  | _ => true
  end.

(** ** Errors *)

(** The [response] of a failed axios request, as far as the code reads it. *)
Record ErrResponse : Type := mkResp {
  status : Z;
  ratelimit_remaining : option string;   (* headers['x-ratelimit-remaining'] *)
  ratelimit_reset : option string;       (* headers['x-ratelimit-reset'] *)
  data_message : option string           (* data?.message *)
}.

(** A thrown value. *)
Record JsError : Type := mkErr {
  err_name : string;
  err_message : string;
  err_response : option ErrResponse
}.

(** [new Error(m)] *)
Definition Error (m : string) : JsError := mkErr "Error" m None.

Definition TypeError (m : string) : JsError := mkErr "TypeError" m None.

(** [`${error}`], that is [Error.prototype.toString] *)
Definition errToString (e : JsError) : string :=
  if String.eqb (err_name e) "" then err_message e
  else if String.eqb (err_message e) "" then err_name e
  else err_name e ++ ": " ++ err_message e.

(** [error.response?.status] *)
Definition statusCode (e : JsError) : option Z :=
  match err_response e with
  | Some r => Some (status r)
  | None => None
  end.

Definition statusIs (e : JsError) (code : Z) : bool :=
  match statusCode e with
  | Some s => Z.eqb s code
  | None => false
  end.

(** ** The world outside the repository *)

(** The body of a single-file reply of the Contents API, as far as
    [getFileContentByPath] reads it. *)
Record RawContent : Type := mkContent {
  rc_type : string;
  rc_content : option string;          (* base64 text; absent above 1 MB *)
  rc_encoding : option string;
  rc_download_url : option string;
  rc_sha : option string;
  rc_size : Z
}.

(** What one [axios.get] comes back with.  A directory listing carries, next
    to every entry, the reply that a later listing request for that very
    entry obtains; the recursive directory walk reads the replies to its
    nested requests there, so that every walk is finite, as every remote
    tree is.  The other operations ignore the nested replies. *)
Inductive HttpResult : Type :=
| HttpFail (e : JsError)                               (* the promise rejects *)
| HttpList (entries : list (RawFile * HttpResult))     (* [response.data] is an array *)
| HttpFile (f : RawContent)                            (* ... an object *)
| HttpText (s : string).                               (* ... a string *)

(** [response.data] *)
Inductive RespData : Type :=
| DList (entries : list (RawFile * HttpResult))
| DFile (f : RawContent)
| DText (s : string).

(** [vscode.authentication.getSession('github', ['repo'], ...)] *)
Inductive SessionReply : Type :=
| NoSession                          (* [undefined] *)
| Session (accessToken : string)
| SessionError (e : JsError).

(** [new https.Agent({...})], as far as certificate checks go. *)
Record HttpsAgent : Type := mkAgent {
  rejectUnauthorized : bool;
  checkServerIdentityOff : bool        (* [checkServerIdentity: () => undefined] *)
}.

(** [axiosConfig] *)
Record AxiosConfig : Type := mkConfig {
  timeout : Z;
  headers : list (string * string);
  withCredentials : bool;
  httpsAgent : option HttpsAgent       (* also stored under [agent] *)
}.

(** One request as it left the process. *)
Record Request : Type := mkRequest {
  rq_url : string;
  rq_config : AxiosConfig;
  rq_env : option string;      (* NODE_TLS_REJECT_UNAUTHORIZED while it ran *)
  rq_result : HttpResult
}.

(** One call into [fs]. *)
Inductive FsCall : Type :=
| ExistsSync (p : string) (answer : bool)
| MkdirSync (p : string) (failure : option JsError)
| RmSync (p : string) (failure : option JsError)
| WriteFileSync (p : string) (content : string) (failure : option JsError)
| ReadFileSync (p : string) (failure : option JsError).

Record World : Type := mkWorld {
  (* workspace configuration 'vscode-git-copilot-tools' *)
  enableGithubAuth : bool;
  allowInsecureEnterpriseCerts : bool;
  enterpriseToken : option string;
  cacheTimeout : Z;                      (* the setting of README.md; no code reads it *)
  (* answers, numbered by the moment of the question *)
  http : nat -> HttpResult;
  session : nat -> SessionReply;
  dialog : nat -> option string;         (* the button chosen, if any *)
  clock : nat -> Z;                      (* [Date.now()] *)
  fs_exists : nat -> bool;
  fs_failure : nat -> option JsError;    (* [None]: the call succeeds *)
  fs_read : nat -> string;               (* what [fs.readFileSync] reads *)
  record_failure : nat -> option JsError;  (* of [downloadTracker.recordDownload] *)
  (* Node's library *)
  JSON_parse : string -> option json;    (* [None]: a SyntaxError *)
  JSON_stringify : json -> string;       (* [JSON.stringify(v, null, 2)] *)
  Buffer_decode : string -> string -> string;  (* [Buffer.from(c, enc).toString('utf8')] *)
  path_join : list string -> string;
  path_dirname : string -> string;
  module_dirname : string                (* [__dirname] of the compiled module *)
}.

(** The state of the process: the service's private cache, the store of file
    objects, the one environment variable the service writes, and what has
    been asked of the world so far. *)
Record State : Type := mkState {
  heap : list GitHubFile;
  cache : gmap string CacheEntry;
  env_tls : option string;               (* process.env.NODE_TLS_REJECT_UNAUTHORIZED *)
  requests : list Request;
  fs_calls : list FsCall;
  messages : list string;                (* the texts of the notifications shown *)
  tick : nat
}.

(** ** Computations *)

Inductive Outcome (A : Type) : Type :=
| Ret (a : A)
| Throw (e : JsError).

Arguments Ret {A} a.
Arguments Throw {A} e.

Definition M (A : Type) : Type := World -> State -> Outcome A * State.

Definition ret {A} (a : A) : M A := fun _ st => (Ret a, st).

Definition throw {A} (e : JsError) : M A := fun _ st => (Throw e, st).

Definition bind {A B} (m : M A) (k : A -> M B) : M B :=
  fun w st =>
    match m w st with
    | (Ret a, st') => k a w st'
    | (Throw e, st') => (Throw e, st')
    end.

(** [try { m } catch (e) { h e }] *)
Definition try_catch {A} (m : M A) (h : JsError -> M A) : M A :=
  fun w st =>
    match m w st with
    | (Ret a, st') => (Ret a, st')
    | (Throw e, st') => h e w st'
    end.

(** [try { m } finally { f }] *)
Definition try_finally {A} (m : M A) (f : M unit) : M A :=
  fun w st =>
    match m w st with
    | (r, st') =>
        match f w st' with
        | (Ret _, st'') => (r, st'')
        | (Throw e, st'') => (Throw e, st'')
        end
    end.

Declare Scope js_scope.
Delimit Scope js_scope with js.
Notation "'let!' x ':=' m 'in' k" := (bind m (fun x => k))
  (at level 10, x pattern, m at level 100, k at level 200) : js_scope.
Notation "'do!' m 'in' k" := (bind m (fun _ => k))
  (at level 10, m at level 100, k at level 200) : js_scope.
Local Open Scope js_scope.

Definition ask {A} (f : World -> A) : M A := fun w st => (Ret (f w), st).

Definition get {A} (f : State -> A) : M A := fun _ st => (Ret (f st), st).

Definition modify (f : State -> State) : M unit := fun _ st => (Ret tt, f st).

Definition set_tick (n : nat) (st : State) : State :=
  {| heap := heap st; cache := cache st; env_tls := env_tls st;
     requests := requests st; fs_calls := fs_calls st;
     messages := messages st; tick := n |}.

(** A question to the world: the answer is the one for the present moment,
    and the moment passes. *)
Definition consult {A} (oracle : World -> nat -> A) : M A :=
  fun w st => (Ret (oracle w (tick st)), set_tick (S (tick st)) st).

Definition set_heap (h : list GitHubFile) (st : State) : State :=
  {| heap := h; cache := cache st; env_tls := env_tls st;
     requests := requests st; fs_calls := fs_calls st;
     messages := messages st; tick := tick st |}.

Definition set_cache (c : gmap string CacheEntry) (st : State) : State :=
  {| heap := heap st; cache := c; env_tls := env_tls st;
     requests := requests st; fs_calls := fs_calls st;
     messages := messages st; tick := tick st |}.

Definition set_env_tls (v : option string) (st : State) : State :=
  {| heap := heap st; cache := cache st; env_tls := v;
     requests := requests st; fs_calls := fs_calls st;
     messages := messages st; tick := tick st |}.

Definition log_request (rq : Request) (st : State) : State :=
  {| heap := heap st; cache := cache st; env_tls := env_tls st;
     requests := (requests st ++ [rq])%list; fs_calls := fs_calls st;
     messages := messages st; tick := tick st |}.

Definition log_fs (c : FsCall) (st : State) : State :=
  {| heap := heap st; cache := cache st; env_tls := env_tls st;
     requests := requests st; fs_calls := (fs_calls st ++ [c])%list;
     messages := messages st; tick := tick st |}.

Definition log_message (m : string) (st : State) : State :=
  {| heap := heap st; cache := cache st; env_tls := env_tls st;
     requests := requests st; fs_calls := fs_calls st;
     messages := (messages st ++ [m])%list; tick := tick st |}.

(** ** githubService.ts *)

(** [private static readonly CACHE_DURATION = 60 * 60 * 1000] *)
Definition CACHE_DURATION : Z := 60 * 60 * 1000.

(** The double quote and the line feed, for the texts that contain them. *)
Definition dq : string := String "034"%char "".
Definition nl : string := String "010"%char "".

(** [vscode.authentication.getSession('github', ['repo'], options)]: the
    access token of the session, [None] when there is no session. *)
Definition getSession : M (option string) :=
  let! reply := consult session in
  match reply with
  | NoSession => ret None
  | Session token => ret (Some token)
  | SessionError e => throw e
  end.

(** [vscode.window.show...Message(text, ...buttons)]: the button chosen.
    The texts of the sign-in prompts are not recorded. *)
Definition showChoice : M (option string) := consult dialog.

(** [choice === button] *)
Definition chose (choice : option string) (button : string) : bool :=
  match choice with
  | Some b => String.eqb b button
  | None => false
  end.

(** [ensureGitHubAuth(isEnterprise)] *)
Definition ensureGitHubAuth (isEnterprise : bool) : M bool :=
  let! enableAuth := ask enableGithubAuth in
  if negb enableAuth then ret false
  else
    try_catch
      (let! token := ask enterpriseToken in
       if isEnterprise && Js.truthy token then ret true
       else
         let! session := getSession in
         match session with
         | None =>
             let! signInChoice := showChoice in
             if chose signInChoice "Sign In" then
               let! session' := getSession in
               match session' with
               | Some _ => ret true
               | None => ret false
               end
             else ret false
         | Some _ => ret true
         end)
      (fun _ => ret false).

(** [checkAuthentication()] *)
Definition checkAuthentication : M bool :=
  try_catch
    (let! token := ask enterpriseToken in
     if Js.truthy token then ret true
     else
       let! session := getSession in
       match session with
       | Some _ => ret true
       | None => ret false
       end)
    (fun _ => ret false).

(** [handleAuthError(error, isEnterprise)]: [true] when the user signed in
    and the request is worth repeating.  (Header values are strings, so the
    comparison of the remaining quota with the number [0] never holds.) *)
Definition handleAuthError (error : JsError) (isEnterprise : bool) : M bool :=
  if statusIs error 401 || statusIs error 403 then
    let! enableAuth := ask enableGithubAuth in
    if negb enableAuth then ret false
    else
      let rateLimitRemaining :=
        match err_response error with
        | Some r => ratelimit_remaining r
        | None => None
        end in
      let rateLimitReset :=
        match err_response error with
        | Some r => ratelimit_reset r
        | None => None
        end in
      if chose rateLimitRemaining "0" then
        if Js.truthy rateLimitReset then
          let! authChoice := showChoice in
          if chose authChoice "Sign In" then ensureGitHubAuth isEnterprise
          else ret false
        else ret false
      else
        let! authChoice := showChoice in
        if chose authChoice "Sign In" then ensureGitHubAuth isEnterprise
        else ret false
  else ret false.

(** [createHttpsAgent(url)]: [None] is [undefined]. *)
Definition createHttpsAgent (url : string) : M (option HttpsAgent) :=
  let! allowInsecure := ask allowInsecureEnterpriseCerts in
  let isEnterprise := negb (Js.includes url "github.com") in
  if isEnterprise && allowInsecure then
    ret (Some {| rejectUnauthorized := false; checkServerIdentityOff := true |})
  else if isEnterprise then
    ret (Some {| rejectUnauthorized := true; checkServerIdentityOff := false |})
  else ret None.

(** [headers[key] = value] for a key not yet present *)
Definition setHeader (hdrs : list (string * string)) (key value : string)
  : list (string * string) :=
  (hdrs ++ [(key, value)])%list.

(** [createRequestHeaders(isEnterprise)] *)
Definition createRequestHeaders (isEnterprise : bool) : M (list (string * string)) :=
  let base :=
    [("User-Agent", "VSCode-VscodeGitCopilotTools-Extension/1.0.0");
     ("Accept", "application/vnd.github+json");
     ("X-GitHub-Api-Version", "2022-11-28")] in
  let enterprise :=
    (base ++
     [("X-Requested-With", "VSCode-Extension");
      ("Accept-Encoding", "gzip, deflate, br");
      ("Accept-Language", "en-US,en;q=0.9");
      ("Cache-Control", "no-cache");
      ("Pragma", "no-cache");
      ("Sec-Fetch-Dest", "empty");
      ("Sec-Fetch-Mode", "cors");
      ("Sec-Fetch-Site", "same-origin")])%list in
  let! enableAuth := ask enableGithubAuth in
  if enableAuth then
    let hdrs := if isEnterprise then enterprise else base in
    let! token := ask enterpriseToken in
    if isEnterprise && Js.truthy token then
      ret (setHeader hdrs "Authorization" ("Bearer " ++ Js.orElse token ""))
    else
      try_catch
        (let! session := getSession in
         if Js.truthy session
         then ret (setHeader hdrs "Authorization" ("Bearer " ++ Js.orElse session ""))
         else ret hdrs)
        (fun _ => ret hdrs)
  else ret base.

(** [baseUrl.replace(/\/$/, '')] *)
Definition stripTrailingSlash (s : string) : string :=
  if Js.endsWith s "/" then String.substring 0 (String.length s - 1) s else s.

(** [buildApiUrlForPath(repo, path)] *)
Definition buildApiUrlForPath (r : RepoSource) (p : string) : string :=
  let contentsSuffix := if String.eqb p "" then "/contents" else "/contents/" ++ p in
  if Js.truthy (baseUrl r) then
    stripTrailingSlash (Js.orElse (baseUrl r) "") ++ "/api/v3/repos/"
      ++ owner r ++ "/" ++ repo r ++ contentsSuffix
  else
    "https://api.github.com/repos/" ++ owner r ++ "/" ++ repo r ++ contentsSuffix.

(** [response.data] of a reply, or the rejection. *)
Definition settle (reply : HttpResult) : M RespData :=
  match reply with
  | HttpFail e => throw e
  | HttpList entries => ret (DList entries)
  | HttpFile f => ret (DFile f)
  | HttpText s => ret (DText s)
  end.

(** [axios.get(url, axiosConfig)] when the world's reply is [reply]: the
    request is put on record together with the certificate settings it ran
    under. *)
Definition axios_get_reply (reply : HttpResult) (url : string) (cfg : AxiosConfig)
  : M RespData :=
  let! flag := get env_tls in
  do! modify (log_request {| rq_url := url; rq_config := cfg;
                             rq_env := flag; rq_result := reply |}) in
  settle reply.

(** [axios.get(url, axiosConfig)] *)
Definition axios_get (url : string) (cfg : AxiosConfig) : M RespData :=
  let! reply := consult http in
  axios_get_reply reply url cfg.

(** The block written out around every request of the service:
<<
    if (isEnterprise && allowInsecureEnterpriseCerts) {
        const originalRejectUnauthorized = process.env.NODE_TLS_REJECT_UNAUTHORIZED;
        process.env.NODE_TLS_REJECT_UNAUTHORIZED = '0';
        try { response = await request; }
        finally {
            if (originalRejectUnauthorized === undefined) {
                delete process.env.NODE_TLS_REJECT_UNAUTHORIZED;
            } else {
                process.env.NODE_TLS_REJECT_UNAUTHORIZED = originalRejectUnauthorized;
            }
        }
    } else { response = await request; }
>> *)
Definition withTlsOverride {A} (override : bool) (request : M A) : M A :=
  if override then
    let! originalRejectUnauthorized := get env_tls in
    do! modify (set_env_tls (Some "0")) in
    try_finally request
      (match originalRejectUnauthorized with
       | None => modify (set_env_tls None)
       | Some v => modify (set_env_tls (Some v))
       end)
  else request.

Definition withHeaders (hdrs : list (string * string)) (cfg : AxiosConfig) : AxiosConfig :=
  {| timeout := timeout cfg; headers := hdrs;
     withCredentials := withCredentials cfg; httpsAgent := httpsAgent cfg |}.

(** [`${repo.baseUrl || 'github.com'}/${repo.owner}/${repo.repo}`] *)
Definition repoKey (r : RepoSource) : string :=
  Js.orElse (baseUrl r) "github.com" ++ "/" ++ owner r ++ "/" ++ repo r.

(** [`${repoKey}|${category}`] *)
Definition cacheKey (r : RepoSource) (category : CopilotCategory) : string :=
  repoKey r ++ "|" ++ categoryName category.

(** The filter of a listing: directories for skills and plugins, files for
    the other categories. *)
Definition keepEntry (category : CopilotCategory) (f : RawFile) : bool :=
  match category with
  | Skills => String.eqb (raw_type f) "dir"
  | Plugins => String.eqb (raw_type f) "dir"
  | _ => String.eqb (raw_type f) "file"
  end.

(** New objects in the store; their addresses, in order. *)
Definition alloc (files : list GitHubFile) : M (list loc) :=
  fun _ st =>
    (Ret (seq (length (heap st)) (length files)), set_heap (heap st ++ files)%list st).

(** [!forceRefresh && cacheEntry && (now - cacheEntry.timestamp) < CACHE_DURATION] *)
Definition cacheHit (forceRefresh : bool) (now : Z) (cacheEntry : option CacheEntry)
  : option CacheEntry :=
  match cacheEntry with
  | Some e =>
      if negb forceRefresh && (now - timestamp e <? CACHE_DURATION) then Some e else None
  | None => None
  end.

(** The request part that [getFiles] and [getFilesByRepo] both write out:
    build the URL and the request configuration, issue the request under
    the certificate policy, repeat it once after a successful sign-in, keep
    the entries of the category's type, tag them with the repository, store
    them in the cache and hand them back. *)
Definition fetchListing (r : RepoSource) (category : CopilotCategory)
    (contentPath : string) (now : Z) : M (list loc) :=
  let apiUrl := buildApiUrlForPath r contentPath in
  let isEnterprise := Js.truthy (baseUrl r) in
  let! hdrs := createRequestHeaders isEnterprise in
  let! agent := (if isEnterprise then createHttpsAgent apiUrl else ret None) in
  let axiosConfig :=
    {| timeout := 10000; headers := hdrs;
       withCredentials := isEnterprise; httpsAgent := agent |} in
  let! allowInsecure := ask allowInsecureEnterpriseCerts in
  let! response :=
    try_catch
      (withTlsOverride (isEnterprise && allowInsecure) (axios_get apiUrl axiosConfig))
      (fun requestError =>
         let! authRetried := handleAuthError requestError isEnterprise in
         if authRetried then
           let! newHeaders := createRequestHeaders isEnterprise in
           withTlsOverride (isEnterprise && allowInsecure)
             (axios_get apiUrl (withHeaders newHeaders axiosConfig))
         else throw requestError) in
  match response with
  | DList entries =>
      let! files :=
        alloc (map (tagRepo r) (List.filter (keepEntry category) (map fst entries))) in
      do! modify (fun st =>
            set_cache (<[cacheKey r category :=
                           {| data := files; timestamp := now;
                              entry_category := category; entry_repo := r |}]>
                         (cache st)) st) in
      ret files
  | _ => throw (TypeError "response.data.filter is not a function")
  end.

(** The check made before the first request: is any credential at hand, and
    if not, offer to sign in. *)
Definition proactiveAuth : M unit :=
  let! hasAuth := checkAuthentication in
  if negb hasAuth then (let! _ := ensureGitHubAuth false in ret tt) else ret tt.

(** [getFilesByRepo(repo, category, forceRefresh)] *)
Definition getFilesByRepo (r : RepoSource) (category : CopilotCategory)
    (forceRefresh : bool) : M (list loc) :=
  match resolveContentPath r category with
  | None => ret []
  | Some contentPath =>
      let! now := consult clock in
      let! cacheEntry := get (fun st => cache st !! cacheKey r category) in
      match cacheHit forceRefresh now cacheEntry with
      | Some entry => ret (data entry)
      | None =>
          let! enableAuth := ask enableGithubAuth in
          let isEnterprise := Js.truthy (baseUrl r) in
          do! (if enableAuth && negb isEnterprise then proactiveAuth else ret tt) in
          try_catch
            (fetchListing r category contentPath now)
            (fun error =>
               if statusIs error 404 then ret []
               else throw (Error ("Failed to load " ++ categoryName category
                                  ++ " from " ++ owner r ++ "/" ++ repo r ++ ": "
                                  ++ errToString error)))
      end
  end.

(** One turn of the loop of [getFiles] over the sources: the entries this
    repository adds to [allFiles]. *)
Definition getFiles_source (category : CopilotCategory) (forceRefresh : bool)
    (now : Z) (r : RepoSource) : M (list loc) :=
  let! cacheEntry := get (fun st => cache st !! cacheKey r category) in
  match cacheHit forceRefresh now cacheEntry with
  | Some entry => ret (data entry)
  | None =>
      try_catch
        (match resolveContentPath r category with
         | None => ret []
         | Some contentPath => fetchListing r category contentPath now
         end)
        (fun _ => ret [])
  end.

(** [for (const repo of sources) { ... allFiles = allFiles.concat(files) }] *)
Fixpoint getFiles_loop (category : CopilotCategory) (forceRefresh : bool)
    (now : Z) (sources : list RepoSource) (allFiles : list loc) : M (list loc) :=
  match sources with
  | [] => ret allFiles
  | r :: rest =>
      let! files := getFiles_source category forceRefresh now r in
      getFiles_loop category forceRefresh now rest (allFiles ++ files)%list
  end.

(** First pass over the names: [fileNameCounts] and [duplicateNames]. *)
Definition countName (acc : gmap string nat * gset string) (n : string)
  : gmap string nat * gset string :=
  let count := default 0%nat (acc.1 !! n) in
  (<[n := S count]> acc.1,
   if (1 <=? count)%nat then {[n]} ∪ acc.2 else acc.2).

Definition duplicateNames (names : list string) : gset string :=
  (foldl countName (∅, ∅) names).2.

(** Second pass, on one file object. *)
Definition assignDisplayName (duplicates : gset string) (f : GitHubFile) : GitHubFile :=
  match file_repo f with
  | Some r =>
      if decide (name f ∈ duplicates)
      then setDisplayName (name f ++ " (" ++ owner r ++ "/" ++ repo r ++ ")") f
      else setDisplayName (name f) f
  | None => setDisplayName (name f) f
  end.

(** The names of the objects at the given addresses. *)
Definition namesAt (h : list GitHubFile) (ls : list loc) : list string :=
  omap (fun l => name <$> h !! l) ls.

(** [getFiles(category, forceRefresh, context)], with [sources] the list
    that [RepoStorage.getSources(context)] returns (or the default one). *)
Definition getFiles (category : CopilotCategory) (forceRefresh : bool)
    (sources : list RepoSource) : M (list loc) :=
  let! enableAuth := ask enableGithubAuth in
  do! (if enableAuth then proactiveAuth else ret tt) in
  let! now := consult clock in
  let! allFiles := getFiles_loop category forceRefresh now sources [] in
  let! h := get heap in
  let duplicates := duplicateNames (namesAt h allFiles) in
  do! modify (fun st =>
        set_heap (foldl (fun h' l => alter (assignDisplayName duplicates) l h')
                        (heap st) allFiles) st) in
  ret allFiles.

(** [getFileContent(downloadUrl)]: [response.data], whatever its shape. *)
Definition getFileContent (downloadUrl : string) : M RespData :=
  try_catch
    (let isEnterprise := negb (Js.includes downloadUrl "github.com") in
     let! hdrs := createRequestHeaders isEnterprise in
     let! agent := (if isEnterprise then createHttpsAgent downloadUrl else ret None) in
     let axiosConfig :=
       {| timeout := 10000; headers := hdrs;
          withCredentials := isEnterprise; httpsAgent := agent |} in
     let! allowInsecure := ask allowInsecureEnterpriseCerts in
     withTlsOverride (isEnterprise && allowInsecure) (axios_get downloadUrl axiosConfig))
    (fun error =>
       throw (Error ("Failed to fetch file content: " ++ errToString error))).

(** The result of [getFileContentByPath]. *)
Record FileData : Type := mkFileData {
  fd_content : RespData;
  fd_download_url : option string;
  fd_sha : option string;
  fd_size : Z
}.

(** [getFileContentByPath(repo, filePath)] *)
Definition getFileContentByPath (r : RepoSource) (filePath : string) : M FileData :=
  let notAFile :=
    Error ("Path " ++ dq ++ filePath ++ dq ++ " is not a file or has no content") in
  try_catch
    (let apiUrl := buildApiUrlForPath r filePath in
     let isEnterprise := Js.truthy (baseUrl r) in
     let! hdrs := createRequestHeaders isEnterprise in
     let! agent := (if isEnterprise then createHttpsAgent apiUrl else ret None) in
     let axiosConfig :=
       {| timeout := 10000; headers := hdrs;
          withCredentials := isEnterprise; httpsAgent := agent |} in
     let! allowInsecure := ask allowInsecureEnterpriseCerts in
     let! response :=
       withTlsOverride (isEnterprise && allowInsecure) (axios_get apiUrl axiosConfig) in
     match response with
     | DFile d =>
         if String.eqb (rc_type d) "file" && Js.truthy (rc_content d) then
           let! decode := ask Buffer_decode in
           ret {| fd_content :=
                    DText (decode (Js.orElse (rc_content d) "")
                                  (Js.orElse (rc_encoding d) "base64"));
                  fd_download_url := rc_download_url d;
                  fd_sha := rc_sha d; fd_size := rc_size d |}
         else if String.eqb (rc_type d) "file" && Js.truthy (rc_download_url d) then
           let! content := getFileContent (Js.orElse (rc_download_url d) "") in
           ret {| fd_content := content;
                  fd_download_url := rc_download_url d;
                  fd_sha := rc_sha d; fd_size := rc_size d |}
         else throw notAFile
     | _ => throw notAFile
     end)
    (fun error =>
       throw (Error ("Failed to fetch file content for path " ++ dq ++ filePath ++ dq
                     ++ ": " ++ errToString error))).

(** [interface PluginParseResult]; the metadata is the parsed object. *)
Record PluginParseResult : Type := mkParse {
  metadata : json;
  rawContent : RespData
}.

Definition allowedKinds : list string := ["instruction"; "prompt"; "agent"; "skill"].

(** [allowedKinds.includes(item.kind)] *)
Definition isAllowedKind (kind : string) : bool :=
  existsb (String.eqb kind) allowedKinds.

(** [allowedKinds.join(', ')] *)
Definition allowedKindsText : string := "instruction, prompt, agent, skill".

(** The callback of [metadata.items.forEach]: the error it throws for the
    item at [index], if any. *)
Definition checkItem (index : nat) (item : json) : option JsError :=
  let at_index := "Invalid plugin.json format: item at index " ++ pretty index in
  if falsy item || negb (typeofObject item) then
    Some (Error (at_index ++ " is not an object"))
  else if notNonBlankString (getProp item "path") then
    Some (Error (at_index ++ " is missing or has an invalid " ++ dq ++ "path" ++ dq
                 ++ " field"))
  else if notNonBlankString (getProp item "kind") then
    Some (Error (at_index ++ " is missing or has an invalid " ++ dq ++ "kind" ++ dq
                 ++ " field"))
  else
    match getProp item "kind" with
    | Some (JStr kind) =>
        if isAllowedKind kind then None
        else Some (Error (at_index ++ " has unsupported " ++ dq ++ "kind" ++ dq
                          ++ " value " ++ dq ++ kind ++ dq ++ ". "
                          ++ "Allowed kinds are: " ++ allowedKindsText))
    | _ => None
    end.

(** [metadata.items.forEach(...)]: the first error thrown. *)
Fixpoint checkItems (index : nat) (items : list json) : option JsError :=
  match items with
  | [] => None
  | item :: rest =>
      match checkItem index item with
      | Some e => Some e
      | None => checkItems (S index) rest
      end
  end.

(** [JSON.parse(fileData.content)]: a content that is not a string is turned
    into one first, and for the shapes a reply can have that string is never
    JSON. *)
Definition parseContent (parse : string -> option json) (content : RespData)
  : option json :=
  match content with
  | DText s => parse s
  | _ => None
  end.

(** The validation of [parsePluginJson], from the parsed value on. *)
Definition validateMetadata (parsed : option json) (pluginDirPath : string)
  : Outcome json :=
  match parsed with
  | None => Throw (Error "Invalid plugin.json format: not valid JSON")
  | Some metadata =>
      if falsy metadata || negb (typeofObject metadata) then
        Throw (Error "Invalid plugin.json format: metadata is missing or not an object")
      else if notNonBlankString (getProp metadata "name") then
        Throw (Error ("Invalid plugin.json format: missing or invalid "
                      ++ dq ++ "name" ++ dq ++ " field"))
      else if notNonBlankString (getProp metadata "description") then
        Throw (Error ("Invalid plugin.json format: missing or invalid "
                      ++ dq ++ "description" ++ dq ++ " field"))
      else
        match getProp metadata "items" with
        | Some (JArr items) =>
            match checkItems 0 items with
            | Some e => Throw e
            | None =>
                match getProp metadata "id" with
                | Some (JStr id) =>
                    if String.eqb id ""
                    then Ret (setProp metadata "id" (JStr (Js.lastSegment pluginDirPath)))
                    else Ret metadata
                | _ => Ret (setProp metadata "id" (JStr (Js.lastSegment pluginDirPath)))
                end
            end
        | _ =>
            Throw (Error ("Invalid plugin.json format: missing or invalid "
                          ++ dq ++ "items" ++ dq ++ " array"))
        end
  end.

Definition lift {A} (o : Outcome A) : M A :=
  match o with
  | Ret a => ret a
  | Throw e => throw e
  end.

(** [parsePluginJson(repo, pluginDirPath)] *)
Definition parsePluginJson (r : RepoSource) (pluginDirPath : string)
  : M PluginParseResult :=
  try_catch
    (let pluginJsonPath := pluginDirPath ++ "/" ++ PLUGIN_JSON_RELATIVE_PATH in
     let! fileData := getFileContentByPath r pluginJsonPath in
     let! parse := ask JSON_parse in
     let! checked :=
       lift (validateMetadata (parseContent parse (fd_content fileData)) pluginDirPath) in
     ret {| metadata := checked; rawContent := fd_content fileData |})
    (fun error =>
       throw (Error ("Failed to parse plugin.json: " ++ err_message error))).

(** [Promise.all(promises)]: every computation runs; the result is the
    array of their values, in the order of the array, or a rejection.  The
    computations are put one after the other here, in the order of the
    array.  The program starts them all before it awaits any: what they
    return, what they request and what they leave in the cache and the
    store does not depend on that, but the order of their requests, the
    rejection that wins when several fail, and the flag the requests leave
    behind do.  For the flag, the walk is taken up again request by
    request further on, with its requests under way together. *)
Fixpoint promiseAll {A} (ms : list (M A)) : M (list A) :=
  match ms with
  | [] => ret []
  | m :: rest =>
      fun w st =>
        match m w st with
        | (o, st1) =>
            match promiseAll rest w st1 with
            | (orest, st2) =>
                (match o, orest with
                 | Ret a, Ret l => Ret (a :: l)
                 | Throw e, _ => Throw e
                 | Ret _, Throw e => Throw e
                 end, st2)
            end
        end
  end.

(** [getDirectoryContents(repo, path)] when the world's reply to the listing
    request is [reply]; the calls for the sub-directories read their replies
    next to the entries.  The objects of the result are new and belong to
    the caller alone, so they are given by value. *)
Fixpoint getDirectoryContents_reply (reply : HttpResult) (r : RepoSource)
    (p : string) {struct reply} : M (list GitHubFile) :=
  let subContentPromises : list (M (list GitHubFile)) :=
    match reply with
    | HttpList entries =>
        (fix calls (l : list (RawFile * HttpResult)) : list (M (list GitHubFile)) :=
           match l with
           | [] => []
           | (dir, sub) :: rest =>
               if String.eqb (raw_type dir) "dir"
               then getDirectoryContents_reply sub r (raw_path dir) :: calls rest
               else calls rest
           end) entries
    | _ => []
    end in
  try_catch
    (let apiUrl := buildApiUrlForPath r p in
     let isEnterprise := Js.truthy (baseUrl r) in
     let! hdrs := createRequestHeaders isEnterprise in
     let! agent := (if isEnterprise then createHttpsAgent apiUrl else ret None) in
     let axiosConfig :=
       {| timeout := 10000; headers := hdrs;
          withCredentials := isEnterprise; httpsAgent := agent |} in
     let! allowInsecure := ask allowInsecureEnterpriseCerts in
     let! response :=
       withTlsOverride (isEnterprise && allowInsecure)
         (axios_get_reply reply apiUrl axiosConfig) in
     match response with
     | DList items =>
         let contents := map (tagRepo r) (map fst items) in
         let! subContentsArrays := promiseAll subContentPromises in
         ret (contents ++ concat subContentsArrays)%list
     | DFile _ => throw (TypeError "items is not iterable")
     | DText _ => throw (TypeError "items.filter is not a function")
     end)
    (fun error =>
       throw (Error ("Failed to fetch directory contents: " ++ errToString error))).

(** [getDirectoryContents(repo, path)] *)
Definition getDirectoryContents (r : RepoSource) (p : string) : M (list GitHubFile) :=
  let! reply := consult http in
  getDirectoryContents_reply reply r p.

(** [clearCache()] *)
Definition clearCache : M unit := modify (set_cache ∅).

(** [clearRepoCache(repo)] *)
Definition clearRepoCache (r : RepoSource) : M unit :=
  modify (fun st =>
    set_cache (filter (fun kv => Js.startsWith kv.1 (repoKey r ++ "|") = false)
                      (cache st)) st).

(** [clearCategoryCache(repo, category)] *)
Definition clearCategoryCache (r : RepoSource) (category : CopilotCategory) : M unit :=
  modify (fun st => set_cache (delete (cacheKey r category) (cache st)) st).

(** [new GitHubService()] in a fresh process. *)
Definition initialState : State :=
  {| heap := []; cache := ∅; env_tls := None; requests := [];
     fs_calls := []; messages := []; tick := 0 |}.

(** ** extension.ts: the plugin branch of [downloadCopilotItem] *)

(** [interface CopilotItem] *)
Record CopilotItem : Type := mkCopilotItem {
  ci_id : string;
  ci_name : string;
  ci_category : CopilotCategory;
  ci_file : GitHubFile;
  ci_repo : RepoSource
}.

(** [fs.existsSync(p)] *)
Definition existsSync (p : string) : M bool :=
  let! answer := consult fs_exists in
  do! modify (log_fs (ExistsSync p answer)) in
  ret answer.

(** A call into [fs] that changes the disk: it is put on record with its
    outcome and throws when it fails. *)
Definition fsCall (call : option JsError -> FsCall) : M unit :=
  let! failure := consult fs_failure in
  do! modify (log_fs (call failure)) in
  match failure with
  | None => ret tt
  | Some e => throw e
  end.

(** [fs.mkdirSync(p, { recursive: true })] *)
Definition mkdirSync (p : string) : M unit := fsCall (MkdirSync p).

(** [fs.rmSync(p, { recursive: true, force: true })] *)
Definition rmSync (p : string) : M unit := fsCall (RmSync p).

(** [fs.writeFileSync(p, content, 'utf8')]: only a string can be written. *)
Definition writeFileSync (p : string) (content : RespData) : M unit :=
  match content with
  | DText s => fsCall (WriteFileSync p s)
  | _ => throw (mkErr "TypeError"
                  ("The " ++ dq ++ "data" ++ dq ++ " argument must be of type string")
                  None)
  end.

(** [if (!fs.existsSync(p)) { fs.mkdirSync(p, { recursive: true }); }] *)
Definition ensureDir (p : string) : M unit :=
  let! present := existsSync p in
  if negb present then mkdirSync p else ret tt.

(** [for (const x of xs) { await body(x) }] *)
Fixpoint forEach {A} (xs : list A) (body : A -> M unit) : M unit :=
  match xs with
  | [] => ret tt
  | x :: rest => do! body x in forEach rest body
  end.

(** [vscode.window.show...Message(text)], its answer not awaited. *)
Definition showMessage (text : string) : M unit := modify (log_message text).

(** [await vscode.window.show...Message(text, ...buttons)]: the notification
    is shown and the button chosen is awaited. *)
Definition askChoice (text : string) : M (option string) :=
  do! showMessage text in showChoice.

(** [s.split('/').pop() || s] *)
Definition lastSegmentOr (s : string) : string :=
  if String.eqb (Js.lastSegment s) "" then s else Js.lastSegment s.

Definition isFile (f : GitHubFile) : bool := String.eqb (type f) "file".

Definition isDirNamed (n : string) (f : GitHubFile) : bool :=
  String.eqb (type f) "dir" && String.eqb (name f) n.

(** [fs.readFileSync(p, 'utf8')] *)
Definition readFileSync (p : string) : M string :=
  let! failure := consult fs_failure in
  do! modify (log_fs (ReadFileSync p failure)) in
  match failure with
  | None => fun w st => (Ret (fs_read w (tick st)), st)
  | Some e => throw e
  end.

(** *** views/note.vscode-git-copilot-tools.ts *)

Definition PLACEHOLDER : string := "| /SLASH-COMMAND-NOTE |".

Definition NOTE_TEMPLATE : string := "note.vscode-git-copilot-tools-extension.md".

(** [s] without the prefix [p], if it starts with it. *)
Fixpoint stripPrefix (p s : string) : option string :=
  match p with
  | EmptyString => Some s
  | String a p' =>
      match s with
      | String b s' => if Ascii.eqb a b then stripPrefix p' s' else None
      | EmptyString => None
      end
  end.

(** The longest prefix without a backtick, and the rest. *)
Fixpoint spanNotBacktick (s : string) : string * string :=
  match s with
  | EmptyString => (EmptyString, EmptyString)
  | String ch r =>
      if Ascii.eqb ch "`" then (EmptyString, s)
      else (String ch (spanNotBacktick r).1, (spanNotBacktick r).2)
  end.

(** One attempt of the pattern
<<
    \|\s*`/<pluginName>:([^`]+)`\s*\|
>>
    at the head of [s] (the plugin name is escaped, hence literal): the
    captured name and what follows the match.  No step of the pattern can be
    matched in two ways, so there is nothing to backtrack over. *)
Definition matchCommandAt (pluginName : string) (s : string) : option (string * string) :=
  match s with
  | String "|" r =>
      match stripPrefix ("`/" ++ pluginName ++ ":") (Js.trimStart r) with
      | Some r2 =>
          match spanNotBacktick r2 with
          | (String g0 g, String "`" r3) =>
              match Js.trimStart r3 with
              | String "|" r5 => Some (String g0 g, r5)
              | _ => None
              end
          | _ => None
          end
      | None => None
      end
  | _ => None
  end.

(** The loop [while ((match = commandPattern.exec(line)) !== null)] over one
    line: a match is looked for from the end of the previous one.  Every
    turn drops at least one character, so [fuel] above the length of the
    line is enough. *)
Fixpoint execLoop (fuel : nat) (pluginName : string) (s : string) : list string :=
  match fuel with
  | O => []
  | S fuel' =>
      match matchCommandAt pluginName s with
      | Some (command, rest) => command :: execLoop fuel' pluginName rest
      | None =>
          match s with
          | EmptyString => []
          | String _ r => execLoop fuel' pluginName r
          end
      end
  end.

(** [extractSlashCommands(readmeContent, pluginName)] *)
Definition extractSlashCommands (readmeContent pluginName : string) : list string :=
  flat_map (fun line => execLoop (S (String.length line)) pluginName line)
           (Js.split "010" readmeContent).

(** The first occurrence of [pat] in [s]: what precedes it and what follows. *)
Fixpoint findSub (pat s : string) : option (string * string) :=
  if String.prefix pat s then Some (EmptyString, Js.substringFrom (String.length pat) s)
  else
    match s with
    | EmptyString => None
    | String ch r =>
        match findSub pat r with
        | Some (before, after) => Some (String ch before, after)
        | None => None
        end
    end.

(** The replacement text of [String.prototype.replace] for a pattern that is
    a string: [$$], [$&], [$`] and [$'] are replaced, any other use of [$]
    stands for itself. *)
Fixpoint expandReplacement (repl before matched after : string) : string :=
  match repl with
  | EmptyString => EmptyString
  | String "$" (String "$" r) => String "$" (expandReplacement r before matched after)
  | String "$" (String "&" r) => matched ++ expandReplacement r before matched after
  | String "$" (String "`" r) => before ++ expandReplacement r before matched after
  | String "$" (String "'" r) => after ++ expandReplacement r before matched after
  | String ch r => String ch (expandReplacement r before matched after)
  end.

(** [s.replace(pat, repl)] for a pattern that is a string *)
Definition replaceFirst (s pat repl : string) : string :=
  match findSub pat s with
  | Some (before, after) => before ++ expandReplacement repl before pat after ++ after
  | None => s
  end.

(** The template the note falls back on. *)
Definition inlineTemplate : string :=
  "# NOTE" ++ nl ++ nl ++ "Plugin slash commands are mapped as:" ++ nl ++ nl
  ++ "| Command |" ++ nl ++ "|---------|" ++ nl ++ PLACEHOLDER ++ nl.

(** [for (const p of possiblePaths) { if (fs.existsSync(p)) { template =
    fs.readFileSync(p, 'utf8'); break; } }], from [template = '']. *)
Fixpoint readTemplate (possiblePaths : list string) : M string :=
  match possiblePaths with
  | [] => ret EmptyString
  | p :: rest =>
      let! present := existsSync p in
      if present then readFileSync p else readTemplate rest
  end.

(** [commands.map(cmd => `| \`/${cmd}\` |`).join('\n')] *)
Definition commandRows (commands : list string) : string :=
  String.concat nl (map (fun cmd => "| `/" ++ cmd ++ "` |") commands).

(** [generateNoteContent(readmeContent, pluginName)]; a README that is not a
    string has no [split]. *)
Definition generateNoteContent (readmeContent : RespData) (pluginName : string) : M string :=
  match readmeContent with
  | DText readme =>
      let commands := extractSlashCommands readme pluginName in
      let! join := ask path_join in
      let! dir := ask module_dirname in
      let! found := readTemplate [join [dir; ".."; "src"; "views"; NOTE_TEMPLATE];
                                  join [dir; "views"; NOTE_TEMPLATE]] in
      let template := if String.eqb found "" then inlineTemplate else found in
      match commands with
      | [] => ret (replaceFirst template (PLACEHOLDER ++ nl) ("| (none) |" ++ nl))
      | _ => ret (replaceFirst template PLACEHOLDER (commandRows commands))
      end
  | _ => throw (TypeError "readmeContent.split is not a function")
  end.

(** The counters and lists the loop over the items keeps. *)
Record Tally : Type := mkTally {
  downloadedCount : nat;
  errorCount : nat;
  downloadedFiles : list string;
  failedFiles : list string
}.

Definition noTally : Tally :=
  {| downloadedCount := 0; errorCount := 0; downloadedFiles := []; failedFiles := [] |}.

(** [downloadedFiles.push(entry); downloadedCount++] *)
Definition downloaded (entry : string) (t : Tally) : Tally :=
  {| downloadedCount := S (downloadedCount t); errorCount := errorCount t;
     downloadedFiles := (downloadedFiles t ++ [entry])%list;
     failedFiles := failedFiles t |}.

(** [failedFiles.push(entry); errorCount++] *)
Definition failed (entry : string) (t : Tally) : Tally :=
  {| downloadedCount := downloadedCount t; errorCount := S (errorCount t);
     downloadedFiles := downloadedFiles t;
     failedFiles := (failedFiles t ++ [entry])%list |}.

(** [metadata.items ?? []], read as [PluginItem]s. *)
Definition asString (v : option json) : string :=
  match v with
  | Some (JStr s) => s
  | _ => ""
  end.

Definition toPluginItem (j : json) : PluginItem :=
  {| item_path := asString (getProp j "path"); item_kind := asString (getProp j "kind") |}.

Definition itemsOf (meta : json) : list PluginItem :=
  match getProp meta "items" with
  | Some (JArr items) => map toPluginItem items
  | _ => []
  end.

(** [metadata.id || item.name] *)
Definition idOrName (meta : json) (item : CopilotItem) : string :=
  match getProp meta "id" with
  | Some (JStr s) => if String.eqb s "" then ci_name item else s
  | _ => ci_name item
  end.

(** The body of the [try] of one turn of the loop, once the category of the
    item is known: the entry for [downloadedFiles]. *)
Definition downloadPluginItem (item : CopilotItem) (fsPath : string)
    (pluginItem : PluginItem) (category : CopilotCategory) : M string :=
  let! join := ask path_join in
  let! dirname := ask path_dirname in
  let categoryFolder := FOLDER_PATHS category in
  let fullCategoryPath := join [fsPath; categoryFolder] in
  do! ensureDir fullCategoryPath in
  if String.eqb (item_kind pluginItem) "skill" then
    let skillDirName := lastSegmentOr (item_path pluginItem) in
    let targetSkillPath := join [fullCategoryPath; skillDirName] in
    let! present := existsSync targetSkillPath in
    do! (if present then rmSync targetSkillPath else ret tt) in
    do! mkdirSync targetSkillPath in
    let! contents := getDirectoryContents (ci_repo item) (item_path pluginItem) in
    do! forEach contents (fun fileItem =>
          if isFile fileItem then
            let skillFolderPath :=
              if Js.endsWith (item_path pluginItem) "/" then item_path pluginItem
              else item_path pluginItem ++ "/" in
            let relativePath :=
              if Js.startsWith (path fileItem) skillFolderPath
              then Js.substringFrom (String.length skillFolderPath) (path fileItem)
              else path fileItem in
            let targetFilePath := join [targetSkillPath; relativePath] in
            do! ensureDir (dirname targetFilePath) in
            let! content := getFileContent (download_url fileItem) in
            writeFileSync targetFilePath content
          else ret tt) in
    ret (item_kind pluginItem ++ ": " ++ skillDirName ++ " ("
         ++ pretty (length (List.filter isFile contents)) ++ " files)")
  else
    let lastSegment := lastSegmentOr (item_path pluginItem) in
    let isDirectoryRef := negb (Js.includes lastSegment ".") in
    if isDirectoryRef then
      let! contents := getDirectoryContents (ci_repo item) (item_path pluginItem) in
      do! forEach contents (fun fileItem =>
            if isFile fileItem then
              let targetFilePath := join [fullCategoryPath; name fileItem] in
              let! content := getFileContent (download_url fileItem) in
              writeFileSync targetFilePath content
            else ret tt) in
      ret (item_kind pluginItem ++ ": " ++ lastSegment ++ "/ ("
           ++ pretty (length (List.filter isFile contents)) ++ " files)")
    else
      let filename := lastSegment in
      let targetFilePath := join [fullCategoryPath; filename] in
      let! fileData := getFileContentByPath (ci_repo item) (item_path pluginItem) in
      do! writeFileSync targetFilePath (fd_content fileData) in
      ret (item_kind pluginItem ++ ": " ++ filename).

(** One turn of [for (const pluginItem of pluginItems) { try {...} catch {...} }] *)
Definition downloadOne (item : CopilotItem) (fsPath : string)
    (pluginItem : PluginItem) (t : Tally) : M Tally :=
  try_catch
    (match KIND_TO_CATEGORY (item_kind pluginItem) with
     | None =>
         ret (failed (item_path pluginItem ++ " (unknown kind: "
                      ++ item_kind pluginItem ++ ")") t)
     | Some category =>
         let! entry := downloadPluginItem item fsPath pluginItem category in
         ret (downloaded entry t)
     end)
    (fun _ => ret (failed (item_path pluginItem) t)).

(** The loop over the items of the manifest. *)
Fixpoint downloadPluginItems (item : CopilotItem) (fsPath : string)
    (pluginItems : list PluginItem) (t : Tally) : M Tally :=
  match pluginItems with
  | [] => ret t
  | pluginItem :: rest =>
      let! t' := downloadOne item fsPath pluginItem t in
      downloadPluginItems item fsPath rest t'
  end.

(** The files of a sub-folder ([agents/] or [commands/]) of the plugin, each
    in a [try] of its own. *)
Definition saveSubfolder (folder : string) (pluginDir : string)
    (topLevelItems pluginContents : list GitHubFile) : M unit :=
  let! join := ask path_join in
  let! dirname := ask path_dirname in
  match List.find (isDirNamed folder) topLevelItems with
  | Some dir =>
      let localDir := join [pluginDir; folder] in
      do! ensureDir localDir in
      let files :=
        List.filter (fun f => isFile f && Js.startsWith (path f) (path dir ++ "/"))
                    pluginContents in
      forEach files (fun f =>
        try_catch
          (let relativePath := Js.substringFrom (String.length (path dir) + 1) (path f) in
           let targetFilePath := join [localDir; relativePath] in
           do! ensureDir (dirname targetFilePath) in
           let! content := getFileContent (download_url f) in
           writeFileSync targetFilePath content)
          (fun _ => ret tt))
  | None => ret tt
  end.

Definition NOTE_FILE : string := "NOTE.VSCODE-VSCODE-GIT-COPILOT-TOOLS-EXTENSION.md".

(** The copy of the manifest under [.github/plugin/], in a [try] of its
    own. *)
Definition saveManifestCopy (pluginDir : string) (meta : json) : M unit :=
  let! join := ask path_join in
  let! stringify := ask JSON_stringify in
  try_catch
    (let pluginJsonDir := join [pluginDir; ".github"; "plugin"] in
     do! ensureDir pluginJsonDir in
     writeFileSync (join [pluginJsonDir; "plugin.json"]) (DText (stringify meta)))
    (fun _ => ret tt).

(** The README of the plugin, if the listing has one: what is read is kept
    for the note also when it could not be written. *)
Definition saveReadme (pluginDir : string) (topLevelItems : list GitHubFile)
    : M RespData :=
  let! join := ask path_join in
  match List.find (fun f => isFile f && String.eqb (name f) "README.md")
                  topLevelItems with
  | Some readmeFile =>
      try_catch
        (let! content := getFileContent (download_url readmeFile) in
         try_catch
           (do! writeFileSync (join [pluginDir; "README.md"]) content in
            ret content)
           (fun _ => ret content))
        (fun _ => ret (DText ""))
  | None => ret (DText "")
  end.

(** The note with the slash commands of the README. *)
Definition saveNote (pluginDir : string) (readmeContent : RespData)
    (pluginName : string) : M unit :=
  let! join := ask path_join in
  let! noteContent := generateNoteContent readmeContent pluginName in
  writeFileSync (join [pluginDir; NOTE_FILE]) (DText noteContent).

(** The direct children of the plugin directory in its listing. *)
Definition topLevel (item : CopilotItem) (pluginContents : list GitHubFile)
    : list GitHubFile :=
  List.filter
    (fun f =>
       negb (Js.includes
               (Js.substringFrom (String.length (path (ci_file item)) + 1) (path f))
               "/"))
    pluginContents.

(** What is saved next to the items: the manifest, the [agents/] and
    [commands/] folders, the README and the note. *)
Definition savePluginFiles (item : CopilotItem) (fullTargetPath : string)
    (meta : json) : M unit :=
  let! join := ask path_join in
  let pluginDir := join [fullTargetPath; idOrName meta item] in
  do! ensureDir pluginDir in
  do! saveManifestCopy pluginDir meta in
  try_catch
    (let! pluginContents := getDirectoryContents (ci_repo item) (path (ci_file item)) in
     let topLevelItems := topLevel item pluginContents in
     do! saveSubfolder "agents" pluginDir topLevelItems pluginContents in
     do! saveSubfolder "commands" pluginDir topLevelItems pluginContents in
     let! readmeContent := saveReadme pluginDir topLevelItems in
     saveNote pluginDir readmeContent (idOrName meta item))
    (fun _ => ret tt).

(** [downloadTracker.recordDownload(item)] *)
Definition recordDownload : M unit :=
  let! failure := consult record_failure in
  match failure with
  | None => ret tt
  | Some e => throw e
  end.

(** The text of the confirmation asked before a plugin is downloaded. *)
Definition confirmMessage (meta : json) (total : nat) : string :=
  "Download plugin " ++ dq ++ asString (getProp meta "name") ++ dq ++ "?" ++ nl ++ nl
  ++ asString (getProp meta "description") ++ nl ++ nl
  ++ pretty total ++ " item(s) will be saved to their category folders.".

(** The text of the closing notification. *)
Definition summaryMessage (meta : json) (total : nat) (t : Tally) : string :=
  "Plugin " ++ dq ++ asString (getProp meta "name") ++ dq ++ " downloaded!" ++ nl ++ nl
  ++ "Downloaded " ++ pretty (downloadedCount t) ++ "/" ++ pretty total
  ++ " item(s) successfully."
  ++ (if (0 <? errorCount t)%nat
      then nl ++ pretty (errorCount t) ++ " item(s) failed."
      else "").

(** The plugin download from the confirmed manifest on: the loop over the
    items, the files saved next to them, the record and the summary.  The
    tally is handed back for the properties to speak about. *)
Definition downloadPluginBundle (item : CopilotItem) (fsPath : string)
    (meta : json) : M Tally :=
  let! join := ask path_join in
  let fullTargetPath := join [fsPath; FOLDER_PATHS (ci_category item)] in
  let pluginItems := itemsOf meta in
  let! t := downloadPluginItems item fsPath pluginItems noTally in
  do! savePluginFiles item fullTargetPath meta in
  do! recordDownload in
  do! clearCategoryCache (ci_repo item) (ci_category item) in
  do! showMessage (summaryMessage meta (length pluginItems) t) in
  ret t.

(** [downloadCopilotItem(item, githubService, downloadTracker)] for an item
    of the plugins category that is a directory, in the workspace folder
    [fsPath]: [None] when the download ends before the loop. *)
Definition downloadPlugin (item : CopilotItem) (fsPath : string) : M (option Tally) :=
  try_catch
    (let! parsed :=
       try_catch (let! r := parsePluginJson (ci_repo item) (path (ci_file item)) in
                  ret (inl r))
                 (fun error => ret (inr error)) in
     match parsed with
     | inr error =>
         do! showMessage ("Failed to read plugin metadata: " ++ errToString error) in
         ret None
     | inl pluginResult =>
         let meta := metadata pluginResult in
         if (length (itemsOf meta) =? 0)%nat then
           do! showMessage ("Plugin " ++ dq ++ asString (getProp meta "name") ++ dq
                            ++ " has no items to download.") in
           ret None
         else
           let! confirm := askChoice (confirmMessage meta (length (itemsOf meta))) in
           if chose confirm "Download" then
             let! t := downloadPluginBundle item fsPath meta in
             ret (Some t)
           else ret None
     end)
    (fun error =>
       do! showMessage ("Failed to download " ++ ci_name item ++ ": " ++ errToString error) in
       ret None).


(** ** Notions used in the statements *)

(** An entry of [items] that passes [checkItem]: an object with a non-blank
    [path] and an allowed [kind]. *)
Definition validItem (item : json) : Prop :=
  exists fields p k,
    item = JObj fields /\
    getProp item "path" = Some (JStr p) /\ Js.trim p <> "" /\
    getProp item "kind" = Some (JStr k) /\ In k allowedKinds.

(** A manifest whose [name] and [description] are non-blank strings. *)
Definition namedManifest (meta : json) : Prop :=
  notNonBlankString (getProp meta "name") = false /\
  notNonBlankString (getProp meta "description") = false.

(** A manifest that carries at least one shorthand array. *)
Definition hasShorthand (meta : json) : Prop :=
  (exists l, getProp meta "agents" = Some (JArr l)) \/
  (exists l, getProp meta "skills" = Some (JArr l)).

(** The manifest as returned: [id] derived from the directory when missing. *)
Definition withId (meta : json) (pluginDirPath : string) : json :=
  match getProp meta "id" with
  | Some (JStr id) =>
      if String.eqb id "" then setProp meta "id" (JStr (Js.lastSegment pluginDirPath))
      else meta
  | _ => setProp meta "id" (JStr (Js.lastSegment pluginDirPath))
  end.

Definition itemsError : JsError :=
  Error ("Invalid plugin.json format: missing or invalid " ++ dq ++ "items" ++ dq ++ " array").

(** A computation that only lets time pass: it may throw, and leaves every
    part of the state but the clock of questions as it was. *)
Definition ticking {A} (m : M A) : Prop :=
  forall w st, exists o n, m w st = (o, set_tick n st).

(** A ticking computation that never throws. *)
Definition quiet {A} (m : M A) : Prop :=
  forall w st, exists a n, m w st = (Ret a, set_tick n st).

(** The value or the rejection a reply stands for. *)
Definition outcomeOf (reply : HttpResult) : Outcome RespData :=
  match reply with
  | HttpFail e => Throw e
  | HttpList entries => Ret (DList entries)
  | HttpFile f => Ret (DFile f)
  | HttpText s => Ret (DText s)
  end.

(** The agent put into the request configuration for [url]. *)
Definition agentFor (w : World) (isEnterprise : bool) (url : string) : option HttpsAgent :=
  if isEnterprise && negb (Js.includes url "github.com") then
    Some (if allowInsecureEnterpriseCerts w
          then {| rejectUnauthorized := false; checkServerIdentityOff := true |}
          else {| rejectUnauthorized := true; checkServerIdentityOff := false |})
  else None.

(** The request the service issues for [url] with headers [hdrs]. *)
Definition requestFor (w : World) (st : State) (isEnterprise : bool) (url : string)
    (hdrs : list (string * string)) (reply : HttpResult) : Request :=
  {| rq_url := url;
     rq_config := {| timeout := 10000; headers := hdrs;
                     withCredentials := isEnterprise;
                     httpsAgent := agentFor w isEnterprise url |};
     rq_env := if isEnterprise && allowInsecureEnterpriseCerts w
               then Some "0" else env_tls st;
     rq_result := reply |}.

(** The entries of a listing that are kept for a category, tagged. *)
Definition keptEntries (r : RepoSource) (c : CopilotCategory)
    (entries : list (RawFile * HttpResult)) : list GitHubFile :=
  map (tagRepo r) (List.filter (keepEntry c) (map fst entries)).

(** What [fetchListing] makes of the reply to its last request, from the
    state [st1] in which that request is on record. *)
Definition afterListing (r : RepoSource) (c : CopilotCategory) (now : Z)
    (reply : HttpResult) (st1 : State) : Outcome (list loc) * State :=
  match reply with
  | HttpList entries =>
      let files := seq (length (heap st1)) (length (keptEntries r c entries)) in
      (Ret files,
       set_cache (<[cacheKey r c :=
                      {| data := files; timestamp := now;
                         entry_category := c; entry_repo := r |}]> (cache st1))
                 (set_heap (heap st1 ++ keptEntries r c entries) st1))
  | HttpFail e => (Throw e, st1)
  | _ => (Throw (TypeError "response.data.filter is not a function"), st1)
  end.

Definition authFailure (e : JsError) : bool := statusIs e 401 || statusIs e 403.

(** What the [catch] of [getFilesByRepo] makes of the outcome of the
    request part. *)
Definition notFoundIsEmpty (r : RepoSource) (c : CopilotCategory)
    (o : Outcome (list loc)) : Outcome (list loc) :=
  match o with
  | Ret files => Ret files
  | Throw error =>
      if statusIs error 404 then Ret []
      else Throw (Error ("Failed to load " ++ categoryName c ++ " from "
                         ++ owner r ++ "/" ++ repo r ++ ": " ++ errToString error))
  end.

(** [log_request] for several requests, oldest first. *)
Definition log_requests (rs : list Request) (st : State) : State :=
  fold_left (fun s rq => log_request rq s) rs st.

(** The requests [fetchListing] may issue before its last one: none, or one
    that failed for want of authentication and was followed by a sign-in. *)
Definition retryPrefix (w : World) (st : State) (r : RepoSource) (url : string)
    (prefix : list Request) : Prop :=
  prefix = [] \/
  exists hdrs1 e1,
    authFailure e1 = true /\
    prefix = [requestFor w st (Js.truthy (baseUrl r)) url hdrs1 (HttpFail e1)].

(** [`Failed to fetch file content: ${error}`] *)
Definition contentError (error : JsError) : JsError :=
  Error ("Failed to fetch file content: " ++ errToString error).

(** [`Failed to fetch file content for path "${filePath}": ${error}`] *)
Definition pathError (filePath : string) (error : JsError) : JsError :=
  Error ("Failed to fetch file content for path " ++ dq ++ filePath ++ dq
         ++ ": " ++ errToString error).

Definition notAFileError (filePath : string) : JsError :=
  Error ("Path " ++ dq ++ filePath ++ dq ++ " is not a file or has no content").

(** The reply of a server that does not know the path. *)
Definition notFound : HttpResult :=
  HttpFail {| err_name := "AxiosError";
              err_message := "Request failed with status code 404";
              err_response := Some {| status := 404; ratelimit_remaining := None;
                                      ratelimit_reset := None;
                                      data_message := Some "Not Found" |} |}.

(** A request as the service issues it in a process whose flag is [flag]:
    classified as enterprise or not, it carries the agent of
    [createHttpsAgent] and runs under the overridden flag exactly when it is
    classified as enterprise and the user has opted in. *)
Definition issued (w : World) (flag : option string) (rq : Request) : Prop :=
  exists isEnterprise hdrs,
    rq_config rq = {| timeout := 10000; headers := hdrs;
                      withCredentials := isEnterprise;
                      httpsAgent := agentFor w isEnterprise (rq_url rq) |} /\
    rq_env rq = if isEnterprise && allowInsecureEnterpriseCerts w
                then Some "0" else flag.

(** Between [st] and [st'] the process has only asked questions and issued
    requests: the flag is back to what it was, the disk and the
    notifications are untouched. *)
Definition requestsOnly (w : World) (st st' : State) : Prop :=
  env_tls st' = env_tls st /\
  fs_calls st' = fs_calls st /\
  messages st' = messages st /\
  exists rs, requests st' = (requests st ++ rs)%list /\ Forall (issued w (env_tls st)) rs.

(** The store of file objects and the cache are as they were. *)
Definition storeKept (w : World) (st st' : State) : Prop :=
  heap st' = heap st /\ cache st' = cache st.

(** [m] relates every state to the state it leaves behind. *)
Definition keeps (R : World -> State -> State -> Prop) {A} (m : M A) : Prop :=
  forall w st, R w st (m w st).2.

(** The records of file-system calls and of notifications only grow. *)
Definition logsGrow (w : World) (st st' : State) : Prop :=
  (exists calls, fs_calls st' = (fs_calls st ++ calls)%list) /\
  (exists texts, messages st' = (messages st ++ texts)%list).

(** The local path of the copy of the manifest. *)
Definition manifestCopyPath (w : World) (item : CopilotItem) (fsPath : string)
    (meta : json) : string :=
  let fullTargetPath := path_join w [fsPath; FOLDER_PATHS (ci_category item)] in
  let pluginDir := path_join w [fullTargetPath; idOrName meta item] in
  path_join w [path_join w [pluginDir; ".github"; "plugin"]; "plugin.json"].

(** The statements of [downloadPluginBundle] that follow the loop, for the
    tally [t] the loop has reached. *)
Definition afterItems (item : CopilotItem) (fsPath : string) (meta : json)
    (t : Tally) : M Tally :=
  let! join := ask path_join in
  let fullTargetPath := join [fsPath; FOLDER_PATHS (ci_category item)] in
  do! savePluginFiles item fullTargetPath meta in
  do! recordDownload in
  do! clearCategoryCache (ci_repo item) (ci_category item) in
  do! showMessage (summaryMessage meta (length (itemsOf meta)) t) in
  ret t.

(** The kind of the item is one of the four that have a category. *)
Definition knownKind (it : PluginItem) : Prop :=
  is_Some (KIND_TO_CATEGORY (item_kind it)).

(** The disk never fails. *)
Definition diskWorks (w : World) : Prop := forall k, fs_failure w k = None.

(** The state in which [savePluginFiles] lists the plugin directory. *)
Definition listingState (item : CopilotItem) (fullTargetPath : string) (meta : json)
    (w : World) (st : State) : State :=
  let pluginDir := path_join w [fullTargetPath; idOrName meta item] in
  ((do! ensureDir pluginDir in saveManifestCopy pluginDir meta) w st).2.

(** The state in which [savePluginFiles] looks for the README, from the one
    [s] the listing [pluginContents] has come in. *)
Definition readmeState (item : CopilotItem) (pluginDir : string)
    (pluginContents : list GitHubFile) (w : World) (s : State) : State :=
  ((do! saveSubfolder "agents" pluginDir (topLevel item pluginContents) pluginContents in
    saveSubfolder "commands" pluginDir (topLevel item pluginContents) pluginContents)
     w s).2.

(** [find(f => f.type === 'file' && f.name === 'README.md')] *)
Definition readmeOf (topLevelItems : list GitHubFile) : option GitHubFile :=
  List.find (fun f => isFile f && String.eqb (name f) "README.md") topLevelItems.

(** ** Sample data for the worked examples *)

(** A repository whose mappings show every case. *)
Definition mappedRepo : RepoSource :=
  {| owner := "octo"; repo := "tools"; label := None; baseUrl := None;
     folderMappings :=
       Some (fun c => match c with
                      | Plugins => Null
                      | Skills => Str "root"
                      | Agents => Str "  copilot/agents "
                      | Prompts => Str "   "
                      | Instructions => Absent
                      end) |}.

(** The manifest of the spec's example: [skills: ["./skills/bar/"]] and no
    [items]. *)
Definition shorthandManifest : json :=
  JObj [("name", JStr "Slash Strip Plugin");
        ("description", JStr "Tests trailing slash removal");
        ("skills", JArr [JStr "./skills/bar/"])].

(** The same manifest with an empty [items] array next to [skills]. *)
Definition mixedManifest : json :=
  JObj [("name", JStr "Slash Strip Plugin");
        ("description", JStr "Tests trailing slash removal");
        ("items", JArr []);
        ("skills", JArr [JStr "./skills/bar/"])].

(** [{name, description, items: []}] *)
Definition emptyManifest : json :=
  JObj [("name", JStr "Test Plugin");
        ("description", JStr "A test plugin");
        ("items", JArr [])].

(** [{name, description}] *)
Definition bareManifest : json :=
  JObj [("name", JStr "Test Plugin");
        ("description", JStr "A test plugin")].

(** A legacy manifest with one item of every kind. *)
Definition legacyManifest : json :=
  JObj [("name", JStr "Multi-Kind Plugin");
        ("description", JStr "Plugin with multiple item kinds");
        ("items",
         JArr [JObj [("path", JStr "instructions/test.instructions.md");
                     ("kind", JStr "instruction")];
               JObj [("path", JStr "prompts/sample.prompt.md"); ("kind", JStr "prompt")];
               JObj [("path", JStr "agents/helper.agent.md"); ("kind", JStr "agent")];
               JObj [("path", JStr "skills/analyzer"); ("kind", JStr "skill")]])].

(** The public repository the extension starts with. *)
Definition defaultRepo : RepoSource :=
  {| owner := "github"; repo := "awesome-copilot";
     label := Some "Git Copilot Tools"; baseUrl := None; folderMappings := None |}.

(** A world without credentials or dialogs answered, whose server sends
    [reply] to every request, and whose [JSON.parse] reads the text
    ["manifest"] as [manifest] and nothing else. *)
Definition constantWorld (allowInsecure : bool) (reply : HttpResult)
    (manifest : json) : World :=
  {| enableGithubAuth := false;
     allowInsecureEnterpriseCerts := allowInsecure;
     enterpriseToken := None;
     cacheTimeout := 3600000;
     http := fun _ => reply;
     session := fun _ => NoSession;
     dialog := fun _ => None;
     clock := fun _ => 1000;
     fs_exists := fun _ => false;
     fs_failure := fun _ => None;
     fs_read := fun _ => "";
     record_failure := fun _ => None;
     JSON_parse := fun s => if String.eqb s "manifest" then Some manifest else None;
     JSON_stringify := fun _ => "{}";
     Buffer_decode := fun content _ => content;
     path_join := String.concat "/";
     path_dirname := fun p => p;
     module_dirname := "out" |}.

(** The reply of the Contents API for a small file whose text is ["manifest"]. *)
Definition manifestReply : HttpResult :=
  HttpFile {| rc_type := "file"; rc_content := Some "manifest";
              rc_encoding := Some "base64"; rc_download_url := None;
              rc_sha := Some "abc123"; rc_size := 8 |}.

(** A repository whose plugins category is excluded. *)
Definition excludingRepo : RepoSource :=
  {| owner := "github"; repo := "awesome-copilot"; label := None; baseUrl := None;
     folderMappings := Some (fun c => match c with Plugins => Null | _ => Absent end) |}.

Definition pluginDir : GitHubFile :=
  {| name := "demo"; path := "plugins/demo"; download_url := ""; size := 0;
     type := "dir"; sha := Some "d0"; file_repo := Some defaultRepo;
     displayName := None |}.

(** A service that listed the plugins of the default repository at time
    [stamp] and found one. *)
Definition cachedState (stamp : Z) : State :=
  {| heap := [pluginDir];
     cache := {[ cacheKey defaultRepo Plugins :=
                   {| data := [0%nat]; timestamp := stamp;
                      entry_category := Plugins; entry_repo := defaultRepo |} ]};
     env_tls := None; requests := []; fs_calls := []; messages := []; tick := 0 |}.

Definition unauthorized : HttpResult :=
  HttpFail {| err_name := "AxiosError";
              err_message := "Request failed with status code 401";
              err_response := Some {| status := 401; ratelimit_remaining := None;
                                      ratelimit_reset := None;
                                      data_message := Some "Bad credentials" |} |}.

(** A world five million milliseconds into the epoch, with a signed-in user
    who answers every prompt with "Sign In", and a server that rejects the
    requests asked before moment [since] with status 401 and lists nothing
    afterwards. *)
Definition signInWorld (since : nat) : World :=
  {| enableGithubAuth := true;
     allowInsecureEnterpriseCerts := false;
     enterpriseToken := None;
     cacheTimeout := 3600000;
     http := fun n => if (n <? since)%nat then unauthorized else HttpList [];
     session := fun _ => Session "token";
     dialog := fun _ => Some "Sign In";
     clock := fun _ => 5000000;
     fs_exists := fun _ => false;
     fs_failure := fun _ => None;
     fs_read := fun _ => "";
     record_failure := fun _ => None;
     JSON_parse := fun _ => None;
     JSON_stringify := fun _ => "{}";
     Buffer_decode := fun content _ => content;
     path_join := String.concat "/";
     path_dirname := fun p => p;
     module_dirname := "out" |}.

(** The same clock, a server that knows no path. *)
Definition lateWorld : World :=
  {| enableGithubAuth := false;
     allowInsecureEnterpriseCerts := false;
     enterpriseToken := None;
     cacheTimeout := 3600000;
     http := fun _ => notFound;
     session := fun _ => NoSession;
     dialog := fun _ => None;
     clock := fun _ => 5000000;
     fs_exists := fun _ => false;
     fs_failure := fun _ => None;
     fs_read := fun _ => "";
     record_failure := fun _ => None;
     JSON_parse := fun _ => None;
     JSON_stringify := fun _ => "{}";
     Buffer_decode := fun content _ => content;
     path_join := String.concat "/";
     path_dirname := fun p => p;
     module_dirname := "out" |}.

(** The same world, with the documented setting [cacheTimeout] at one
    minute. *)
Definition shortTimeoutWorld : World :=
  {| enableGithubAuth := false;
     allowInsecureEnterpriseCerts := false;
     enterpriseToken := None;
     cacheTimeout := 60000;
     http := fun _ => notFound;
     session := fun _ => NoSession;
     dialog := fun _ => None;
     clock := fun _ => 5000000;
     fs_exists := fun _ => false;
     fs_failure := fun _ => None;
     fs_read := fun _ => "";
     record_failure := fun _ => None;
     JSON_parse := fun _ => None;
     JSON_stringify := fun _ => "{}";
     Buffer_decode := fun content _ => content;
     path_join := String.concat "/";
     path_dirname := fun p => p;
     module_dirname := "out" |}.

(** The request ran without certificate validation: under the overridden
    flag, or through an agent that does not reject unauthorized peers. *)
Definition validationOff (rq : Request) : Prop :=
  rq_env rq = Some "0" \/
  exists agent, httpsAgent (rq_config rq) = Some agent /\ rejectUnauthorized agent = false.

(** What a request of the log shows of its certificate settings. *)
Definition tlsSettings (rq : Request) : string * option string * option HttpsAgent :=
  (rq_url rq, rq_env rq, httpsAgent (rq_config rq)).

(** A raw download address of the public repository. *)
Definition publicDownload : string :=
  "https://raw.githubusercontent.com/github/awesome-copilot/main/README.md".

(** The public repository, entered with the public host as its [baseUrl]. *)
Definition publicAsBase : RepoSource :=
  {| owner := "github"; repo := "awesome-copilot"; label := None;
     baseUrl := Some "https://github.com"; folderMappings := None |}.

(** A world whose user has opted in to insecure enterprise certificates. *)
Definition optInWorld : World := constantWorld true (HttpText "# README") emptyManifest.

(** The type of the entries a category lists. *)
Definition expectedType (c : CopilotCategory) : string :=
  match c with
  | Skills | Plugins => "dir"
  | _ => "file"
  end.

(** At address [l] the store holds an entry of the type of category [c],
    tagged with a repository. *)
Definition entryAt (h : list GitHubFile) (c : CopilotCategory) (l : loc) : Prop :=
  exists f, h !! l = Some f /\ type f = expectedType c /\ is_Some (file_repo f).

(** The invariant of the cache: every entry sits under the key of its own
    repository and category, and its data are addresses of entries of the
    type of that category. *)
Definition cache_wf (st : State) : Prop :=
  forall k e, cache st !! k = Some e ->
    k = cacheKey (entry_repo e) (entry_category e) /\
    Forall (entryAt (heap st) (entry_category e)) (data e).

(** The part of a string after its last ['|'] (the whole string if there is
    none). *)
Fixpoint afterLastBar (s : string) : string :=
  match s with
  | EmptyString => EmptyString
  | String ch rest =>
      if Js.includes rest "|" then afterLastBar rest
      else if Ascii.eqb ch "|" then rest else s
  end.

(** The second pass of [getFiles] over the store. *)
Definition displayNamePass (duplicates : gset string) (h : list GitHubFile)
    (ls : list loc) : list GitHubFile :=
  foldl (fun h' l => alter (assignDisplayName duplicates) l h') h ls.

(** How often a name occurs in a list of names. *)
Definition occurrences (n : string) (names : list string) : nat :=
  length (filter (fun x => x = n) names).

(** The objects at the addresses [ls], in order. *)
Definition objectsAt (h : list GitHubFile) (ls : list loc) (fs : list GitHubFile) : Prop :=
  Forall2 (fun l f => h !! l = Some f) ls fs.

(** Two sources that both hold [x.md]; the second holds [y.md] too. *)
Definition repoOne : RepoSource :=
  {| owner := "octo"; repo := "one"; label := None; baseUrl := None;
     folderMappings := None |}.

Definition repoTwo : RepoSource :=
  {| owner := "octo"; repo := "two"; label := None; baseUrl := None;
     folderMappings := None |}.

Definition rawMd (n : string) : RawFile :=
  {| raw_name := n; raw_path := "instructions/" ++ n;
     raw_download_url := "https://raw.githubusercontent.com/octo/main/" ++ n;
     raw_size := 10; raw_type := "file"; raw_sha := None |}.

(** A world whose server answers the first request with the listing of
    [repoOne] and the later ones with the listing of [repoTwo]. *)
Definition twoRepoWorld : World :=
  {| enableGithubAuth := false;
     allowInsecureEnterpriseCerts := false;
     enterpriseToken := None;
     cacheTimeout := 3600000;
     http := fun n =>
       if (n <=? 1)%nat then HttpList [(rawMd "x.md", notFound)]
       else HttpList [(rawMd "x.md", notFound); (rawMd "y.md", notFound)];
     session := fun _ => NoSession;
     dialog := fun _ => None;
     clock := fun _ => 1000;
     fs_exists := fun _ => false;
     fs_failure := fun _ => None;
     fs_read := fun _ => "";
     record_failure := fun _ => None;
     JSON_parse := fun _ => None;
     JSON_stringify := fun _ => "{}";
     Buffer_decode := fun content _ => content;
     path_join := String.concat "/";
     path_dirname := fun p => p;
     module_dirname := "out" |}.

(** The reply of a server that fails. *)
Definition serverError : HttpResult :=
  HttpFail {| err_name := "AxiosError";
              err_message := "Request failed with status code 500";
              err_response := Some {| status := 500; ratelimit_remaining := None;
                                      ratelimit_reset := None;
                                      data_message := None |} |}.

(** A world whose server fails the first request and lists [y.md] to the
    later ones. *)
Definition flakyWorld : World :=
  {| enableGithubAuth := false;
     allowInsecureEnterpriseCerts := false;
     enterpriseToken := None;
     cacheTimeout := 3600000;
     http := fun n =>
       if (n <=? 1)%nat then serverError else HttpList [(rawMd "y.md", notFound)];
     session := fun _ => NoSession;
     dialog := fun _ => None;
     clock := fun _ => 1000;
     fs_exists := fun _ => false;
     fs_failure := fun _ => None;
     fs_read := fun _ => "";
     record_failure := fun _ => None;
     JSON_parse := fun _ => None;
     JSON_stringify := fun _ => "{}";
     Buffer_decode := fun content _ => content;
     path_join := String.concat "/";
     path_dirname := fun p => p;
     module_dirname := "out" |}.

(** A manifest of five items, each a single file. *)
Definition fiveItems : json :=
  JObj [("id", JStr "demo");
        ("name", JStr "Demo");
        ("description", JStr "Five files");
        ("items",
         JArr [JObj [("path", JStr "instructions/a.instructions.md");
                     ("kind", JStr "instruction")];
               JObj [("path", JStr "prompts/b.prompt.md"); ("kind", JStr "prompt")];
               JObj [("path", JStr "agents/c.agent.md"); ("kind", JStr "agent")];
               JObj [("path", JStr "instructions/d.instructions.md");
                     ("kind", JStr "instruction")];
               JObj [("path", JStr "prompts/e.prompt.md"); ("kind", JStr "prompt")]])].

(** The plugin [plugins/demo] of the default repository, as the tree view
    hands it to the download. *)
Definition demoPlugin : CopilotItem :=
  {| ci_id := "plugins/demo"; ci_name := "demo"; ci_category := Plugins;
     ci_file := pluginDir; ci_repo := defaultRepo |}.

Definition fileReply : HttpResult :=
  HttpFile {| rc_type := "file"; rc_content := Some "Y29udGVudA==";
              rc_encoding := Some "base64"; rc_download_url := None;
              rc_sha := None; rc_size := 7 |}.

Definition rawReadme : RawFile :=
  {| raw_name := "README.md"; raw_path := "plugins/demo/README.md";
     raw_download_url :=
       "https://raw.githubusercontent.com/github/awesome-copilot/main/plugins/demo/README.md";
     raw_size := 40; raw_type := "file"; raw_sha := None |}.

Definition readmeText : string := "| `/demo:review` | Reviews the change |".

(** The folder of the plugin, as the listing of [plugins] has it. *)
Definition rawDemoDir : RawFile :=
  {| raw_name := "demo"; raw_path := "plugins/demo"; raw_download_url := "";
     raw_size := 0; raw_type := "dir"; raw_sha := None |}.

(** A world whose server lists a file and a folder, the folder empty. *)
Definition mixedWorld : World :=
  constantWorld false (HttpList [(rawReadme, notFound); (rawDemoDir, HttpList [])])
                emptyManifest.

(** A world with every directory in place and a disk that works, whose
    server has every file but the one asked for by the request at tick
    [7] (the third item of a run from [initialState]), lists the plugin
    directory at tick [17] and sends the README at tick [18]. *)
Definition bundleWorld : World :=
  {| enableGithubAuth := false;
     allowInsecureEnterpriseCerts := false;
     enterpriseToken := None;
     cacheTimeout := 3600000;
     http := fun k =>
       if (k =? 7)%nat then notFound
       else if (k =? 17)%nat then HttpList [(rawReadme, notFound)]
       else if (k =? 18)%nat then HttpText readmeText
       else fileReply;
     session := fun _ => NoSession;
     dialog := fun _ => None;
     clock := fun _ => 1000;
     fs_exists := fun _ => true;
     fs_failure := fun _ => None;
     fs_read := fun _ => EmptyString;
     record_failure := fun _ => None;
     JSON_parse := fun _ => None;
     JSON_stringify := fun _ => "{}";
     Buffer_decode := fun content _ => content;
     path_join := String.concat "/";
     path_dirname := fun p => p;
     module_dirname := "out" |}.

(** ** More of githubService.ts, and notions for its properties *)

(** One call of a method of the service. *)
Inductive ServiceCall : Type :=
| CallGetFiles (c : CopilotCategory) (forceRefresh : bool) (sources : list RepoSource)
| CallGetFilesByRepo (r : RepoSource) (c : CopilotCategory) (forceRefresh : bool)
| CallGetFileContent (downloadUrl : string)
| CallGetFileContentByPath (r : RepoSource) (filePath : string)
| CallGetDirectoryContents (r : RepoSource) (p : string)
| CallParsePluginJson (r : RepoSource) (pluginDirPath : string)
| CallClearCache
| CallClearRepoCache (r : RepoSource)
| CallClearCategoryCache (r : RepoSource) (c : CopilotCategory).

(** The state the call leaves behind, whether it returns or throws. *)
Definition runCall (w : World) (st : State) (call : ServiceCall) : State :=
  match call with
  | CallGetFiles c force sources => (getFiles c force sources w st).2
  | CallGetFilesByRepo r c force => (getFilesByRepo r c force w st).2
  | CallGetFileContent url => (getFileContent url w st).2
  | CallGetFileContentByPath r p => (getFileContentByPath r p w st).2
  | CallGetDirectoryContents r p => (getDirectoryContents r p w st).2
  | CallParsePluginJson r dir => (parsePluginJson r dir w st).2
  | CallClearCache => (clearCache w st).2
  | CallClearRepoCache r => (clearRepoCache r w st).2
  | CallClearCategoryCache r c => (clearCategoryCache r c w st).2
  end.

(** The state after the calls of [calls], each awaited before the next is
    made, from the state [st]. *)
Definition runCallsFrom (w : World) (st : State) (calls : list ServiceCall) : State :=
  fold_left (runCall w) calls st.

(** The same, on a new service. *)
Definition runCalls (w : World) (calls : list ServiceCall) : State :=
  runCallsFrom w initialState calls.

(** The call walks a directory. *)
Definition isWalk (call : ServiceCall) : bool :=
  match call with
  | CallGetDirectoryContents _ _ => true
  | _ => false
  end.

(** *** The walk of a directory, request by request *)

(** A call of [getDirectoryContents] that has not got its reply yet: it
    awaits its headers ([Starting]), or it has issued its request, having
    found the flag at [saved] ([InFlight]).  [reply] is what the server
    will answer, the replies for its sub-directories inside. *)
Inductive WalkTask : Type :=
| Starting (reply : HttpResult)
| InFlight (saved : option string) (reply : HttpResult).

(** The replies for the sub-directories of a listing:
    [items.filter(item => item.type === 'dir')]. *)
Definition subdirReplies (entries : list (RawFile * HttpResult)) : list HttpResult :=
  map snd (List.filter (fun entry => String.eqb (raw_type entry.1) "dir") entries).

(** One call goes on to its next [await]: the flag afterwards, and the
    calls that stand in its place.  A call that has its headers saves the
    flag, sets it to ['0'] under the override, and issues its request.  A
    call that gets its reply restores the flag it saved ([finally]) and,
    for a listing, calls [getDirectoryContents] for every sub-directory, in
    the order of the listing; each of these runs up to its first [await]
    and the caller awaits them all. *)
Definition walkStep (override : bool) (env : option string) (t : WalkTask)
  : option string * list WalkTask :=
  match t with
  | Starting reply =>
      (if override then Some "0" else env, [InFlight env reply])
  | InFlight saved reply =>
      (if override then saved else env,
       match reply with
       | HttpList entries => map Starting (subdirReplies entries)
       | _ => []
       end)
  end.

(** The calls of a walk, taken up in the order of [schedule]: each number
    is the place, among the calls that await something, of the one whose
    headers or reply come in next (a number past the end is skipped).  The
    result is the flag and the calls still waiting. *)
Fixpoint walkRun (override : bool) (schedule : list nat) (env : option string)
    (pool : list WalkTask) : option string * list WalkTask :=
  match schedule with
  | [] => (env, pool)
  | i :: rest =>
      match pool !! i with
      | Some t =>
          walkRun override rest (walkStep override env t).1
                  (take i pool ++ (walkStep override env t).2 ++ drop (S i) pool)
      | None => walkRun override rest env pool
      end
  end.

(** [isEnterprise && allowInsecureEnterpriseCerts] *)
Definition walkOverride (w : World) (r : RepoSource) : bool :=
  Js.truthy (baseUrl r) && allowInsecureEnterpriseCerts w.

(** The reply is not a listing with sub-directories. *)
Definition leafReply (reply : HttpResult) : Prop :=
  match reply with
  | HttpList entries => subdirReplies entries = []
  | _ => True
  end.

(** The replies come in the order of the requests: the headers and the
    reply of the walk itself, then the headers of the [k] calls for its
    sub-directories, then their replies, first to last. *)
Definition inOrder (k : nat) : list nat :=
  ([0%nat; 0%nat] ++ seq 0 k ++ repeat 0%nat k)%list.

(** The same, but for the replies of the sub-directories, which come last
    to first. *)
Definition lastFirst (k : nat) : list nat :=
  ([0%nat; 0%nat] ++ seq 0 k ++ rev (seq 0 k))%list.

(** The flag a call found when it issued its request. *)
Definition savedOf (t : WalkTask) : option string :=
  match t with
  | InFlight saved _ => saved
  | Starting _ => None
  end.

(** An enterprise source. *)
Definition enterpriseRepo : RepoSource :=
  {| owner := "octo"; repo := "skills"; label := None;
     baseUrl := Some "https://github.example.com"; folderMappings := None |}.

(** A sub-folder of the skill folder [skills/x]. *)
Definition rawSubdir (n : string) : RawFile :=
  {| raw_name := n; raw_path := "skills/x/" ++ n; raw_download_url := "";
     raw_size := 0; raw_type := "dir"; raw_sha := None |}.

(** The listing of a skill folder with two sub-folders, both empty. *)
Definition twoFolders : HttpResult :=
  HttpList [(rawSubdir "scripts", HttpList []); (rawSubdir "references", HttpList [])].

(** [m], when it returns, returns a value that satisfies [P]. *)
Definition yields {A} (P : A -> Prop) (m : M A) : Prop :=
  forall w st a st', m w st = (Ret a, st') -> P a.

(** [buildApiUrl(repo, category)] *)
Definition buildApiUrl (r : RepoSource) (category : CopilotCategory) : string :=
  if Js.truthy (baseUrl r) then
    stripTrailingSlash (Js.orElse (baseUrl r) "") ++ "/api/v3/repos/"
      ++ owner r ++ "/" ++ repo r ++ "/contents/" ++ categoryName category
  else
    "https://api.github.com/repos/" ++ owner r ++ "/" ++ repo r
      ++ "/contents/" ++ categoryName category.

(** ** More of the sources: the search bar, the mapping panel and the downloads *)

(** *** String.prototype.toLowerCase, on code units below 256 *)

(** The letters with a lower-case partner in that range are [A]-[Z] and
    [U+00C0]-[U+00DE] but for the multiplication sign [U+00D7]; the partner
    is 32 further on. *)
Definition toLowerCaseChar (c : ascii) : ascii :=
  let n := nat_of_ascii c in
  if ((65 <=? n)%nat && (n <=? 90)%nat)
     || ((192 <=? n)%nat && (n <=? 222)%nat && negb (n =? 215)%nat)
  then ascii_of_nat (n + 32)
  else c.

(** [s.toLowerCase()] *)
Fixpoint toLowerCase (s : string) : string :=
  match s with
  | EmptyString => EmptyString
  | String c r => String (toLowerCaseChar c) (toLowerCase r)
  end.

(** *** searchBar.ts *)

(** The class [SearchBar]: its state is the search term; the listeners of
    [onSearchChange] are not part of it. *)
Module SearchBar.

(** [setSearchTerm(term)]: the term afterwards. *)
Definition setSearchTerm (term : string) : string := Js.trim term.

(** [showSearchInput()] when the input box answers [result] ([None]: the
    box was dismissed): the term afterwards. *)
Definition showSearchInput (result : option string) (searchTerm : string) : string :=
  match result with
  | Some text => Js.trim text
  | None => searchTerm
  end.

(** [clearSearch()]: the term afterwards. *)
Definition clearSearch : string := EmptyString.

(** [matchesSearch(fileName)] *)
Definition matchesSearch (searchTerm fileName : string) : bool :=
  if String.eqb searchTerm "" then true
  else Js.includes (toLowerCase fileName) (toLowerCase searchTerm).

(** [filterItems(items)] *)
Definition filterItems (searchTerm : string) (items : list CopilotItem)
  : list CopilotItem :=
  if String.eqb searchTerm "" then items
  else List.filter (fun item => matchesSearch searchTerm (ci_name item)) items.

(** [getStatusMessage()] *)
Definition getStatusMessage (searchTerm : string) : string :=
  if negb (String.eqb searchTerm "") then "Filtering by: " ++ dq ++ searchTerm ++ dq
  else "".

(** [isSearchActive()] *)
Definition isSearchActive (searchTerm : string) : bool :=
  (0 <? String.length searchTerm)%nat.

End SearchBar.

(** *** folderMappingPanel.ts *)

Definition CATEGORIES : list CopilotCategory :=
  [Agents; Instructions; Plugins; Prompts; Skills].

(** The script of the panel, on "Save": what it posts for the text of one
    input box. *)
Definition inputValue (text : string) : string :=
  let val := Js.trim text in
  if String.eqb val "" then ""
  else if String.eqb (toLowerCase val) "null" then "null"
  else if String.eqb (toLowerCase val) "root" then "root"
  else val.

(** The handler of the ['save'] message, for the value posted for one
    category ([None]: no value): the slot of the mapping. *)
Definition mappingOfValue (value : option json) : MappingValue :=
  match value with
  | Some JNull => Null
  | Some (JStr s) =>
      if String.eqb s "null" then Null
      else if String.eqb s "root" then Str "root"
      else if negb (String.eqb (Js.trim s) "") then Str (Js.trim s)
      else Absent
  | _ => Absent
  end.

(** [mapping[cat] = v] *)
Definition setSlot (mapping : FolderMapping) (cat : CopilotCategory) (v : MappingValue)
  : FolderMapping :=
  fun c => if String.eqb (categoryName c) (categoryName cat) then v else mapping c.

(** The handler of the ['save'] message: the mapping the panel resolves to
    for the posted values [mappings], built from the empty object by the
    loop over [CATEGORIES]; a blank value leaves its slot undefined. *)
Definition savedMapping (mappings : CopilotCategory -> option json) : FolderMapping :=
  fold_left
    (fun mapping cat =>
       match mappingOfValue (mappings cat) with
       | Absent => mapping
       | v => setSlot mapping cat v
       end)
    CATEGORIES (fun _ => Absent).

(** [f[cat] = v], for a table with a slot for each category *)
Definition setBox {A} (f : CopilotCategory -> A) (cat : CopilotCategory) (v : A)
  : CopilotCategory -> A :=
  fun c => if String.eqb (categoryName c) (categoryName cat) then v else f c.

(** The input boxes of the panel, one for each category: the text in the
    box, and whether the box is disabled. *)
Record Inputs : Type := mkInputs {
  box_value : CopilotCategory -> string;
  box_disabled : CopilotCategory -> bool
}.

(** The page as it is loaded: the boxes have no [value] attribute and are
    enabled. *)
Definition emptyInputs : Inputs :=
  {| box_value := fun _ => ""; box_disabled := fun _ => false |}.

(** [inputs[cat].value.trim().toLowerCase() === 'root'] *)
Definition holdsRoot (inputs : Inputs) (cat : CopilotCategory) : bool :=
  String.eqb (toLowerCase (Js.trim (box_value inputs cat))) "root".

(** The first loop of [handleRootLogic]: the first category, in the order
    of [CATEGORIES], whose box holds [root]. *)
Definition rootCategory (inputs : Inputs) : option CopilotCategory :=
  List.find (holdsRoot inputs) CATEGORIES.

(** [handleRootLogic()]: once a box holds [root], every other box is
    disabled and emptied; otherwise every box is enabled. *)
Definition handleRootLogic (inputs : Inputs) : Inputs :=
  let root := rootCategory inputs in
  fold_left
    (fun boxes cat =>
       match root with
       | Some rc =>
           if negb (String.eqb (categoryName cat) (categoryName rc)) then
             {| box_value := setBox (box_value boxes) cat "";
                box_disabled := setBox (box_disabled boxes) cat true |}
           else
             {| box_value := box_value boxes;
                box_disabled := setBox (box_disabled boxes) cat false |}
       | None =>
           {| box_value := box_value boxes;
              box_disabled := setBox (box_disabled boxes) cat false |}
       end)
    CATEGORIES inputs.

(** An [input] event: the user has changed the text of the box of [cat] to
    [text] (a disabled box cannot be edited), and the listener has run. *)
Definition inputEvent (inputs : Inputs) (cat : CopilotCategory) (text : string)
  : Inputs :=
  if box_disabled inputs cat then inputs
  else handleRootLogic {| box_value := setBox (box_value inputs) cat text;
                          box_disabled := box_disabled inputs |}.

(** The boxes after the edits of [events], oldest first. *)
Definition typed (events : list (CopilotCategory * string)) : Inputs :=
  fold_left (fun inputs ev => inputEvent inputs ev.1 ev.2) events emptyInputs.

(** The click on "Save Configuration": the [mappings] of the message
    posted. *)
Definition postedMappings (inputs : Inputs) : CopilotCategory -> option json :=
  fun cat => Some (JStr (inputValue (box_value inputs cat))).

(** No box but the one of [c0] has a text, if that one holds [root]. *)
Definition rootAlone (inputs : Inputs) : Prop :=
  forall c0, holdsRoot inputs c0 = true ->
  forall c, c <> c0 -> box_value inputs c = "".

(** [s.replace(/c/g, by)] for a one-character pattern and a replacement
    without [$] *)
Fixpoint replaceAllChar (c : ascii) (by_ : string) (s : string) : string :=
  match s with
  | EmptyString => EmptyString
  | String ch r =>
      if Ascii.eqb ch c then by_ ++ replaceAllChar c by_ r
      else String ch (replaceAllChar c by_ r)
  end.

(** [escapeHtml(text)] *)
Definition escapeHtml (text : string) : string :=
  replaceAllChar "'" "&#039;"
    (replaceAllChar "034" "&quot;"
       (replaceAllChar ">" "&gt;"
          (replaceAllChar "<" "&lt;"
             (replaceAllChar "&" "&amp;" text)))).

(** *** extension.ts: its own [createHttpsAgent] *)

Module Extension.

(** [createHttpsAgent(url, allowInsecureEnterpriseCerts)]; nothing in its
    [try] throws. *)
Definition createHttpsAgent (url : string) (allowInsecureEnterpriseCerts : bool)
  : option HttpsAgent :=
  let isEnterprise := negb (Js.includes url "github.com") in
  if isEnterprise && allowInsecureEnterpriseCerts then
    Some {| rejectUnauthorized := false; checkServerIdentityOff := true |}
  else if isEnterprise then
    Some {| rejectUnauthorized := true; checkServerIdentityOff := false |}
  else None.

End Extension.

(** *** extension.ts: the other branches of [downloadCopilotItem] *)

(** [await vscode.window.showInputBox(...)]: the text entered, [None] when
    the box is dismissed. *)
Definition showInputBox : M (option string) := consult dialog.

Definition isDir (f : GitHubFile) : bool := String.eqb (type f) "dir".

Section Editor.

(** The editor: [openTextDocument] followed by [showTextDocument], and the
    command [revealInExplorer].  What they do is the editor's business; the
    properties hold for every one of them. *)
Variable showDocument : string -> M unit.
Variable revealInExplorer : string -> M unit.

(** The branch for a skill that is a directory. *)
Definition downloadSkillFolder (item : CopilotItem) (fullTargetPath : string) : M unit :=
  let! join := ask path_join in
  let! dirname := ask path_dirname in
  let! folderName := showInputBox in
  if negb (Js.truthy folderName) then ret tt
  else
    let folderName := Js.orElse folderName "" in
    let targetSkillPath := join [fullTargetPath; folderName] in
    let! present := existsSync targetSkillPath in
    let! proceed :=
      (if present then
         let! overwrite :=
           askChoice ("Skill folder " ++ folderName
                      ++ " already exists. Do you want to overwrite it?") in
         if chose overwrite "Overwrite"
         then do! rmSync targetSkillPath in ret true
         else ret false
       else ret true) in
    if negb proceed then ret tt
    else
      do! mkdirSync targetSkillPath in
      let! contents := getDirectoryContents (ci_repo item) (path (ci_file item)) in
      do! forEach contents (fun fileItem =>
            if isFile fileItem then
              let skillFolderPath :=
                if Js.endsWith (path (ci_file item)) "/" then path (ci_file item)
                else path (ci_file item) ++ "/" in
              let relativePath :=
                if Js.startsWith (path fileItem) skillFolderPath
                then Js.substringFrom (String.length skillFolderPath) (path fileItem)
                else path fileItem in
              let targetFilePath := join [targetSkillPath; relativePath] in
              do! ensureDir (dirname targetFilePath) in
              let! content := getFileContent (download_url fileItem) in
              writeFileSync targetFilePath content
            else ret tt) in
      do! recordDownload in
      do! clearCategoryCache (ci_repo item) (ci_category item) in
      let! openFolder :=
        askChoice ("Successfully downloaded skill folder " ++ folderName) in
      if chose openFolder "Open Folder" then
        let skillMdPath := join [targetSkillPath; "SKILL.md"] in
        let! hasSkillMd := existsSync skillMdPath in
        if hasSkillMd then showDocument skillMdPath
        else revealInExplorer targetSkillPath
      else ret tt.

(** The branch for a single file. *)
Definition downloadFile (item : CopilotItem) (fullTargetPath : string) : M unit :=
  let! join := ask path_join in
  let! filename := showInputBox in
  if negb (Js.truthy filename) then ret tt
  else
    let filename := Js.orElse filename "" in
    let targetFilePath := join [fullTargetPath; filename] in
    let! present := existsSync targetFilePath in
    let! proceed :=
      (if present then
         let! overwrite :=
           askChoice ("File " ++ filename
                      ++ " already exists. Do you want to overwrite it?") in
         ret (chose overwrite "Overwrite")
       else ret true) in
    if negb proceed then ret tt
    else
      do! ensureDir fullTargetPath in
      let! content := getFileContent (download_url (ci_file item)) in
      do! writeFileSync targetFilePath content in
      do! recordDownload in
      do! clearCategoryCache (ci_repo item) (ci_category item) in
      let! openFile := askChoice ("Successfully downloaded " ++ filename) in
      if chose openFile "Open File" then showDocument targetFilePath else ret tt.

(** [downloadCopilotItem(item, githubService, downloadTracker)], with
    [workspaceFolder] the first workspace folder, if any.  [downloadPlugin]
    is the plugin branch together with the [try]/[catch] of the function. *)
Definition downloadCopilotItem (workspaceFolder : option string) (item : CopilotItem)
  : M unit :=
  try_catch
    (match workspaceFolder with
     | None => showMessage "No workspace folder open"
     | Some fsPath =>
         let! join := ask path_join in
         let targetFolder := FOLDER_PATHS (ci_category item) in
         let fullTargetPath := join [fsPath; targetFolder] in
         match ci_category item, isDir (ci_file item) with
         | Plugins, true => let! _ := downloadPlugin item fsPath in ret tt
         | Skills, true => downloadSkillFolder item fullTargetPath
         | _, _ => downloadFile item fullTargetPath
         end
     end)
    (fun error =>
       showMessage ("Failed to download " ++ ci_name item ++ ": " ++ errToString error)).

End Editor.

(** *** The table of commands a README documents *)

(** The row of a README that documents the command [command] of the plugin
    [pluginName]. *)
Definition commandRow (pluginName command : string) : string :=
  "| `/" ++ pluginName ++ ":" ++ command ++ "` |".

(** A text without a backtick and without a line feed. *)
Fixpoint plainText (s : string) : bool :=
  match s with
  | EmptyString => true
  | String ch r => negb (Ascii.eqb ch "`") && negb (Ascii.eqb ch "010") && plainText r
  end.

(** A text without a line feed. *)
Fixpoint oneLine (s : string) : bool :=
  match s with
  | EmptyString => true
  | String ch r => negb (Ascii.eqb ch "010") && oneLine r
  end.

(** One pass over the text that writes every character as [escapeHtml]
    does. *)
Definition escapeChar (ch : ascii) : string :=
  if Ascii.eqb ch "&" then "&amp;"
  else if Ascii.eqb ch "<" then "&lt;"
  else if Ascii.eqb ch ">" then "&gt;"
  else if Ascii.eqb ch "034" then "&quot;"
  else if Ascii.eqb ch "'" then "&#039;"
  else String ch "".

Fixpoint escapeEach (text : string) : string :=
  match text with
  | EmptyString => EmptyString
  | String ch r => escapeChar ch ++ escapeEach r
  end.

(** The string is empty or starts with a character that is not white space. *)
Definition startsClean (s : string) : Prop :=
  match s with
  | EmptyString => True
  | String c _ => Js.isWhiteSpace c = false
  end.

(** The item is a plugin that is a directory; a skill that is a directory. *)
Definition isPluginFolder (item : CopilotItem) : bool :=
  match ci_category item with
  | Plugins => isDir (ci_file item)
  | _ => false
  end.

Definition isSkillFolder (item : CopilotItem) : bool :=
  match ci_category item with
  | Skills => isDir (ci_file item)
  | _ => false
  end.

(** Where the download of [item] under the name [name] goes, in the
    workspace folder [fsPath]. *)
Definition downloadTarget (w : World) (fsPath : string) (item : CopilotItem)
    (name : string) : string :=
  path_join w [path_join w [fsPath; FOLDER_PATHS (ci_category item)]; name].

(** The question asked before something on the disk is replaced. *)
Definition overwriteQuestion (item : CopilotItem) (name : string) : string :=
  (if isSkillFolder item then "Skill folder " else "File ")
  ++ name ++ " already exists. Do you want to overwrite it?".

(** * Properties *)

(** ** The path resolver *)

(** C3. [resolveContentPath] answers [null] for a category mapped to [null],
    the empty string for the literal ['root'], the trimmed mapping for any
    other string that is not blank, and the name of the category in every
    other case: the mapping is missing or blank, or the repository has no
    mappings at all.  Being a function of its two arguments alone, outside
    [M], it is deterministic and neither reads nor writes the cache or the
    network. *)
Theorem resolveContentPath_cases (r : RepoSource) (c : CopilotCategory) :
  (forall fm, folderMappings r = Some fm -> fm c = Null ->
     resolveContentPath r c = None) /\
  (forall fm, folderMappings r = Some fm -> fm c = Str "root" ->
     resolveContentPath r c = Some "") /\
  (forall fm s, folderMappings r = Some fm -> fm c = Str s ->
     s <> "root" -> Js.trim s <> "" ->
     resolveContentPath r c = Some (Js.trim s)) /\
  (forall fm, folderMappings r = Some fm -> fm c = Absent ->
     resolveContentPath r c = Some (categoryName c)) /\
  (forall fm s, folderMappings r = Some fm -> fm c = Str s ->
     s <> "root" -> Js.trim s = "" ->
     resolveContentPath r c = Some (categoryName c)) /\
  (folderMappings r = None -> resolveContentPath r c = Some (categoryName c)).
Proof.
  unfold resolveContentPath.
  repeat split.
  - intros fm -> ->. reflexivity.
  - intros fm -> ->. reflexivity.
  - intros fm s -> -> Hroot Hblank.
    destruct (String.eqb_spec s "root") as [|_]; [contradiction|].
    destruct (String.eqb_spec (Js.trim s) "") as [|_]; [contradiction|].
    reflexivity.
  - intros fm -> ->. reflexivity.
  - intros fm s -> -> Hroot Hblank.
    destruct (String.eqb_spec s "root") as [|_]; [contradiction|].
    rewrite Hblank. reflexivity.
  - intros ->. reflexivity.
Qed.

Lemma resolveContentPath_cases_witness :
  resolveContentPath mappedRepo Plugins = None /\
  resolveContentPath mappedRepo Skills = Some "" /\
  resolveContentPath mappedRepo Agents = Some "copilot/agents" /\
  resolveContentPath mappedRepo Instructions = Some "instructions" /\
  resolveContentPath mappedRepo Prompts = Some "prompts".
Proof.
  split; [|split; [|split; [|split]]].
  - destruct (resolveContentPath_cases mappedRepo Plugins) as (H & _).
    apply (H _ eq_refl eq_refl).
  - destruct (resolveContentPath_cases mappedRepo Skills) as (_ & H & _).
    apply (H _ eq_refl eq_refl).
  - destruct (resolveContentPath_cases mappedRepo Agents) as (_ & _ & H & _).
    apply (H _ _ eq_refl eq_refl); vm_compute; discriminate.
  - destruct (resolveContentPath_cases mappedRepo Instructions) as (_ & _ & _ & H & _).
    apply (H _ eq_refl eq_refl).
  - destruct (resolveContentPath_cases mappedRepo Prompts) as (_ & _ & _ & _ & H & _).
    apply (H _ _ eq_refl eq_refl); [vm_compute; discriminate | reflexivity].
Defined.

(** ** The manifest parser *)

Lemma notNonBlankString_false (v : option json) :
  notNonBlankString v = false <-> exists s, v = Some (JStr s) /\ Js.trim s <> "".
Proof.
  unfold notNonBlankString. split.
  - destruct v as [[| | |s| |]|]; try discriminate.
    intros H. exists s. split; [reflexivity|].
    intros E. rewrite E in H. discriminate.
  - intros (s & -> & Hs).
    destruct (String.eqb_spec (Js.trim s) ""); [contradiction|reflexivity].
Qed.

Lemma namedManifest_object (meta : json) :
  namedManifest meta -> exists fields, meta = JObj fields.
Proof.
  intros [H _]. apply notNonBlankString_false in H as (s & H & _).
  destruct meta; try discriminate. eauto.
Qed.

Lemma isAllowedKind_In (k : string) : isAllowedKind k = true <-> In k allowedKinds.
Proof.
  unfold isAllowedKind. rewrite existsb_exists. split.
  - intros (x & Hx & E). apply String.eqb_eq in E. subst. exact Hx.
  - intros H. exists k. split; [exact H|apply String.eqb_refl].
Qed.

Lemma allowedKind_not_blank (k : string) : In k allowedKinds -> Js.trim k <> "".
Proof.
  intros [<-|[<-|[<-|[<-|[]]]]]; vm_compute; discriminate.
Qed.

Lemma checkItem_None (index : nat) (item : json) :
  checkItem index item = None <-> validItem item.
Proof.
  unfold checkItem, validItem. split.
  - destruct (falsy item || negb (typeofObject item)) eqn:Hobj; [discriminate|].
    destruct (notNonBlankString (getProp item "path")) eqn:Hp; [discriminate|].
    destruct (notNonBlankString (getProp item "kind")) eqn:Hk; [discriminate|].
    apply notNonBlankString_false in Hp as (p & Hp & Hp').
    apply notNonBlankString_false in Hk as (k & Hk & Hk').
    rewrite Hk. destruct (isAllowedKind k) eqn:Ha; [|discriminate].
    intros _. destruct item; try discriminate.
    exists fields, p, k. rewrite isAllowedKind_In in Ha. auto.
  - intros (fields & p & k & -> & Hp & Hp' & Hk & Ha).
    cbn [falsy typeofObject orb negb].
    assert (Hk' := allowedKind_not_blank k Ha).
    rewrite (proj2 (notNonBlankString_false _)) by eauto.
    rewrite (proj2 (notNonBlankString_false _)) by eauto.
    rewrite Hk. rewrite (proj2 (isAllowedKind_In k) Ha). reflexivity.
Qed.

Lemma checkItems_None (index : nat) (items : list json) :
  checkItems index items = None <-> Forall validItem items.
Proof.
  revert index. induction items as [|item rest IH]; intros index; cbn [checkItems].
  - split; auto.
  - destruct (checkItem index item) eqn:E.
    + split; [discriminate|].
      intros H. inversion H as [|? ? Hi _]; subst.
      apply (checkItem_None index) in Hi. congruence.
    + rewrite IH. apply checkItem_None in E. split.
      * intros H. constructor; assumption.
      * intros H. inversion H; assumption.
Qed.

(** What the parser accepts, exactly: a named manifest with an [items] array
    of valid entries.  Nothing else gets through. *)
Lemma validateMetadata_accepts (meta : json) (dir : string) (result : json) :
  validateMetadata (Some meta) dir = Ret result <->
  namedManifest meta /\
  (exists items, getProp meta "items" = Some (JArr items) /\ Forall validItem items) /\
  result = withId meta dir.
Proof.
  unfold validateMetadata, namedManifest, withId. split.
  - destruct (falsy meta || negb (typeofObject meta)); [discriminate|].
    destruct (notNonBlankString (getProp meta "name")); [discriminate|].
    destruct (notNonBlankString (getProp meta "description")); [discriminate|].
    destruct (getProp meta "items") as [[| | | |items|]|]; try discriminate.
    destruct (checkItems 0 items) eqn:E; [discriminate|].
    apply checkItems_None in E. intros H.
    split; [auto|]. split; [eauto|].
    destruct (getProp meta "id") as [[| | |id| |]|]; try congruence.
    destruct (String.eqb id ""); congruence.
  - intros ([Hn Hd] & (items & Hi & Hv) & ->).
    destruct (namedManifest_object meta (conj Hn Hd)) as (fields & ->).
    cbn [falsy typeofObject orb negb]. rewrite Hn, Hd, Hi.
    rewrite (proj2 (checkItems_None 0 items) Hv).
    destruct (getProp (JObj fields) "id") as [[| | |id| |]|]; try reflexivity.
    destruct (String.eqb id ""); reflexivity.
Qed.

(** A named manifest without an [items] array is rejected, with the error
    that names ["items"]. *)
Lemma validateMetadata_without_items (meta : json) (dir : string) :
  namedManifest meta ->
  (forall items, getProp meta "items" <> Some (JArr items)) ->
  validateMetadata (Some meta) dir = Throw itemsError /\
  Js.includes (err_message itemsError) "items" = true.
Proof.
  intros Hnamed Hno. split; [|reflexivity].
  destruct (namedManifest_object meta Hnamed) as (fields & ->).
  destruct Hnamed as [Hn Hd].
  unfold validateMetadata. cbn [falsy typeofObject orb negb]. rewrite Hn, Hd.
  destruct (getProp (JObj fields) "items") as [[| | | |items|]|]; try reflexivity.
  exfalso. apply (Hno items). reflexivity.
Qed.

(** [setProp] on ["id"] leaves the items alone. *)
Lemma assoc_setField_other (key other : string) (v : json) (fields : list (string * json)) :
  other <> key -> assoc other (setField key v fields) = assoc other fields.
Proof.
  intros Hne. induction fields as [|[k old] rest IH]; cbn [setField assoc].
  - destruct (String.eqb_spec key other); [congruence|reflexivity].
  - destruct (String.eqb_spec k key) as [->|Hk]; cbn [assoc].
    + destruct (String.eqb_spec key other); [congruence|reflexivity].
    + rewrite IH. reflexivity.
Qed.

Lemma itemsOf_withId (meta : json) (dir : string) :
  itemsOf (withId meta dir) = itemsOf meta.
Proof.
  assert (H : forall v, itemsOf (setProp meta "id" v) = itemsOf meta).
  { intros v. destruct meta; try reflexivity.
    unfold itemsOf, setProp, getProp.
    rewrite assoc_setField_other by discriminate. reflexivity. }
  unfold withId.
  destruct (getProp meta "id") as [[| | |id| |]|]; try apply H.
  destruct (String.eqb id ""); [apply H|reflexivity].
Qed.

(** [parsePluginJson] is the validation applied to the fetched text. *)
Lemma parsePluginJson_run (w : World) (st st' : State) (r : RepoSource)
    (dir : string) (fileData : FileData) :
  getFileContentByPath r (dir ++ "/" ++ PLUGIN_JSON_RELATIVE_PATH) w st
    = (Ret fileData, st') ->
  parsePluginJson r dir w st =
    (match validateMetadata (parseContent (JSON_parse w) (fd_content fileData)) dir with
     | Ret meta => Ret {| metadata := meta; rawContent := fd_content fileData |}
     | Throw e => Throw (Error ("Failed to parse plugin.json: " ++ err_message e))
     end, st').
Proof.
  intros Hfetch. unfold parsePluginJson, try_catch, bind. rewrite Hfetch.
  unfold ask.
  destruct (validateMetadata _ dir); reflexivity.
Qed.

Lemma shorthandManifest_fetch :
  getFileContentByPath defaultRepo ("plugins/foo" ++ "/" ++ PLUGIN_JSON_RELATIVE_PATH)
    (constantWorld false manifestReply shorthandManifest) initialState
  = (Ret {| fd_content := DText "manifest"; fd_download_url := None;
            fd_sha := Some "abc123"; fd_size := 8 |},
     (getFileContentByPath defaultRepo ("plugins/foo" ++ "/" ++ PLUGIN_JSON_RELATIVE_PATH)
        (constantWorld false manifestReply shorthandManifest) initialState).2).
Proof. vm_compute. reflexivity. Qed.

(** C1 (the code departs from it).  A manifest with a name, a description
    and shorthand [agents]/[skills] arrays but no [items] array is not
    accepted: [parsePluginJson] throws the error that names ["items"], the
    same it throws for a manifest with neither.  (The parts of the claim
    about legacy manifests hold: see [validateMetadata_accepts],
    [validateMetadata_without_items] and [parsePluginJson_legacy_examples].) *)
Theorem parsePluginJson_rejects_shorthand (w : World) (st st' : State)
    (r : RepoSource) (dir : string) (fileData : FileData) (meta : json) :
  getFileContentByPath r (dir ++ "/" ++ PLUGIN_JSON_RELATIVE_PATH) w st
    = (Ret fileData, st') ->
  parseContent (JSON_parse w) (fd_content fileData) = Some meta ->
  namedManifest meta ->
  hasShorthand meta ->
  getProp meta "items" = None ->
  parsePluginJson r dir w st =
    (Throw (Error ("Failed to parse plugin.json: " ++ err_message itemsError)), st').
Proof.
  intros Hfetch Hparse Hnamed _ Hitems.
  rewrite (parsePluginJson_run _ _ _ _ _ _ Hfetch), Hparse.
  destruct (validateMetadata_without_items meta dir Hnamed) as [-> _].
  - intros items. rewrite Hitems. discriminate.
  - reflexivity.
Qed.

Lemma parsePluginJson_rejects_shorthand_witness :
  (parsePluginJson defaultRepo "plugins/foo"
     (constantWorld false manifestReply shorthandManifest) initialState).1
  = Throw (Error ("Failed to parse plugin.json: Invalid plugin.json format: "
                  ++ "missing or invalid " ++ dq ++ "items" ++ dq ++ " array")).
Proof.
  rewrite (parsePluginJson_rejects_shorthand _ _ _ _ _ _ shorthandManifest
             shorthandManifest_fetch).
  - reflexivity.
  - reflexivity.
  - split; reflexivity.
  - right. exists [JStr "./skills/bar/"]. reflexivity.
  - reflexivity.
Defined.

(** The legacy half of C1 on the manifests of the test suite: a manifest
    with one valid item of every kind is accepted with its four items,
    [{name, description, items: []}] is accepted with none, and
    [{name, description}] is rejected with the error naming ["items"]. *)
Lemma parsePluginJson_legacy_examples :
  (exists result,
     validateMetadata (Some legacyManifest) "plugins/multi-kind" = Ret result /\
     map item_kind (itemsOf result) = ["instruction"; "prompt"; "agent"; "skill"] /\
     getProp result "id" = Some (JStr "multi-kind")) /\
  (exists result,
     validateMetadata (Some emptyManifest) "plugins/test-plugin" = Ret result /\
     itemsOf result = [] /\
     getProp result "id" = Some (JStr "test-plugin")) /\
  validateMetadata (Some bareManifest) "plugins/test-plugin" = Throw itemsError.
Proof.
  repeat split; try (eexists; repeat split); vm_compute; reflexivity.
Qed.

(** C2 (the code departs from it).  The parser never turns a shorthand entry
    into an item: the items of an accepted manifest are those of its own
    [items] array, whatever [agents] and [skills] hold.  For the manifest of
    the spec's example, at [plugins/foo] with [skills: ["./skills/bar/"]],
    parsing fails with the error naming ["items"] instead of yielding the
    item [{kind: "skill", path: "plugins/foo/skills/bar"}]; with an empty
    [items] array next to [skills] the manifest is accepted and has no item
    at all. *)
Theorem parsePluginJson_never_expands_shorthand :
  (forall meta dir result,
     validateMetadata (Some meta) dir = Ret result -> itemsOf result = itemsOf meta) /\
  (parsePluginJson defaultRepo "plugins/foo"
     (constantWorld false manifestReply shorthandManifest) initialState).1
  = Throw (Error ("Failed to parse plugin.json: " ++ err_message itemsError)) /\
  (exists result,
     (parsePluginJson defaultRepo "plugins/foo"
        (constantWorld false manifestReply mixedManifest) initialState).1 = Ret result /\
     itemsOf (metadata result) = []).
Proof.
  split; [|split].
  - intros meta dir result H. apply validateMetadata_accepts in H as (_ & _ & ->).
    apply itemsOf_withId.
  - vm_compute. reflexivity.
  - eexists. split; vm_compute; reflexivity.
Qed.

Lemma parsePluginJson_never_expands_shorthand_witness :
  itemsOf (withId mixedManifest "plugins/foo") = itemsOf mixedManifest.
Proof.
  destruct parsePluginJson_never_expands_shorthand as (H & _).
  apply (H mixedManifest "plugins/foo"). vm_compute. reflexivity.
Defined.

(** ** Computations that only consult the world *)

Lemma set_tick_tick st : set_tick (tick st) st = st.
Proof. destruct st; reflexivity. Qed.

Lemma set_tick_set_tick n m st : set_tick n (set_tick m st) = set_tick n st.
Proof. reflexivity. Qed.

Lemma quiet_ticking {A} (m : M A) : quiet m -> ticking m.
Proof. intros H w st. destruct (H w st) as (a & n & E). eauto. Qed.

Lemma ticking_ret {A} (a : A) : ticking (ret a).
Proof. intros w st. exists (Ret a), (tick st). unfold ret. by rewrite set_tick_tick. Qed.

Lemma ticking_throw {A} e : ticking (@throw A e).
Proof. intros w st. exists (Throw e), (tick st). unfold throw. by rewrite set_tick_tick. Qed.

Lemma ticking_ask {A} (f : World -> A) : ticking (ask f).
Proof. intros w st. exists (Ret (f w)), (tick st). unfold ask. by rewrite set_tick_tick. Qed.

Lemma ticking_consult {A} (f : World -> nat -> A) : ticking (consult f).
Proof. intros w st. unfold consult. eauto. Qed.

Lemma ticking_bind {A B} (m : M A) (k : A -> M B) :
  ticking m -> (forall a, ticking (k a)) -> ticking (bind m k).
Proof.
  intros Hm Hk w st. unfold bind.
  destruct (Hm w st) as ([a|e] & n & ->).
  - destruct (Hk a w (set_tick n st)) as (o & n' & ->). eauto.
  - eauto.
Qed.

Lemma ticking_try_catch {A} (m : M A) h :
  ticking m -> (forall e, ticking (h e)) -> ticking (try_catch m h).
Proof.
  intros Hm Hh w st. unfold try_catch.
  destruct (Hm w st) as ([a|e] & n & ->).
  - eauto.
  - destruct (Hh e w (set_tick n st)) as (o & n' & ->). eauto.
Qed.

Lemma quiet_ret {A} (a : A) : quiet (ret a).
Proof. intros w st. exists a, (tick st). unfold ret. by rewrite set_tick_tick. Qed.

Lemma quiet_ask {A} (f : World -> A) : quiet (ask f).
Proof. intros w st. exists (f w), (tick st). unfold ask. by rewrite set_tick_tick. Qed.

Lemma quiet_consult {A} (f : World -> nat -> A) : quiet (consult f).
Proof. intros w st. unfold consult. eauto. Qed.

Lemma quiet_bind {A B} (m : M A) (k : A -> M B) :
  quiet m -> (forall a, quiet (k a)) -> quiet (bind m k).
Proof.
  intros Hm Hk w st. unfold bind.
  destruct (Hm w st) as (a & n & ->).
  destruct (Hk a w (set_tick n st)) as (b & n' & ->). eauto.
Qed.

Lemma quiet_try_catch {A} (m : M A) h :
  ticking m -> (forall e, quiet (h e)) -> quiet (try_catch m h).
Proof.
  intros Hm Hh w st. unfold try_catch.
  destruct (Hm w st) as ([a|e] & n & ->).
  - eauto.
  - destruct (Hh e w (set_tick n st)) as (o & n' & ->). eauto.
Qed.

Ltac step_ticking :=
  match goal with
  | |- ticking (bind _ _) => apply ticking_bind; [|intros ?]
  | |- ticking (try_catch _ _) => apply ticking_try_catch; [|intros ?]
  | |- ticking (ret _) => apply ticking_ret
  | |- ticking (throw _) => apply ticking_throw
  | |- ticking (ask _) => apply ticking_ask
  | |- ticking (consult _) => apply ticking_consult
  | |- ticking (if ?b then _ else _) => destruct b
  | |- ticking (match ?x with _ => _ end) => destruct x
  | |- quiet (bind _ _) => apply quiet_bind; [|intros ?]
  | |- quiet (try_catch _ _) => apply quiet_try_catch; [|intros ?]
  | |- quiet (ret _) => apply quiet_ret
  | |- quiet (ask _) => apply quiet_ask
  | |- quiet (consult _) => apply quiet_consult
  | |- quiet (if ?b then _ else _) => destruct b
  | |- quiet (match ?x with _ => _ end) => destruct x
  end.

Lemma getSession_ticking : ticking getSession.
Proof. unfold getSession. repeat step_ticking. Qed.

Lemma showChoice_quiet : quiet showChoice.
Proof. apply quiet_consult. Qed.

Lemma ensureGitHubAuth_quiet b : quiet (ensureGitHubAuth b).
Proof.
  unfold ensureGitHubAuth, showChoice.
  repeat first [apply getSession_ticking | step_ticking].
Qed.

Lemma checkAuthentication_quiet : quiet checkAuthentication.
Proof.
  unfold checkAuthentication.
  repeat first [apply getSession_ticking | step_ticking].
Qed.

Lemma handleAuthError_quiet e b : quiet (handleAuthError e b).
Proof.
  unfold handleAuthError, showChoice.
  repeat first [apply ensureGitHubAuth_quiet | step_ticking].
Qed.

Lemma createHttpsAgent_quiet url : quiet (createHttpsAgent url).
Proof. unfold createHttpsAgent. repeat step_ticking. Qed.

Lemma createRequestHeaders_quiet b : quiet (createRequestHeaders b).
Proof.
  unfold createRequestHeaders.
  repeat first [apply getSession_ticking | step_ticking].
Qed.

Lemma proactiveAuth_quiet : quiet proactiveAuth.
Proof.
  unfold proactiveAuth.
  repeat first [apply checkAuthentication_quiet | apply ensureGitHubAuth_quiet | step_ticking].
Qed.

(** ** Requests *)

Lemma createHttpsAgent_run url w st :
  createHttpsAgent url w st = (Ret (agentFor w true url), st).
Proof.
  unfold createHttpsAgent, agentFor, bind, ask, ret. cbn.
  destruct (Js.includes url "github.com"), (allowInsecureEnterpriseCerts w); reflexivity.
Qed.

Lemma agent_run (b : bool) url w st :
  (if b then createHttpsAgent url else ret None) w st = (Ret (agentFor w b url), st).
Proof. destruct b; [apply createHttpsAgent_run|reflexivity]. Qed.

Lemma settle_run reply w st : settle reply w st = (outcomeOf reply, st).
Proof. destruct reply; reflexivity. Qed.

Lemma tlsGet_reply_run (b : bool) reply url cfg w st :
  withTlsOverride b (axios_get_reply reply url cfg) w st =
  (outcomeOf reply,
   log_request {| rq_url := url; rq_config := cfg;
                  rq_env := if b then Some "0" else env_tls st;
                  rq_result := reply |} st).
Proof.
  destruct st as [h c e rs fc ms tk].
  unfold withTlsOverride, axios_get_reply, try_finally, bind, get, modify.
  destruct b; cbn; rewrite settle_run; cbn.
  - destruct e; reflexivity.
  - reflexivity.
Qed.

Lemma tlsGet_run (b : bool) url cfg w st :
  withTlsOverride b (axios_get url cfg) w st =
  (outcomeOf (http w (tick st)),
   log_request {| rq_url := url; rq_config := cfg;
                  rq_env := if b then Some "0" else env_tls st;
                  rq_result := http w (tick st) |} (set_tick (S (tick st)) st)).
Proof.
  destruct st as [h c e rs fc ms tk].
  unfold withTlsOverride, axios_get, axios_get_reply, try_finally, bind, get, modify, consult.
  destruct b; cbn; rewrite settle_run; cbn.
  - destruct e; reflexivity.
  - reflexivity.
Qed.

Lemma handleAuthError_true e b w st st' :
  handleAuthError e b w st = (Ret true, st') -> authFailure e = true.
Proof.
  unfold handleAuthError, authFailure.
  destruct (statusIs e 401 || statusIs e 403); [reflexivity|].
  unfold ret. congruence.
Qed.

Lemma handleAuthError_other e b w st :
  authFailure e = false -> handleAuthError e b w st = (Ret false, st).
Proof.
  unfold handleAuthError, authFailure. intros ->. reflexivity.
Qed.

Lemma fetchListing_run r c p now w st :
  let url := buildApiUrlForPath r p in
  let ent := Js.truthy (baseUrl r) in
  exists n hdrs reply,
    (fetchListing r c p now w st =
       afterListing r c now reply
         (log_request (requestFor w st ent url hdrs reply) (set_tick n st)))
    \/
    (exists hdrs1 e1,
       authFailure e1 = true /\
       fetchListing r c p now w st =
         afterListing r c now reply
           (log_request (requestFor w st ent url hdrs reply)
              (log_request (requestFor w st ent url hdrs1 (HttpFail e1))
                 (set_tick n st)))).
Proof.
  intros url ent.
  destruct (fetchListing r c p now w st) as [out st'] eqn:E.
  unfold fetchListing in E. fold url in E. fold ent in E.
  unfold bind at 1 in E.
  destruct (createRequestHeaders_quiet ent w st) as (hdrs & n0 & Hh0).
  rewrite Hh0 in E. clear Hh0.
  unfold bind at 1 in E. rewrite agent_run in E.
  unfold bind at 1 in E. unfold ask at 1 in E.
  unfold bind at 1 in E. unfold try_catch at 1 in E.
  rewrite tlsGet_run in E.
  cbn [tick set_tick env_tls] in E.
  destruct (http w n0) as [e|entries|f|s] eqn:Hreply; cbn [outcomeOf] in E.
  2: exists (S n0), hdrs, (HttpList entries); left; rewrite <- E; reflexivity.
  2: exists (S n0), hdrs, (HttpFile f); left; rewrite <- E; reflexivity.
  2: exists (S n0), hdrs, (HttpText s); left; rewrite <- E; reflexivity.
  (* the first request fails *)
  unfold bind at 1 in E.
  match type of E with context [handleAuthError e ent w ?s] =>
    destruct (handleAuthError_quiet e ent w s) as (retried & n1 & Hh) end.
  rewrite Hh in E.
  destruct retried.
  - apply handleAuthError_true in Hh.
    unfold bind at 1 in E.
    match type of E with context [createRequestHeaders ent w ?s] =>
      destruct (createRequestHeaders_quiet ent w s) as (hdrs2 & n2 & Hh2) end.
    rewrite Hh2 in E. clear Hh2.
    rewrite tlsGet_run in E.
    cbn [tick set_tick env_tls log_request] in E.
    exists (S n2), hdrs2, (http w n2). right. exists hdrs, e. split; [exact Hh|].
    rewrite <- E. destruct (http w n2); reflexivity.
  - exists n1, hdrs, (HttpFail e). left. rewrite <- E. reflexivity.
Qed.

Lemma handleAuthError_signin e b w st st' :
  handleAuthError e b w st = (Ret true, st') ->
  authFailure e = true /\ enableGithubAuth w = true /\
  chose (dialog w (tick st)) "Sign In" = true.
Proof.
  unfold handleAuthError, authFailure.
  destruct (statusIs e 401 || statusIs e 403); [|unfold ret; congruence].
  unfold bind at 1, ask at 1.
  destruct (enableGithubAuth w); cbn [negb]; [|unfold ret; congruence].
  assert (Hprompt :
            (let! authChoice := showChoice in
             if chose authChoice "Sign In" then ensureGitHubAuth b else ret false)
              w st = (Ret true, st') ->
            chose (dialog w (tick st)) "Sign In" = true).
  { unfold bind, showChoice, consult.
    destruct (chose (dialog w (tick st)) "Sign In"); [reflexivity|].
    unfold ret. congruence. }
  destruct (chose _ "0").
  - destruct (Js.truthy _); [auto|unfold ret; congruence].
  - auto.
Qed.

Lemma fetchListing_retry r c p now w st :
  let url := buildApiUrlForPath r p in
  let ent := Js.truthy (baseUrl r) in
  exists n hdrs reply,
    (fetchListing r c p now w st =
       afterListing r c now reply
         (log_request (requestFor w st ent url hdrs reply) (set_tick n st)))
    \/
    (exists hdrs1 e1 n1,
       authFailure e1 = true /\ enableGithubAuth w = true /\
       http w n1 = HttpFail e1 /\ chose (dialog w (S n1)) "Sign In" = true /\
       fetchListing r c p now w st =
         afterListing r c now reply
           (log_request (requestFor w st ent url hdrs reply)
              (log_request (requestFor w st ent url hdrs1 (HttpFail e1))
                 (set_tick n st)))).
Proof.
  intros url ent.
  destruct (fetchListing r c p now w st) as [out st'] eqn:E.
  unfold fetchListing in E. fold url in E. fold ent in E.
  unfold bind at 1 in E.
  destruct (createRequestHeaders_quiet ent w st) as (hdrs & n0 & Hh0).
  rewrite Hh0 in E. clear Hh0.
  unfold bind at 1 in E. rewrite agent_run in E.
  unfold bind at 1 in E. unfold ask at 1 in E.
  unfold bind at 1 in E. unfold try_catch at 1 in E.
  rewrite tlsGet_run in E.
  cbn [tick set_tick env_tls] in E.
  destruct (http w n0) as [e|entries|f|s] eqn:Hreply; cbn [outcomeOf] in E.
  2: exists (S n0), hdrs, (HttpList entries); left; rewrite <- E; reflexivity.
  2: exists (S n0), hdrs, (HttpFile f); left; rewrite <- E; reflexivity.
  2: exists (S n0), hdrs, (HttpText s); left; rewrite <- E; reflexivity.
  unfold bind at 1 in E.
  match type of E with context [handleAuthError e ent w ?s] =>
    destruct (handleAuthError_quiet e ent w s) as (retried & n1 & Hh) end.
  rewrite Hh in E.
  destruct retried.
  - apply handleAuthError_signin in Hh as (Ha & Hauth & Hchoice).
    cbn [log_request tick set_tick] in Hchoice.
    unfold bind at 1 in E.
    match type of E with context [createRequestHeaders ent w ?s] =>
      destruct (createRequestHeaders_quiet ent w s) as (hdrs2 & n2 & Hh2) end.
    rewrite Hh2 in E. clear Hh2.
    rewrite tlsGet_run in E.
    cbn [tick set_tick env_tls log_request] in E.
    exists (S n2), hdrs2, (http w n2). right. exists hdrs, e, n0.
    split; [exact Ha|]. split; [exact Hauth|]. split; [exact Hreply|].
    split; [exact Hchoice|].
    rewrite <- E. destruct (http w n2); reflexivity.
  - exists n1, hdrs, (HttpFail e). left. rewrite <- E. reflexivity.
Qed.

(** ** Listings and file retrieval *)

Lemma getFilesByRepo_excluded r c force w st :
  resolveContentPath r c = None ->
  getFilesByRepo r c force w st = (Ret [], st).
Proof. intros H. unfold getFilesByRepo. rewrite H. reflexivity. Qed.

Lemma getFilesByRepo_hit r c force w st p entry :
  resolveContentPath r c = Some p ->
  cacheHit force (clock w (tick st)) (cache st !! cacheKey r c) = Some entry ->
  getFilesByRepo r c force w st = (Ret (data entry), set_tick (S (tick st)) st).
Proof.
  intros Hp Hhit. unfold getFilesByRepo. rewrite Hp.
  unfold bind, consult, get. cbn [tick set_tick cache]. rewrite Hhit. reflexivity.
Qed.

Lemma getFilesByRepo_miss r c force w st p :
  resolveContentPath r c = Some p ->
  cacheHit force (clock w (tick st)) (cache st !! cacheKey r c) = None ->
  exists n,
    getFilesByRepo r c force w st =
      ((notFoundIsEmpty r c (fetchListing r c p (clock w (tick st)) w (set_tick n st)).1),
       (fetchListing r c p (clock w (tick st)) w (set_tick n st)).2).
Proof.
  intros Hp Hmiss. unfold getFilesByRepo. rewrite Hp.
  unfold bind at 1. unfold consult at 1.
  unfold bind at 1. unfold get at 1. cbn [tick set_tick cache]. rewrite Hmiss.
  unfold bind at 1. unfold ask at 1.
  unfold bind at 1.
  assert (Hq : quiet (if enableGithubAuth w && negb (Js.truthy (baseUrl r))
                      then proactiveAuth else ret tt)).
  { destruct (_ && _); [apply proactiveAuth_quiet|apply quiet_ret]. }
  destruct (Hq w (set_tick (S (tick st)) st)) as ([] & n & ->).
  cbn [set_tick]. exists n. unfold try_catch.
  change (set_tick n (set_tick (S (tick st)) st)) with (set_tick n st).
  destruct (fetchListing r c p (clock w (tick st)) w (set_tick n st)) as [[files|e] st'];
    cbn [notFoundIsEmpty fst snd].
  - reflexivity.
  - destruct (statusIs e 404); reflexivity.
Qed.

Lemma requests_log_requests rs st :
  requests (log_requests rs st) = (requests st ++ rs)%list.
Proof.
  revert st. induction rs as [|rq rs IH]; intros st; cbn.
  - by rewrite app_nil_r.
  - rewrite IH. cbn. by rewrite <- app_assoc.
Qed.

Lemma env_tls_log_requests rs st : env_tls (log_requests rs st) = env_tls st.
Proof. revert st. induction rs as [|rq rs IH]; intros st; cbn; [done|]. by rewrite IH. Qed.

Lemma heap_log_requests rs st : heap (log_requests rs st) = heap st.
Proof. revert st. induction rs as [|rq rs IH]; intros st; cbn; [done|]. by rewrite IH. Qed.

Lemma cache_log_requests rs st : cache (log_requests rs st) = cache st.
Proof. revert st. induction rs as [|rq rs IH]; intros st; cbn; [done|]. by rewrite IH. Qed.

Lemma fetchListing_requests r c p now w st :
  let url := buildApiUrlForPath r p in
  exists n hdrs reply prefix,
    retryPrefix w st r url prefix /\
    fetchListing r c p now w st =
      afterListing r c now reply
        (log_request (requestFor w st (Js.truthy (baseUrl r)) url hdrs reply)
           (log_requests prefix (set_tick n st))).
Proof.
  intros url.
  destruct (fetchListing_run r c p now w st) as (n & hdrs & reply & [E|(hdrs1 & e1 & Ha & E)]).
  - exists n, hdrs, reply, []. split; [by left|exact E].
  - exists n, hdrs, reply, [requestFor w st (Js.truthy (baseUrl r)) url hdrs1 (HttpFail e1)].
    split; [right; eauto|exact E].
Qed.

Lemma afterListing_requests r c now reply st1 :
  requests (afterListing r c now reply st1).2 = requests st1.
Proof. destruct reply; reflexivity. Qed.

Lemma afterListing_env r c now reply st1 :
  env_tls (afterListing r c now reply st1).2 = env_tls st1.
Proof. destruct reply; reflexivity. Qed.

Lemma statusIs_code e code : statusCode e = Some code -> statusIs e code = true.
Proof. unfold statusIs. intros ->. apply Z.eqb_refl. Qed.

Lemma getFileContent_run url w st :
  let ent := negb (Js.includes url "github.com") in
  exists n hdrs,
    let reply := http w n in
    getFileContent url w st =
      (match reply with
       | HttpFail e => Throw (contentError e)
       | _ => outcomeOf reply
       end,
       log_request (requestFor w st ent url hdrs reply) (set_tick (S n) st)).
Proof.
  intros ent. unfold getFileContent. fold ent.
  unfold try_catch. unfold bind at 1.
  destruct (createRequestHeaders_quiet ent w st) as (hdrs & n0 & ->).
  unfold bind at 1. rewrite agent_run.
  unfold bind at 1. unfold ask at 1.
  rewrite tlsGet_run. cbn [tick set_tick env_tls].
  exists n0, hdrs. cbn zeta.
  destruct (http w n0); reflexivity.
Qed.

Lemma getFileContentByPath_run r filePath w st :
  let url := buildApiUrlForPath r filePath in
  let ent := Js.truthy (baseUrl r) in
  exists n hdrs,
    let reply := http w n in
    let st1 := log_request (requestFor w st ent url hdrs reply) (set_tick (S n) st) in
    getFileContentByPath r filePath w st =
      match reply with
      | HttpFail e => (Throw (pathError filePath e), st1)
      | HttpFile d =>
          if String.eqb (rc_type d) "file" && Js.truthy (rc_content d) then
            (Ret {| fd_content :=
                      DText (Buffer_decode w (Js.orElse (rc_content d) "")
                                           (Js.orElse (rc_encoding d) "base64"));
                    fd_download_url := rc_download_url d;
                    fd_sha := rc_sha d; fd_size := rc_size d |}, st1)
          else if String.eqb (rc_type d) "file" && Js.truthy (rc_download_url d) then
            match getFileContent (Js.orElse (rc_download_url d) "") w st1 with
            | (Ret content, st2) =>
                (Ret {| fd_content := content; fd_download_url := rc_download_url d;
                        fd_sha := rc_sha d; fd_size := rc_size d |}, st2)
            | (Throw e, st2) => (Throw (pathError filePath e), st2)
            end
          else (Throw (pathError filePath (notAFileError filePath)), st1)
      | _ => (Throw (pathError filePath (notAFileError filePath)), st1)
      end.
Proof.
  intros url ent. unfold getFileContentByPath. fold url. fold ent.
  unfold try_catch. unfold bind at 1.
  destruct (createRequestHeaders_quiet ent w st) as (hdrs & n0 & ->).
  unfold bind at 1. rewrite agent_run.
  unfold bind at 1. unfold ask at 1.
  unfold bind at 1.
  rewrite tlsGet_run. cbn [tick set_tick env_tls].
  exists n0, hdrs. cbn zeta.
  destruct (http w n0) as [e|entries|d|s]; cbn [outcomeOf]; try reflexivity.
  destruct (String.eqb (rc_type d) "file" && Js.truthy (rc_content d)); [reflexivity|].
  destruct (String.eqb (rc_type d) "file" && Js.truthy (rc_download_url d)); [|reflexivity].
  unfold bind, requestFor. rewrite !set_tick_set_tick.
  match goal with |- context [getFileContent ?u w ?s] =>
    destruct (getFileContent u w s) as [[content|e] st2] end; reflexivity.
Qed.

(** ** Not found *)

Lemma last_log_request rq st : last (requests (log_request rq st)) = Some rq.
Proof. cbn. apply last_snoc. Qed.

Lemma length_log_request rq st :
  length (requests (log_request rq st)) = S (length (requests st)).
Proof. cbn. rewrite length_app. cbn. lia. Qed.

(** C4.  A 404 means two different things.  When the request of a category
    listing ([getFilesByRepo]) fails with status 404, be it the first
    request or the one repeated after a sign-in, the listing returns the
    empty array and throws nothing.  When the request of a fetch by exact
    path ([getFileContentByPath]) fails with status 404, or the download it
    falls back on does, the fetch throws. *)
Theorem not_found_contracts :
  (forall w st r c force out st' rq e,
     getFilesByRepo r c force w st = (out, st') ->
     (length (requests st) < length (requests st'))%nat ->
     last (requests st') = Some rq ->
     rq_result rq = HttpFail e -> statusCode e = Some 404 ->
     out = Ret []) /\
  (forall w st r filePath out st' rq e,
     getFileContentByPath r filePath w st = (out, st') ->
     (length (requests st) < length (requests st'))%nat ->
     last (requests st') = Some rq ->
     rq_result rq = HttpFail e -> statusCode e = Some 404 ->
     exists error, out = Throw error).
Proof.
  split.
  - intros w st r c force out st' rq e Hrun Hlen Hlast Hres Hcode.
    destruct (resolveContentPath r c) as [p|] eqn:Hp.
    2:{ rewrite (getFilesByRepo_excluded _ _ _ _ _ Hp) in Hrun.
        injection Hrun as <- <-. lia. }
    destruct (cacheHit force (clock w (tick st)) (cache st !! cacheKey r c))
      as [entry|] eqn:Hhit.
    { rewrite (getFilesByRepo_hit _ _ _ _ _ _ _ Hp Hhit) in Hrun.
      injection Hrun as <- <-. cbn in Hlen. lia. }
    destruct (getFilesByRepo_miss _ _ _ _ _ _ Hp Hhit) as (n & Hmiss).
    rewrite Hmiss in Hrun. clear Hmiss.
    destruct (fetchListing_requests r c p (clock w (tick st)) w (set_tick n st))
      as (n' & hdrs & reply & prefix & _ & Hf).
    rewrite Hf in Hrun. clear Hf.
    injection Hrun as <- <-.
    rewrite afterListing_requests, last_log_request in Hlast.
    injection Hlast as <-. cbn [requestFor rq_result] in Hres. subst reply.
    cbn [afterListing fst notFoundIsEmpty].
    rewrite (statusIs_code _ _ Hcode). reflexivity.
  - intros w st r filePath out st' rq e Hrun Hlen Hlast Hres Hcode.
    destruct (getFileContentByPath_run r filePath w st) as (n & hdrs & Hrun').
    cbn zeta in Hrun'. rewrite Hrun' in Hrun. clear Hrun'.
    destruct (http w n) as [e1|entries|d|s]; try (injection Hrun as <- <-; eauto; fail).
    destruct (String.eqb (rc_type d) "file" && Js.truthy (rc_content d)).
    { injection Hrun as <- <-.
      rewrite last_log_request in Hlast. injection Hlast as <-. discriminate. }
    destruct (String.eqb (rc_type d) "file" && Js.truthy (rc_download_url d)).
    2:{ injection Hrun as <- <-. eauto. }
    match type of Hrun with context [getFileContent ?u w ?s] =>
      destruct (getFileContent_run u w s) as (n2 & hdrs2 & Hc) end.
    cbn zeta in Hc. rewrite Hc in Hrun. clear Hc.
    destruct (http w n2) as [e2|entries2|d2|s2]; cbn [outcomeOf] in Hrun;
      injection Hrun as <- <-; eauto;
      rewrite last_log_request in Hlast; injection Hlast as <-; discriminate.
Qed.

Lemma not_found_contracts_witness :
  (getFilesByRepo defaultRepo Plugins false
     (constantWorld false notFound emptyManifest) initialState).1 = Ret [] /\
  exists error,
    (getFileContentByPath defaultRepo "plugins/x/README.md"
       (constantWorld false notFound emptyManifest) initialState).1 = Throw error.
Proof.
  destruct not_found_contracts as [Hlist Hpath]. split.
  - eapply (Hlist (constantWorld false notFound emptyManifest) initialState
              defaultRepo Plugins false).
    + apply surjective_pairing.
    + vm_compute. lia.
    + vm_compute. reflexivity.
    + reflexivity.
    + reflexivity.
  - eapply (Hpath (constantWorld false notFound emptyManifest) initialState
              defaultRepo "plugins/x/README.md").
    + apply surjective_pairing.
    + vm_compute. lia.
    + vm_compute. reflexivity.
    + reflexivity.
    + reflexivity.
Defined.

(** ** The cache *)

Lemma app_snoc_inv {A} (l : list A) (x : A) (m : list A) (y : A) :
  (l ++ [x] = m ++ [y])%list -> l = m /\ x = y.
Proof. intros H. apply app_inj_tail in H. exact H. Qed.

(** C7, as the code has it.  With the time to live at 3,600,000 ms, and for
    a category that the folder mappings do not exclude: a request without
    [forceRefresh] that finds an entry under the key of the repository and
    the category, younger than the time to live, returns the data of that
    entry, issues no request and leaves the cache alone.  When the entry has
    expired, the listing is requested once, and a second time only when the
    first request was rejected with status 401 or 403, authentication is
    enabled and the user chose "Sign In" in the prompt that followed.  If
    the last of these requests brings a listing, the entry is replaced by
    one holding the kept entries of that listing and the time of the call;
    if it brings anything else (a 404, another failure, a reply that is no
    listing), the cache stays as it was, the expired entry included. *)
Theorem cache_ttl (w : World) (st : State) (r : RepoSource) (c : CopilotCategory)
    (p : string) (entry : CacheEntry) :
  resolveContentPath r c = Some p ->
  cache st !! cacheKey r c = Some entry ->
  let now := clock w (tick st) in
  let res := getFilesByRepo r c false w st in
  CACHE_DURATION = 3600000 /\
  (now - timestamp entry < CACHE_DURATION ->
     res.1 = Ret (data entry) /\
     requests res.2 = requests st /\
     cache res.2 = cache st) /\
  (CACHE_DURATION <= now - timestamp entry ->
     exists prefix rq,
       requests res.2 = (requests st ++ prefix ++ [rq])%list /\
       (prefix = [] \/
        exists rq1 e1 n1,
          prefix = [rq1] /\ rq_url rq1 = buildApiUrlForPath r p /\
          rq_result rq1 = HttpFail e1 /\ authFailure e1 = true /\
          enableGithubAuth w = true /\
          http w n1 = HttpFail e1 /\ chose (dialog w (S n1)) "Sign In" = true) /\
       rq_url rq = buildApiUrlForPath r p /\
       (forall entries, rq_result rq = HttpList entries ->
          let files := seq (length (heap st)) (length (keptEntries r c entries)) in
          res.1 = Ret files /\
          heap res.2 = (heap st ++ keptEntries r c entries)%list /\
          cache res.2 =
            <[cacheKey r c := {| data := files; timestamp := now;
                                 entry_category := c; entry_repo := r |}]> (cache st)) /\
       ((forall entries, rq_result rq <> HttpList entries) ->
          cache res.2 = cache st /\ heap res.2 = heap st)).
Proof.
  intros Hp Hentry now res. split; [reflexivity|]. split.
  - intros Hfresh.
    assert (Hhit : cacheHit false now (cache st !! cacheKey r c) = Some entry).
    { rewrite Hentry. unfold cacheHit. cbn [negb andb].
      destruct (Z.ltb_spec (now - timestamp entry) CACHE_DURATION); [reflexivity|lia]. }
    subst res. rewrite (getFilesByRepo_hit _ _ _ _ _ _ _ Hp Hhit). auto.
  - intros Hold.
    assert (Hmiss : cacheHit false now (cache st !! cacheKey r c) = None).
    { rewrite Hentry. unfold cacheHit. cbn [negb andb].
      destruct (Z.ltb_spec (now - timestamp entry) CACHE_DURATION); [lia|reflexivity]. }
    destruct (getFilesByRepo_miss _ _ _ _ _ _ Hp Hmiss) as (n & Hrun).
    subst res. rewrite Hrun. clear Hrun. fold now.
    destruct (fetchListing_retry r c p now w (set_tick n st))
      as (n' & hdrs & reply & [Hf|(hdrs1 & e1 & n1 & Ha & Hauth & Hreply & Hchoice & Hf)]);
      rewrite Hf; clear Hf; cbn [fst snd].
    + exists [], (requestFor w st (Js.truthy (baseUrl r)) (buildApiUrlForPath r p) hdrs reply).
      split; [|split; [by left|split; [reflexivity|split]]].
      * by rewrite afterListing_requests.
      * intros entries Hres. cbn [requestFor rq_result] in Hres. subst reply.
        cbn [afterListing fst snd set_cache set_heap heap cache log_request set_tick].
        auto.
      * intros Hno. cbn [requestFor rq_result] in Hno.
        destruct reply as [e|entries|f|s]; cbn [afterListing snd];
          [auto|exfalso; by apply (Hno entries)|auto|auto].
    + exists [requestFor w st (Js.truthy (baseUrl r)) (buildApiUrlForPath r p) hdrs1
                (HttpFail e1)],
             (requestFor w st (Js.truthy (baseUrl r)) (buildApiUrlForPath r p) hdrs reply).
      split; [|split; [|split; [reflexivity|split]]].
      * rewrite afterListing_requests. cbn [log_request requests set_tick].
        by rewrite <- app_assoc.
      * right. eexists _, e1, n1. repeat (split; [reflexivity || assumption|]).
        exact Hchoice.
      * intros entries Hres. cbn [requestFor rq_result] in Hres. subst reply.
        cbn [afterListing fst snd set_cache set_heap heap cache log_request set_tick].
        auto.
      * intros Hno. cbn [requestFor rq_result] in Hno.
        destruct reply as [e|entries|f|s]; cbn [afterListing snd];
          [auto|exfalso; by apply (Hno entries)|auto|auto].
Qed.

Lemma cache_ttl_witness :
  (getFilesByRepo defaultRepo Plugins false (signInWorld 0) (cachedState 4999000)).1
    = Ret [0%nat] /\
  (getFilesByRepo defaultRepo Plugins false (signInWorld 0) (cachedState 0)).1 = Ret [].
Proof.
  assert (Hkey : forall stamp,
            cache (cachedState stamp) !! cacheKey defaultRepo Plugins
            = Some {| data := [0%nat]; timestamp := stamp;
                      entry_category := Plugins; entry_repo := defaultRepo |}).
  { intros stamp. apply lookup_singleton_eq. }
  split.
  - destruct (cache_ttl (signInWorld 0) (cachedState 4999000) defaultRepo Plugins
                "plugins" _ eq_refl (Hkey 4999000)) as (_ & Hfresh & _).
    apply Hfresh. vm_compute. reflexivity.
  - destruct (cache_ttl (signInWorld 0) (cachedState 0) defaultRepo Plugins
                "plugins" _ eq_refl (Hkey 0)) as (_ & _ & Hold).
    destruct Hold as (prefix & rq & _ & _ & _ & _ & _); [vm_compute; discriminate|].
    vm_compute. reflexivity.
Defined.

(** C7 as stated does not hold.  (1) A fresh entry is not returned when the
    mappings of the repository asked for exclude the category: the answer is
    the empty array.  (2) An expired entry whose listing request meets a 404
    stays in the cache as it was, time stamp included.  (3) An expired entry
    whose first request is rejected with 401 costs two requests once the
    user has signed in.  (4) The time to live is not read from the
    settings: with [cacheTimeout] at 60,000 ms, an entry that is 120,000 ms
    old is still served from the cache, with no request. *)
Lemma cache_claim_fails :
  (cache (cachedState 4999000) !! cacheKey excludingRepo Plugins
     = Some {| data := [0%nat]; timestamp := 4999000;
               entry_category := Plugins; entry_repo := defaultRepo |} /\
   clock lateWorld 0 - 4999000 < CACHE_DURATION /\
   (getFilesByRepo excludingRepo Plugins false lateWorld (cachedState 4999000)).1
     = Ret []) /\
  (CACHE_DURATION <= clock lateWorld 0 - 0 /\
   length (requests (getFilesByRepo defaultRepo Plugins false lateWorld
                       (cachedState 0)).2) = 1%nat /\
   cache (getFilesByRepo defaultRepo Plugins false lateWorld (cachedState 0)).2
     !! cacheKey defaultRepo Plugins
     = Some {| data := [0%nat]; timestamp := 0;
               entry_category := Plugins; entry_repo := defaultRepo |}) /\
  (CACHE_DURATION <= clock (signInWorld 4) 0 - 0 /\
   length (requests (getFilesByRepo defaultRepo Plugins false (signInWorld 4)
                       (cachedState 0)).2) = 2%nat) /\
  (cacheTimeout shortTimeoutWorld = 60000 /\
   cacheTimeout shortTimeoutWorld <= clock shortTimeoutWorld 0 - 4880000 /\
   getFilesByRepo defaultRepo Plugins false shortTimeoutWorld (cachedState 4880000)
   = (Ret [0%nat], set_tick 1 (cachedState 4880000))).
Proof.
  repeat split; try (vm_compute; reflexivity); vm_compute; discriminate.
Qed.

(** ** Frames: what a computation leaves untouched *)

Lemma HttpResult_tree_ind (P : HttpResult -> Prop) :
  (forall e, P (HttpFail e)) ->
  (forall entries, Forall (fun x => P x.2) entries -> P (HttpList entries)) ->
  (forall f, P (HttpFile f)) ->
  (forall s, P (HttpText s)) ->
  forall reply, P reply.
Proof.
  intros Hfail Hlist Hfile Htext. fix IH 1.
  intros [e|entries|f|s]; [apply Hfail| |apply Hfile|apply Htext].
  apply Hlist.
  induction entries as [|[raw sub] rest IHrest]; constructor.
  - apply IH.
  - apply IHrest.
Qed.

Section Frames.

Variable R : World -> State -> State -> Prop.
Hypothesis R_refl : forall w st, R w st st.
Hypothesis R_trans : forall w st1 st2 st3, R w st1 st2 -> R w st2 st3 -> R w st1 st3.

Lemma keeps_ret {A} (a : A) : keeps R (ret a).
Proof. intros w st. apply R_refl. Qed.

Lemma keeps_throw {A} e : keeps R (@throw A e).
Proof. intros w st. apply R_refl. Qed.

Lemma keeps_ask {A} (f : World -> A) : keeps R (ask f).
Proof. intros w st. apply R_refl. Qed.

Lemma keeps_get {A} (f : State -> A) : keeps R (get f).
Proof. intros w st. apply R_refl. Qed.

Lemma keeps_lift {A} (o : Outcome A) : keeps R (lift o).
Proof. destruct o; [apply keeps_ret|apply keeps_throw]. Qed.

Lemma keeps_bind {A B} (m : M A) (k : A -> M B) :
  keeps R m -> (forall a, keeps R (k a)) -> keeps R (bind m k).
Proof.
  intros Hm Hk w st. unfold bind. specialize (Hm w st).
  destruct (m w st) as [[a|e] st1]; cbn [snd] in *.
  - eapply R_trans; [exact Hm|apply Hk].
  - exact Hm.
Qed.

Lemma keeps_try_catch {A} (m : M A) h :
  keeps R m -> (forall e, keeps R (h e)) -> keeps R (try_catch m h).
Proof.
  intros Hm Hh w st. unfold try_catch. specialize (Hm w st).
  destruct (m w st) as [[a|e] st1]; cbn [snd] in *.
  - exact Hm.
  - eapply R_trans; [exact Hm|apply Hh].
Qed.

Lemma keeps_promiseAll {A} (ms : list (M A)) :
  Forall (keeps R) ms -> keeps R (promiseAll ms).
Proof.
  induction 1 as [|m rest Hm _ IH]; intros w st; cbn [promiseAll].
  - apply R_refl.
  - specialize (Hm w st). destruct (m w st) as [o st1].
    specialize (IH w st1). destruct (promiseAll rest w st1) as [orest st2].
    cbn [snd] in *. eapply R_trans; eassumption.
Qed.

Lemma keeps_forEach {A} (xs : list A) (body : A -> M unit) :
  (forall x, keeps R (body x)) -> keeps R (forEach xs body).
Proof.
  intros Hb. induction xs as [|x rest IH]; cbn [forEach].
  - apply keeps_ret.
  - apply keeps_bind; [apply Hb|intros _; exact IH].
Qed.

Hypothesis R_tick : forall w st n, R w st (set_tick n st).

Lemma keeps_consult {A} (f : World -> nat -> A) : keeps R (consult f).
Proof. intros w st. apply R_tick. Qed.

Lemma keeps_quiet {A} (m : M A) : quiet m -> keeps R m.
Proof. intros Hq w st. destruct (Hq w st) as (a & n & ->). apply R_tick. Qed.

Hypothesis R_request : forall w st ent url hdrs reply,
  R w st (log_request (requestFor w st ent url hdrs reply) st).

Lemma keeps_request_reply (ent : bool) reply url hdrs :
  keeps R (fun w =>
    withTlsOverride (ent && allowInsecureEnterpriseCerts w)
      (axios_get_reply reply url
         {| timeout := 10000; headers := hdrs; withCredentials := ent;
            httpsAgent := agentFor w ent url |}) w).
Proof. intros w st. rewrite tlsGet_reply_run. apply R_request. Qed.

Lemma keeps_request (ent : bool) url hdrs :
  keeps R (fun w =>
    withTlsOverride (ent && allowInsecureEnterpriseCerts w)
      (axios_get url
         {| timeout := 10000; headers := hdrs; withCredentials := ent;
            httpsAgent := agentFor w ent url |}) w).
Proof.
  intros w st. rewrite tlsGet_run. cbn [snd].
  eapply R_trans; [apply (R_tick w st (S (tick st)))|].
  apply (R_request w (set_tick (S (tick st)) st) ent url hdrs).
Qed.

(** The opening of every request function: headers, agent, opt-in, request. *)
Lemma keeps_prepared_request {A} (ent : bool) url (k : RespData -> M A)
    (get : string -> AxiosConfig -> M RespData) :
  (forall hdrs, keeps R (fun w =>
     withTlsOverride (ent && allowInsecureEnterpriseCerts w)
       (get url {| timeout := 10000; headers := hdrs; withCredentials := ent;
                   httpsAgent := agentFor w ent url |}) w)) ->
  (forall d, keeps R (k d)) ->
  keeps R
    (let! hdrs := createRequestHeaders ent in
     let! agent := (if ent then createHttpsAgent url else ret None) in
     let axiosConfig :=
       {| timeout := 10000; headers := hdrs;
          withCredentials := ent; httpsAgent := agent |} in
     let! allowInsecure := ask allowInsecureEnterpriseCerts in
     let! response := withTlsOverride (ent && allowInsecure) (get url axiosConfig) in
     k response).
Proof.
  intros Hget Hk w st. unfold bind at 1.
  destruct (createRequestHeaders_quiet ent w st) as (hdrs & n & ->).
  unfold bind at 1. rewrite agent_run.
  unfold bind at 1. unfold ask at 1.
  eapply R_trans; [apply (R_tick w st n)|].
  unfold bind. specialize (Hget hdrs w (set_tick n st)). cbn beta in Hget.
  destruct (withTlsOverride _ _ w (set_tick n st)) as [[d|e] st1]; cbn [snd] in *.
  - eapply R_trans; [exact Hget|apply Hk].
  - exact Hget.
Qed.

Lemma getFileContent_keeps url : keeps R (getFileContent url).
Proof.
  unfold getFileContent. apply keeps_try_catch; [|intros e; apply keeps_throw].
  intros w st. unfold bind at 1.
  destruct (createRequestHeaders_quiet (negb (Js.includes url "github.com")) w st)
    as (hdrs & n & ->).
  unfold bind at 1. rewrite agent_run.
  unfold bind at 1. unfold ask at 1.
  eapply R_trans; [apply (R_tick w st n)|].
  apply (keeps_request (negb (Js.includes url "github.com")) url hdrs w).
Qed.

Lemma getFileContentByPath_keeps r p : keeps R (getFileContentByPath r p).
Proof.
  unfold getFileContentByPath. apply keeps_try_catch; [|intros e; apply keeps_throw].
  apply (keeps_prepared_request _ _ _ axios_get).
  - intros hdrs. apply keeps_request.
  - intros [entries|d|s]; try apply keeps_throw.
    destruct (_ && Js.truthy (rc_content d)).
    { apply keeps_bind; [apply keeps_ask|intros; apply keeps_ret]. }
    destruct (_ && Js.truthy (rc_download_url d)); [|apply keeps_throw].
    apply keeps_bind; [apply getFileContent_keeps|intros; apply keeps_ret].
Qed.

Lemma parsePluginJson_keeps r dir : keeps R (parsePluginJson r dir).
Proof.
  unfold parsePluginJson. apply keeps_try_catch; [|intros e; apply keeps_throw].
  apply keeps_bind; [apply getFileContentByPath_keeps|intros fd].
  apply keeps_bind; [apply keeps_ask|intros parse].
  apply keeps_bind; [apply keeps_lift|intros; apply keeps_ret].
Qed.

Lemma getDirectoryContents_reply_keeps reply :
  forall r p, keeps R (getDirectoryContents_reply reply r p).
Proof.
  induction reply as [e|entries IH|f|s] using HttpResult_tree_ind; intros r p;
    cbn [getDirectoryContents_reply];
    (apply keeps_try_catch; [|intros; apply keeps_throw]);
    apply (keeps_prepared_request _ _ _ (axios_get_reply _));
    try (intros hdrs; apply keeps_request_reply).
  all: intros [items|d|s']; try apply keeps_throw.
  all: apply keeps_bind; [|intros; apply keeps_ret].
  all: apply keeps_promiseAll; try constructor.
  induction IH as [|[raw sub] rest Hsub _ IHrest]; [constructor|].
  destruct (String.eqb (raw_type raw) "dir"); [|exact IHrest].
  constructor; [apply Hsub|exact IHrest].
Qed.

Lemma getDirectoryContents_keeps r p : keeps R (getDirectoryContents r p).
Proof.
  unfold getDirectoryContents.
  apply keeps_bind; [apply keeps_consult|intros reply].
  apply getDirectoryContents_reply_keeps.
Qed.

Hypothesis R_heap : forall w st h, R w st (set_heap h st).
Hypothesis R_cache : forall w st c, R w st (set_cache c st).

Lemma afterListing_keeps r c now reply w st : R w st (afterListing r c now reply st).2.
Proof.
  destruct reply; cbn [afterListing snd]; try apply R_refl.
  eapply R_trans; [apply R_heap|apply R_cache].
Qed.

Lemma fetchListing_keeps r c p now : keeps R (fetchListing r c p now).
Proof.
  intros w st.
  destruct (fetchListing_requests r c p now w st)
    as (n & hdrs & reply & prefix & Hprefix & ->).
  eapply R_trans; [|apply afterListing_keeps].
  eapply R_trans; [apply (R_tick w st n)|].
  destruct Hprefix as [->|(hdrs1 & e1 & _ & ->)]; cbn [log_requests fold_left].
  - apply (R_request w (set_tick n st)).
  - eapply R_trans; [apply (R_request w (set_tick n st))|].
    apply (R_request w (log_request _ (set_tick n st))).
Qed.

Lemma getFilesByRepo_keeps r c force : keeps R (getFilesByRepo r c force).
Proof.
  intros w st.
  destruct (resolveContentPath r c) as [p|] eqn:Hp.
  2:{ rewrite (getFilesByRepo_excluded _ _ _ _ _ Hp). apply R_refl. }
  destruct (cacheHit force (clock w (tick st)) (cache st !! cacheKey r c))
    as [entry|] eqn:Hhit.
  { rewrite (getFilesByRepo_hit _ _ _ _ _ _ _ Hp Hhit). apply R_tick. }
  destruct (getFilesByRepo_miss _ _ _ _ _ _ Hp Hhit) as (n & ->). cbn [snd].
  eapply R_trans; [apply (R_tick w st n)|apply fetchListing_keeps].
Qed.

Lemma getFiles_source_keeps c force now r : keeps R (getFiles_source c force now r).
Proof.
  unfold getFiles_source.
  apply keeps_bind; [apply keeps_get|intros cacheEntry].
  destruct (cacheHit force now cacheEntry); [apply keeps_ret|].
  apply keeps_try_catch; [|intros; apply keeps_ret].
  destruct (resolveContentPath r c); [apply fetchListing_keeps|apply keeps_ret].
Qed.

Lemma getFiles_loop_keeps c force now sources :
  forall allFiles, keeps R (getFiles_loop c force now sources allFiles).
Proof.
  induction sources as [|r rest IH]; intros allFiles; cbn [getFiles_loop].
  - apply keeps_ret.
  - apply keeps_bind; [apply getFiles_source_keeps|intros files; apply IH].
Qed.

Lemma getFiles_keeps c force sources : keeps R (getFiles c force sources).
Proof.
  unfold getFiles.
  apply keeps_bind; [apply keeps_ask|intros enableAuth].
  apply keeps_bind.
  { destruct enableAuth; [apply keeps_quiet, proactiveAuth_quiet|apply keeps_ret]. }
  intros _. apply keeps_bind; [apply keeps_consult|intros now].
  apply keeps_bind; [apply getFiles_loop_keeps|intros allFiles].
  apply keeps_bind; [apply keeps_get|intros h].
  apply keeps_bind; [|intros; apply keeps_ret].
  intros w st. apply R_heap.
Qed.

End Frames.

Lemma requestsOnly_refl w st : requestsOnly w st st.
Proof.
  repeat split. exists []. split; [by rewrite app_nil_r|constructor].
Qed.

Lemma requestsOnly_trans w st1 st2 st3 :
  requestsOnly w st1 st2 -> requestsOnly w st2 st3 -> requestsOnly w st1 st3.
Proof.
  intros (He & Hf & Hm & rs & Hr & Hi) (He' & Hf' & Hm' & rs' & Hr' & Hi').
  repeat split; try congruence.
  exists (rs ++ rs')%list. split.
  - rewrite Hr', Hr. by rewrite <- app_assoc.
  - apply Forall_app. split; [exact Hi|]. by rewrite <- He.
Qed.

Lemma requestsOnly_tick w st n : requestsOnly w st (set_tick n st).
Proof.
  repeat split. exists []. split; [by rewrite app_nil_r|constructor].
Qed.

Lemma requestsOnly_request w st ent url hdrs reply :
  requestsOnly w st (log_request (requestFor w st ent url hdrs reply) st).
Proof.
  repeat split. eexists. split; [reflexivity|].
  constructor; [|constructor]. exists ent, hdrs. split; reflexivity.
Qed.

Lemma requestsOnly_heap w st h : requestsOnly w st (set_heap h st).
Proof.
  repeat split. exists []. split; [by rewrite app_nil_r|constructor].
Qed.

Lemma requestsOnly_cache w st c : requestsOnly w st (set_cache c st).
Proof.
  repeat split. exists []. split; [by rewrite app_nil_r|constructor].
Qed.

Lemma storeKept_refl w st : storeKept w st st.
Proof. by split. Qed.

Lemma storeKept_trans w st1 st2 st3 :
  storeKept w st1 st2 -> storeKept w st2 st3 -> storeKept w st1 st3.
Proof. intros [] []. split; congruence. Qed.

Lemma storeKept_tick w st n : storeKept w st (set_tick n st).
Proof. by split. Qed.

Lemma storeKept_request w st ent url hdrs reply :
  storeKept w st (log_request (requestFor w st ent url hdrs reply) st).
Proof. by split. Qed.

(** Every request function of the service only asks and requests. *)
Lemma service_requestsOnly :
  (forall c force sources, keeps requestsOnly (getFiles c force sources)) /\
  (forall r c force, keeps requestsOnly (getFilesByRepo r c force)) /\
  (forall url, keeps requestsOnly (getFileContent url)) /\
  (forall r p, keeps requestsOnly (getFileContentByPath r p)) /\
  (forall r p, keeps requestsOnly (getDirectoryContents r p)) /\
  (forall r dir, keeps requestsOnly (parsePluginJson r dir)).
Proof.
  split; [|split; [|split; [|split; [|split]]]]; intros.
  - apply getFiles_keeps; eauto using requestsOnly_refl, requestsOnly_trans,
      requestsOnly_tick, requestsOnly_request, requestsOnly_heap, requestsOnly_cache.
  - apply getFilesByRepo_keeps; eauto using requestsOnly_refl, requestsOnly_trans,
      requestsOnly_tick, requestsOnly_request, requestsOnly_heap, requestsOnly_cache.
  - apply getFileContent_keeps; eauto using requestsOnly_refl, requestsOnly_trans,
      requestsOnly_tick, requestsOnly_request.
  - apply getFileContentByPath_keeps; eauto using requestsOnly_refl, requestsOnly_trans,
      requestsOnly_tick, requestsOnly_request.
  - apply getDirectoryContents_keeps; eauto using requestsOnly_refl, requestsOnly_trans,
      requestsOnly_tick, requestsOnly_request.
  - apply parsePluginJson_keeps; eauto using requestsOnly_refl, requestsOnly_trans,
      requestsOnly_tick, requestsOnly_request.
Qed.

(** The functions that do not list a category leave the store and the cache
    alone. *)
Lemma service_storeKept :
  (forall url, keeps storeKept (getFileContent url)) /\
  (forall r p, keeps storeKept (getFileContentByPath r p)) /\
  (forall r p, keeps storeKept (getDirectoryContents r p)) /\
  (forall r dir, keeps storeKept (parsePluginJson r dir)).
Proof.
  split; [|split; [|split]]; intros.
  - apply getFileContent_keeps; eauto using storeKept_refl, storeKept_trans,
      storeKept_tick, storeKept_request.
  - apply getFileContentByPath_keeps; eauto using storeKept_refl, storeKept_trans,
      storeKept_tick, storeKept_request.
  - apply getDirectoryContents_keeps; eauto using storeKept_refl, storeKept_trans,
      storeKept_tick, storeKept_request.
  - apply parsePluginJson_keeps; eauto using storeKept_refl, storeKept_trans,
      storeKept_tick, storeKept_request.
Qed.

(** ** Certificate validation *)


(** What is right in C8: a request runs without certificate validation only
    if the user has opted in and the code has classified the request as an
    enterprise one (such requests carry [withCredentials]), provided the
    flag is not at ['0'] when the request is prepared. *)
Lemma issued_policy (w : World) (flag : option string) (rq : Request) :
  issued w flag rq -> flag <> Some "0" -> validationOff rq ->
  allowInsecureEnterpriseCerts w = true /\ withCredentials (rq_config rq) = true.
Proof.
  intros (ent & hdrs & Hcfg & Henv) Hflag Hoff. rewrite Hcfg. cbn [withCredentials].
  destruct Hoff as [Hzero|(agent & Hagent & Hreject)].
  - rewrite Henv in Hzero.
    destruct ent, (allowInsecureEnterpriseCerts w); cbn in Hzero; try contradiction; auto.
  - rewrite Hcfg in Hagent. cbn [httpsAgent] in Hagent. unfold agentFor in Hagent.
    destruct ent; cbn in Hagent; [|discriminate].
    destruct (negb (Js.includes (rq_url rq) "github.com")); [|discriminate].
    destruct (allowInsecureEnterpriseCerts w); [auto|].
    injection Hagent as <-. discriminate.
Qed.

Lemma opt_in_required (w : World) (st : State) {A} (m : M A) (rq : Request) :
  keeps requestsOnly m ->
  env_tls st <> Some "0" ->
  allowInsecureEnterpriseCerts w = false ->
  In rq (requests (m w st).2) -> ~ In rq (requests st) ->
  ~ validationOff rq.
Proof.
  intros Hm Hflag Hopt Hin Hnew Hoff.
  destruct (Hm w st) as (_ & _ & _ & rs & Hrs & Hissued).
  rewrite Hrs in Hin. apply in_app_or in Hin as [Hin|Hin]; [contradiction|].
  rewrite Forall_forall in Hissued.
  apply list_elem_of_In in Hin.
  destruct (issued_policy w _ rq (Hissued rq Hin) Hflag Hoff) as [Hallow _].
  congruence.
Qed.

(** A listing for a repository without [baseUrl] goes to the public API and
    never runs without validation. *)
Lemma public_listing_validated (w : World) (st : State) (r : RepoSource)
    (c : CopilotCategory) (force : bool) (rq : Request) :
  Js.truthy (baseUrl r) = false ->
  env_tls st <> Some "0" ->
  In rq (requests (getFilesByRepo r c force w st).2) -> ~ In rq (requests st) ->
  ~ validationOff rq /\ Js.startsWith (rq_url rq) "https://api.github.com/" = true.
Proof.
  intros Hbase Hflag Hin Hnew.
  destruct (resolveContentPath r c) as [p|] eqn:Hp.
  2:{ rewrite (getFilesByRepo_excluded _ _ _ _ _ Hp) in Hin. contradiction. }
  destruct (cacheHit force (clock w (tick st)) (cache st !! cacheKey r c))
    as [entry|] eqn:Hhit.
  { rewrite (getFilesByRepo_hit _ _ _ _ _ _ _ Hp Hhit) in Hin. contradiction. }
  destruct (getFilesByRepo_miss _ _ _ _ _ _ Hp Hhit) as (n & Hrun).
  rewrite Hrun in Hin. clear Hrun. cbn [snd] in Hin.
  destruct (fetchListing_requests r c p (clock w (tick st)) w (set_tick n st))
    as (n' & hdrs & reply & prefix & Hprefix & Hf).
  rewrite Hf in Hin. clear Hf.
  rewrite afterListing_requests in Hin. cbn [log_request requests] in Hin.
  rewrite requests_log_requests in Hin. cbn [set_tick requests] in Hin.
  assert (Hshape : exists hdrs' reply',
            rq = requestFor w st false (buildApiUrlForPath r p) hdrs' reply').
  { apply in_app_or in Hin as [Hin|[<-|[]]];
      [|exists hdrs, reply; rewrite Hbase; reflexivity].
    apply in_app_or in Hin as [Hin|Hin]; [contradiction|].
    destruct Hprefix as [->|(hdrs1 & e1 & _ & ->)]; [contradiction|].
    destruct Hin as [<-|[]]. exists hdrs1, (HttpFail e1). rewrite Hbase. reflexivity. }
  destruct Hshape as (hdrs' & reply' & ->). split.
  - intros [Hzero|(agent & Hagent & _)].
    + cbn in Hzero. congruence.
    + cbn in Hagent. discriminate.
  - cbn [requestFor rq_url]. unfold buildApiUrlForPath. rewrite Hbase. reflexivity.
Qed.

(** C8 (the code departs from it).  With the opt-in on, requests to public
    hosts run without certificate validation.  (1) The download of a file of
    the public repository goes to [raw.githubusercontent.com]; that address
    does not contain ["github.com"], so [getFileContent] takes it for an
    enterprise address, overrides the flag and uses the agent that rejects
    nothing.  (2) A source whose [baseUrl] is the public host itself is
    taken for an enterprise source: the listing request goes to
    [github.com] under the overridden flag. *)
Theorem public_requests_unvalidated :
  map tlsSettings (requests (getFileContent publicDownload optInWorld initialState).2)
    = [(publicDownload, Some "0",
        Some {| rejectUnauthorized := false; checkServerIdentityOff := true |})] /\
  map tlsSettings
      (requests (getFilesByRepo publicAsBase Plugins false optInWorld initialState).2)
    = [("https://github.com/api/v3/repos/github/awesome-copilot/contents/plugins",
        Some "0", None)].
Proof. split; vm_compute; reflexivity. Qed.

(** ** The cache invariant, entry types and display names *)

Lemma includes_app_bar (a b : string) : Js.includes (a ++ String "|" b) "|" = true.
Proof.
  induction a as [|ch a IH].
  - destruct b; reflexivity.
  - change (String ch a ++ String "|" b) with (String ch (a ++ String "|" b)).
    cbn [Js.includes]. rewrite IH. apply orb_true_r.
Qed.

Lemma afterLastBar_app (a b : string) :
  Js.includes b "|" = false -> afterLastBar (a ++ String "|" b) = b.
Proof.
  intros Hb. induction a as [|ch a IH].
  - change ("" ++ String "|" b) with (String "|" b).
    cbn [afterLastBar]. rewrite Hb. reflexivity.
  - change (String ch a ++ String "|" b) with (String ch (a ++ String "|" b)).
    cbn [afterLastBar]. rewrite includes_app_bar. exact IH.
Qed.

Lemma categoryName_inj (c c' : CopilotCategory) :
  categoryName c = categoryName c' -> c = c'.
Proof. destruct c, c'; cbn; congruence. Qed.

Lemma cacheKey_category (r r' : RepoSource) (c c' : CopilotCategory) :
  cacheKey r c = cacheKey r' c' -> c = c'.
Proof.
  unfold cacheKey. intros H. apply categoryName_inj.
  apply (f_equal afterLastBar) in H.
  change (repoKey r ++ "|" ++ categoryName c)
    with (repoKey r ++ String "|" (categoryName c)) in H.
  change (repoKey r' ++ "|" ++ categoryName c')
    with (repoKey r' ++ String "|" (categoryName c')) in H.
  rewrite !afterLastBar_app in H; [exact H| |]; [destruct c'|destruct c]; reflexivity.
Qed.

Lemma keepEntry_type (c : CopilotCategory) (f : RawFile) :
  keepEntry c f = true <-> raw_type f = expectedType c.
Proof. destruct c; cbn; apply String.eqb_eq. Qed.

Lemma entryAt_app h more c l : entryAt h c l -> entryAt (h ++ more) c l.
Proof.
  intros (f & Hl & Ht & Hr). exists f. split; [|auto].
  by apply lookup_app_l_Some.
Qed.

Lemma cache_wf_same (st st' : State) :
  heap st' = heap st -> cache st' = cache st -> cache_wf st -> cache_wf st'.
Proof. unfold cache_wf. intros -> ->. auto. Qed.

Lemma cache_wf_initial : cache_wf initialState.
Proof. intros k e H. cbn in H. by rewrite lookup_empty in H. Qed.

Lemma kept_entries_at r c entries h :
  Forall (entryAt (h ++ keptEntries r c entries) c)
         (seq (length h) (length (keptEntries r c entries))).
Proof.
  apply Forall_forall. intros l Hl. apply elem_of_seq in Hl as [Hge Hlt].
  destruct (lookup_lt_is_Some_2 (keptEntries r c entries) (l - length h)%nat) as [f Hf];
    [lia|].
  exists f. split.
  - rewrite lookup_app_r by lia. exact Hf.
  - unfold keptEntries in Hf. rewrite list_lookup_fmap in Hf.
    destruct (List.filter (keepEntry c) (map fst entries) !! (l - length h)%nat)
      as [raw|] eqn:Hraw; [|discriminate].
    injection Hf as <-. cbn. split; [|eauto].
    apply list_elem_of_lookup_2, list_elem_of_In, filter_In in Hraw as [_ Hk].
    by apply keepEntry_type.
Qed.

Lemma afterListing_wf r c now reply st1 :
  cache_wf st1 ->
  cache_wf (afterListing r c now reply st1).2 /\
  (forall files, (afterListing r c now reply st1).1 = Ret files ->
     Forall (entryAt (heap (afterListing r c now reply st1).2) c) files) /\
  exists more, heap (afterListing r c now reply st1).2 = (heap st1 ++ more)%list.
Proof.
  intros Hwf.
  destruct reply as [e|entries|f|s]; cbn [afterListing fst snd].
  1,3,4: split; [exact Hwf|split; [discriminate|exists []; by rewrite app_nil_r]].
  split; [|split].
  - intros k e Hk. cbn [set_cache set_heap cache heap] in *.
    destruct (decide (cacheKey r c = k)) as [<-|Hne].
    + rewrite lookup_insert_eq in Hk. injection Hk as <-. cbn. split; [reflexivity|].
      apply kept_entries_at.
    + rewrite lookup_insert_ne in Hk by exact Hne.
      destruct (Hwf k e Hk) as [Hkey Hdata]. split; [exact Hkey|].
      eapply Forall_impl; [exact Hdata|]. intros l. apply entryAt_app.
  - intros files [= <-]. cbn [set_cache set_heap heap]. apply kept_entries_at.
  - eexists. reflexivity.
Qed.

Lemma fetchListing_wf r c p now w st :
  cache_wf st ->
  cache_wf (fetchListing r c p now w st).2 /\
  (forall files, (fetchListing r c p now w st).1 = Ret files ->
     Forall (entryAt (heap (fetchListing r c p now w st).2) c) files) /\
  exists more, heap (fetchListing r c p now w st).2 = (heap st ++ more)%list.
Proof.
  intros Hwf.
  destruct (fetchListing_requests r c p now w st)
    as (n & hdrs & reply & prefix & _ & ->).
  match goal with |- context [afterListing r c now reply ?s] =>
    assert (Hh : heap s = heap st)
      by (cbn [log_request heap]; by rewrite heap_log_requests);
    assert (Hc : cache s = cache st)
      by (cbn [log_request cache]; by rewrite cache_log_requests);
    destruct (afterListing_wf r c now reply s (cache_wf_same _ _ Hh Hc Hwf))
      as (H1 & H2 & more & H3) end.
  split; [exact H1|split; [exact H2|]].
  exists more. rewrite H3, Hh. reflexivity.
Qed.

Lemma cacheHit_Some force now o e : cacheHit force now o = Some e -> o = Some e.
Proof.
  unfold cacheHit. destruct o as [e'|]; [|discriminate].
  destruct (_ && _); congruence.
Qed.

Lemma cached_data_at st r c e :
  cache_wf st -> cache st !! cacheKey r c = Some e ->
  Forall (entryAt (heap st) c) (data e).
Proof.
  intros Hwf He. destruct (Hwf _ _ He) as [Hkey Hdata].
  apply cacheKey_category in Hkey. by rewrite Hkey.
Qed.

Lemma getFilesByRepo_wf r c force w st :
  cache_wf st ->
  cache_wf (getFilesByRepo r c force w st).2 /\
  (forall files, (getFilesByRepo r c force w st).1 = Ret files ->
     Forall (entryAt (heap (getFilesByRepo r c force w st).2) c) files) /\
  exists more, heap (getFilesByRepo r c force w st).2 = (heap st ++ more)%list.
Proof.
  intros Hwf.
  destruct (resolveContentPath r c) as [p|] eqn:Hp.
  2:{ rewrite (getFilesByRepo_excluded _ _ _ _ _ Hp). cbn [fst snd].
      split; [exact Hwf|split].
      - intros files [= <-]. constructor.
      - exists []. by rewrite app_nil_r. }
  destruct (cacheHit force (clock w (tick st)) (cache st !! cacheKey r c))
    as [entry|] eqn:Hhit.
  { rewrite (getFilesByRepo_hit _ _ _ _ _ _ _ Hp Hhit). cbn [fst snd].
    split; [exact Hwf|split].
    - intros files [= <-]. apply cacheHit_Some in Hhit.
      apply (cached_data_at st r c entry Hwf Hhit).
    - exists []. by rewrite app_nil_r. }
  destruct (getFilesByRepo_miss _ _ _ _ _ _ Hp Hhit) as (n & ->). cbn [fst snd].
  destruct (fetchListing_wf r c p (clock w (tick st)) w (set_tick n st) Hwf)
    as (H1 & H2 & H3).
  split; [exact H1|split; [|exact H3]].
  intros files Hfiles.
  destruct (fetchListing r c p (clock w (tick st)) w (set_tick n st)) as [[fs|e] st'];
    cbn [notFoundIsEmpty fst snd] in *.
  - apply H2. exact Hfiles.
  - destruct (statusIs e 404); [|discriminate]. injection Hfiles as <-. constructor.
Qed.

Lemma getFiles_source_wf c force now r w st :
  cache_wf st ->
  cache_wf (getFiles_source c force now r w st).2 /\
  (exists files,
     (getFiles_source c force now r w st).1 = Ret files /\
     Forall (entryAt (heap (getFiles_source c force now r w st).2) c) files) /\
  exists more, heap (getFiles_source c force now r w st).2 = (heap st ++ more)%list.
Proof.
  intros Hwf. unfold getFiles_source, bind, get.
  destruct (cacheHit force now (cache st !! cacheKey r c)) as [entry|] eqn:Hhit.
  { cbn [ret fst snd]. split; [exact Hwf|split].
    - eexists. split; [reflexivity|]. apply cacheHit_Some in Hhit.
      apply (cached_data_at st r c entry Hwf Hhit).
    - exists []. by rewrite app_nil_r. }
  unfold try_catch.
  destruct (resolveContentPath r c) as [p|].
  2:{ cbn [ret fst snd]. split; [exact Hwf|split].
      - eexists. split; [reflexivity|constructor].
      - exists []. by rewrite app_nil_r. }
  destruct (fetchListing_wf r c p now w st Hwf) as (H1 & H2 & H3).
  destruct (fetchListing r c p now w st) as [[fs|e] st']; cbn [ret fst snd] in *.
  - split; [exact H1|split; [|exact H3]]. eexists. split; [reflexivity|]. by apply H2.
  - split; [exact H1|split; [|exact H3]]. eexists. split; [reflexivity|constructor].
Qed.

Lemma getFiles_loop_wf c force now sources w :
  forall st allFiles,
    cache_wf st -> Forall (entryAt (heap st) c) allFiles ->
    cache_wf (getFiles_loop c force now sources allFiles w st).2 /\
    (exists files,
       (getFiles_loop c force now sources allFiles w st).1 = Ret files /\
       Forall (entryAt (heap (getFiles_loop c force now sources allFiles w st).2) c)
              files) /\
    exists more,
      heap (getFiles_loop c force now sources allFiles w st).2 = (heap st ++ more)%list.
Proof.
  induction sources as [|r rest IH]; intros st allFiles Hwf Hall; cbn [getFiles_loop].
  - cbn [ret fst snd]. split; [exact Hwf|split].
    + eauto.
    + exists []. by rewrite app_nil_r.
  - unfold bind.
    destruct (getFiles_source_wf c force now r w st Hwf)
      as (H1 & (files & Hret & H2) & more & H3).
    destruct (getFiles_source c force now r w st) as [o st1]. cbn [fst snd] in *.
    subst o.
    assert (Hall' : Forall (entryAt (heap st1) c) (allFiles ++ files)%list).
    { apply Forall_app. split; [|exact H2].
      eapply Forall_impl; [exact Hall|]. intros l. rewrite H3. apply entryAt_app. }
    destruct (IH st1 _ H1 Hall') as (H4 & H5 & more' & H6).
    split; [exact H4|split; [exact H5|]].
    exists (more ++ more')%list. rewrite H6, H3. by rewrite <- app_assoc.
Qed.

Lemma assignDisplayName_fields dups f :
  name (assignDisplayName dups f) = name f /\
  type (assignDisplayName dups f) = type f /\
  file_repo (assignDisplayName dups f) = file_repo f.
Proof.
  unfold assignDisplayName.
  destruct (file_repo f) eqn:E; [destruct (decide _)|]; cbn; auto.
Qed.

Lemma assignDisplayName_idem dups f :
  assignDisplayName dups (assignDisplayName dups f) = assignDisplayName dups f.
Proof.
  unfold assignDisplayName.
  destruct (file_repo f) eqn:E; [destruct (decide _) as [Hin|Hout]|]; cbn; rewrite ?E.
  - destruct (decide _); [reflexivity|contradiction].
  - destruct (decide _); [contradiction|reflexivity].
  - reflexivity.
Qed.

Lemma displayNamePass_lookup dups ls : forall h l,
  displayNamePass dups h ls !! l =
  (if decide (l ∈ ls) then assignDisplayName dups else id) <$> (h !! l).
Proof.
  unfold displayNamePass.
  induction ls as [|l0 rest IH]; intros h l; cbn [foldl].
  - rewrite decide_False by apply not_elem_of_nil. by destruct (h !! l).
  - rewrite IH.
    destruct (decide (l = l0)) as [->|Hne].
    + rewrite list_lookup_alter_eq, (decide_True (P := l0 ∈ l0 :: rest)) by left.
      destruct (h !! l0) as [f|]; cbn; [|reflexivity].
      destruct (decide _); cbn; [by rewrite assignDisplayName_idem|reflexivity].
    + rewrite list_lookup_alter_ne by congruence.
      destruct (decide (l ∈ rest)) as [Hin|Hout].
      * rewrite decide_True by (by right). reflexivity.
      * rewrite decide_False; [reflexivity|].
        intros [?|?]%elem_of_cons; [congruence|contradiction].
Qed.

Lemma entryAt_pass dups h ls c l :
  entryAt h c l -> entryAt (displayNamePass dups h ls) c l.
Proof.
  intros (f & Hl & Ht & Hr).
  destruct (assignDisplayName_fields dups f) as (_ & Ht' & Hr').
  unfold entryAt. rewrite displayNamePass_lookup, Hl.
  destruct (decide _); cbn; eexists; (split; [reflexivity|]); [|auto].
  by rewrite Ht', Hr'.
Qed.

Lemma getFiles_run c force sources w st :
  exists n,
    getFiles c force sources w st =
      match getFiles_loop c force (clock w n) sources [] w (set_tick (S n) st) with
      | (Ret allFiles, st1) =>
          (Ret allFiles,
           set_heap (displayNamePass (duplicateNames (namesAt (heap st1) allFiles))
                                     (heap st1) allFiles) st1)
      | (Throw e, st1) => (Throw e, st1)
      end.
Proof.
  unfold getFiles. unfold bind at 1. unfold ask at 1. unfold bind at 1.
  assert (Hq : quiet (if enableGithubAuth w then proactiveAuth else ret tt)).
  { destruct (enableGithubAuth w); [apply proactiveAuth_quiet|apply quiet_ret]. }
  destruct (Hq w st) as ([] & n & ->).
  unfold bind at 1. unfold consult at 1. cbn [tick set_tick].
  exists n. unfold bind. rewrite !set_tick_set_tick.
  destruct (getFiles_loop c force (clock w n) sources [] w (set_tick (S n) st))
    as [[allFiles|e] st1]; reflexivity.
Qed.

Lemma occurrences_snoc n names x :
  occurrences n (names ++ [x]) =
  (occurrences n names + if decide (x = n) then 1 else 0)%nat.
Proof.
  unfold occurrences. rewrite filter_app, length_app. f_equal.
  rewrite filter_cons. destruct (decide (x = n)); reflexivity.
Qed.

Lemma countName_spec names : forall acc seen,
  (forall n, default 0%nat (acc.1 !! n) = occurrences n seen) ->
  (forall n, n ∈ acc.2 <-> (2 <= occurrences n seen)%nat) ->
  (forall n, default 0%nat ((foldl countName acc names).1 !! n)
             = occurrences n (seen ++ names)) /\
  (forall n, n ∈ (foldl countName acc names).2
             <-> (2 <= occurrences n (seen ++ names))%nat).
Proof.
  induction names as [|x rest IH]; intros acc seen Hc Hd; cbn [foldl].
  - rewrite app_nil_r. auto.
  - replace (seen ++ x :: rest)%list with ((seen ++ [x]) ++ rest)%list
      by (by rewrite <- app_assoc).
    apply IH; intros n; rewrite occurrences_snoc; unfold countName; cbn [fst snd].
    + destruct (decide (x = n)) as [->|Hne].
      * rewrite lookup_insert_eq. cbn. rewrite Hc. lia.
      * rewrite lookup_insert_ne by exact Hne. rewrite Hc. lia.
    + rewrite Hc. specialize (Hd n).
      destruct (Nat.leb_spec 1 (occurrences x seen)) as [Hge|Hlt];
        destruct (decide (x = n)) as [->|Hne].
      * rewrite elem_of_union, elem_of_singleton. split; [lia|auto].
      * rewrite elem_of_union, elem_of_singleton. rewrite Hd.
        split; [intros [?|?]; [congruence|lia]|intros ?; right; lia].
      * rewrite Hd. lia.
      * rewrite Hd. lia.
Qed.

Lemma duplicateNames_spec names n :
  n ∈ duplicateNames names <-> (2 <= occurrences n names)%nat.
Proof.
  unfold duplicateNames.
  destruct (countName_spec names (∅, ∅) []) as [_ H].
  - intros m. cbn. by rewrite lookup_empty.
  - intros m. cbn. split; [intros []%not_elem_of_empty|lia].
  - apply H.
Qed.

Lemma entries_objects h c ls :
  Forall (entryAt h c) ls ->
  exists fs, objectsAt h ls fs /\
             Forall (fun f => type f = expectedType c /\ is_Some (file_repo f)) fs.
Proof.
  induction 1 as [|l ls (f & Hl & Ht & Hr) _ (fs & H1 & H2)].
  - exists []. split; constructor.
  - exists (f :: fs). split; constructor; auto.
Qed.

Lemma namesAt_objects h ls fs : objectsAt h ls fs -> namesAt h ls = map name fs.
Proof.
  unfold namesAt. induction 1 as [|l f ls fs Hl _ IH]; [reflexivity|].
  cbn [omap list_omap]. rewrite Hl. cbn. by rewrite IH.
Qed.

Lemma objects_after_pass dups h ls fs :
  objectsAt h ls fs ->
  objectsAt (displayNamePass dups h ls) ls (map (assignDisplayName dups) fs).
Proof.
  intros H. unfold objectsAt.
  assert (Hin : Forall (fun l => l ∈ ls) ls) by (apply Forall_forall; auto).
  revert Hin. generalize ls at 1 3. intros ls0 Hin.
  induction H as [|l f ls' fs' Hl _ IH]; [constructor|].
  inversion Hin as [|? ? Hl0 Hrest]; subst.
  constructor; [|apply IH; exact Hrest].
  rewrite displayNamePass_lookup, Hl, decide_True by exact Hl0. reflexivity.
Qed.

Lemma occurrences_map_name n (fs : list GitHubFile) :
  occurrences n (map name fs) = length (filter (fun g => name g = n) fs).
Proof.
  unfold occurrences. induction fs as [|f fs IH]; [reflexivity|].
  cbn [map]. rewrite !filter_cons.
  destruct (decide (name f = n)); cbn; by rewrite IH.
Qed.

Lemma two_distinct_members {A} (P : A -> Prop) `{forall x, Decision (P x)}
    (l : list A) (x y : A) :
  x ∈ l -> y ∈ l -> x <> y -> P x -> P y -> (2 <= length (filter P l))%nat.
Proof.
  intros Hx Hy Hne Px Py.
  induction l as [|a l IH]; [by apply elem_of_nil in Hx|].
  rewrite filter_cons.
  apply elem_of_cons in Hx as [->|Hx]; apply elem_of_cons in Hy as [->|Hy].
  - contradiction.
  - rewrite decide_True by exact Px. cbn.
    assert (y ∈ filter P l) by (apply list_elem_of_filter; auto).
    destruct (filter P l); [by apply elem_of_nil in H0|cbn; lia].
  - rewrite decide_True by exact Py. cbn.
    assert (x ∈ filter P l) by (apply list_elem_of_filter; auto).
    destruct (filter P l); [by apply elem_of_nil in H0|cbn; lia].
  - specialize (IH Hx Hy). destruct (decide (P a)); cbn; lia.
Qed.

Lemma map_name_assign dups fs :
  map name (map (assignDisplayName dups) fs) = map name fs.
Proof.
  rewrite map_map. apply map_ext. intros f.
  apply (assignDisplayName_fields dups f).
Qed.

(** What [getFiles] leaves behind: the invariant, and the entries of the
    result with their display names assigned from the names of the result. *)
Lemma getFiles_result c force sources w st :
  cache_wf st ->
  exists locs before,
    (getFiles c force sources w st).1 = Ret locs /\
    cache_wf (getFiles c force sources w st).2 /\
    Forall (fun f => type f = expectedType c /\ is_Some (file_repo f)) before /\
    objectsAt (heap (getFiles c force sources w st).2) locs
      (map (assignDisplayName (duplicateNames (map name before))) before).
Proof.
  intros Hwf.
  destruct (getFiles_run c force sources w st) as (n & ->).
  assert (Hwf' : cache_wf (set_tick (S n) st)) by (eapply cache_wf_same; eauto).
  destruct (getFiles_loop_wf c force (clock w n) sources w (set_tick (S n) st) []
              Hwf' (List.Forall_nil _)) as (H1 & (files & Hret & Hall) & _).
  destruct (getFiles_loop c force (clock w n) sources [] w (set_tick (S n) st))
    as [o st1]. cbn [fst snd] in *. subst o. cbn [fst snd].
  destruct (entries_objects _ _ _ Hall) as (before & Hobj & Htyped).
  exists files, before. split; [reflexivity|]. split; [|split; [exact Htyped|]].
  - intros k e Hk. cbn [set_heap cache heap] in *.
    destruct (H1 k e Hk) as [Hkey Hdata]. split; [exact Hkey|].
    eapply Forall_impl; [exact Hdata|]. intros l. apply entryAt_pass.
  - cbn [set_heap heap]. rewrite (namesAt_objects _ _ _ Hobj).
    apply objects_after_pass. exact Hobj.
Qed.

Lemma keptEntries_by_type r c entries :
  keptEntries r c entries
  = map (tagRepo r)
        (List.filter (fun raw => String.eqb (raw_type raw) (expectedType c))
                     (map fst entries)).
Proof. unfold keptEntries. f_equal. by destruct c. Qed.

Lemma objectsAt_alloc (h k : list GitHubFile) :
  objectsAt (h ++ k) (seq (length h) (length k)) k.
Proof.
  apply Forall2_same_length_lookup_2; [by rewrite length_seq|].
  intros i l f Hl Hf. apply lookup_seq in Hl as [-> _].
  rewrite lookup_app_r by lia. by replace (length h + i - length h)%nat with i by lia.
Qed.

Lemma objectsAt_app h more ls fs : objectsAt h ls fs -> objectsAt (h ++ more) ls fs.
Proof.
  unfold objectsAt. intros H. eapply Forall2_impl; [exact H|].
  intros l f. apply lookup_app_l_Some.
Qed.

(** The listing that a request of [fetchListing] brings is what it returns,
    less the entries of another type. *)
Lemma fetchListing_kept r c p now w st :
  exists new more,
    requests (fetchListing r c p now w st).2 = (requests st ++ new)%list /\
    heap (fetchListing r c p now w st).2 = (heap st ++ more)%list /\
    forall rq entries,
      In rq new -> rq_result rq = HttpList entries ->
      exists files,
        (fetchListing r c p now w st).1 = Ret files /\
        objectsAt (heap (fetchListing r c p now w st).2) files (keptEntries r c entries).
Proof.
  destruct (fetchListing_requests r c p now w st)
    as (n & hdrs & reply & prefix & Hprefix & ->).
  set (rq0 := requestFor w st (Js.truthy (baseUrl r)) (buildApiUrlForPath r p) hdrs reply).
  set (st1 := log_request rq0 (log_requests prefix (set_tick n st))).
  assert (Hh : heap st1 = heap st)
    by (subst st1; cbn [log_request heap]; by rewrite heap_log_requests).
  assert (Hr : requests st1 = (requests st ++ prefix ++ [rq0])%list).
  { subst st1. cbn [log_request requests]. rewrite requests_log_requests.
    cbn [set_tick requests]. by rewrite <- app_assoc. }
  exists (prefix ++ [rq0])%list.
  exists (match reply with HttpList entries => keptEntries r c entries | _ => [] end).
  split; [by rewrite afterListing_requests|]. split.
  { destruct reply; cbn [afterListing snd set_cache set_heap heap]; rewrite Hh;
      by rewrite ?app_nil_r. }
  intros rq entries Hin Hres.
  assert (rq = rq0) as ->.
  { apply in_app_or in Hin as [Hin|[<-|[]]]; [|reflexivity].
    destruct Hprefix as [->|(hdrs1 & e1 & _ & ->)]; [contradiction|].
    destruct Hin as [<-|[]]. discriminate Hres. }
  subst rq0. cbn [requestFor rq_result] in Hres. subst reply.
  cbn [afterListing fst snd set_cache set_heap heap]. eexists. split; [reflexivity|].
  apply objectsAt_alloc.
Qed.

Lemma getFiles_source_kept c force now r w st :
  exists files new more,
    (getFiles_source c force now r w st).1 = Ret files /\
    requests (getFiles_source c force now r w st).2 = (requests st ++ new)%list /\
    heap (getFiles_source c force now r w st).2 = (heap st ++ more)%list /\
    forall rq entries,
      In rq new -> rq_result rq = HttpList entries ->
      objectsAt (heap (getFiles_source c force now r w st).2) files
                (keptEntries r c entries).
Proof.
  unfold getFiles_source, bind, get.
  destruct (cacheHit force now (cache st !! cacheKey r c)) as [entry|].
  { exists (data entry), [], []. cbn [ret fst snd]. rewrite !app_nil_r.
    repeat split. intros rq entries []. }
  unfold try_catch.
  destruct (resolveContentPath r c) as [p|].
  2:{ exists [], [], []. cbn [ret fst snd]. rewrite !app_nil_r.
      repeat split. intros rq entries []. }
  destruct (fetchListing_kept r c p now w st) as (new & more & Hr & Hh & Hk).
  destruct (fetchListing r c p now w st) as [[fs|e] st'] eqn:E; cbn [ret fst snd] in *.
  - exists fs, new, more. repeat split; [exact Hr|exact Hh|].
    intros rq entries Hin Hres. destruct (Hk rq entries Hin Hres) as (files & [= <-] & Ho).
    exact Ho.
  - exists [], new, more. repeat split; [exact Hr|exact Hh|].
    intros rq entries Hin Hres. destruct (Hk rq entries Hin Hres) as (files & [=] & _).
Qed.

Lemma getFiles_loop_kept c force now sources w :
  forall st allFiles,
  exists all new more,
    (getFiles_loop c force now sources allFiles w st).1 = Ret all /\
    incl allFiles all /\
    requests (getFiles_loop c force now sources allFiles w st).2
    = (requests st ++ new)%list /\
    heap (getFiles_loop c force now sources allFiles w st).2 = (heap st ++ more)%list /\
    forall rq entries,
      In rq new -> rq_result rq = HttpList entries ->
      exists r files,
        In r sources /\ incl files all /\
        objectsAt (heap (getFiles_loop c force now sources allFiles w st).2) files
                  (keptEntries r c entries).
Proof.
  induction sources as [|r rest IH]; intros st allFiles; cbn [getFiles_loop].
  - exists allFiles, [], []. cbn [ret fst snd]. rewrite !app_nil_r.
    repeat split; [apply incl_refl|]. intros rq entries [].
  - unfold bind.
    destruct (getFiles_source_kept c force now r w st)
      as (files & new1 & more1 & Hret & Hr1 & Hh1 & Hk1).
    destruct (getFiles_source c force now r w st) as [o st1]. cbn [fst snd] in *.
    subst o.
    destruct (IH st1 (allFiles ++ files)%list)
      as (all & new2 & more2 & Hall & Hincl & Hr2 & Hh2 & Hk2).
    exists all, (new1 ++ new2)%list, (more1 ++ more2)%list.
    split; [exact Hall|]. split; [intros l Hl; apply Hincl, in_or_app; by left|].
    split; [by rewrite Hr2, Hr1, <- app_assoc|].
    split; [by rewrite Hh2, Hh1, <- app_assoc|].
    intros rq entries Hin Hres. apply in_app_or in Hin as [Hin|Hin].
    + exists r, files. split; [by left|].
      split; [intros l Hl; apply Hincl, in_or_app; by right|].
      rewrite Hh2. apply objectsAt_app. by apply (Hk1 rq entries).
    + destruct (Hk2 rq entries Hin Hres) as (r' & files' & Hr' & Hi' & Ho').
      exists r', files'. split; [by right|auto].
Qed.

Lemma assignDisplayName_tagged dups r raw :
  exists d, assignDisplayName dups (tagRepo r raw) = setDisplayName d (tagRepo r raw).
Proof.
  unfold assignDisplayName. cbn [tagRepo file_repo]. destruct (decide _); eauto.
Qed.

(** C10.  Listings are filtered by the type of their entries before they
    are cached and merged.  From a cache that holds filtered listings (as the
    empty cache of a new service does): every entry that [getFilesByRepo]
    returns for a category, and every entry of the merged result of
    [getFiles], is a directory when the category is skills or plugins and a
    file when it is agents, instructions or prompts; and the cache holds
    filtered listings afterwards.  Nothing else is dropped: when the last
    request of [getFilesByRepo] brings a listing, what is returned and
    cached are the entries of that listing that have the type of the
    category, all of them, in their order, tagged with the repository; and
    every such entry of every listing that [getFiles] receives is in its
    merged result, tagged with its source and with a display name. *)
Theorem listings_filtered_by_type (w : World) (st : State) (c : CopilotCategory)
    (force : bool) :
  cache_wf st ->
  (expectedType Skills = "dir" /\ expectedType Plugins = "dir" /\
   expectedType Agents = "file" /\ expectedType Instructions = "file" /\
   expectedType Prompts = "file") /\
  (forall r,
     let res := getFilesByRepo r c force w st in
     cache_wf res.2 /\
     (forall locs, res.1 = Ret locs ->
        Forall (fun l => exists f, heap res.2 !! l = Some f /\ type f = expectedType c)
               locs) /\
     (forall rq entries,
        (length (requests st) < length (requests res.2))%nat ->
        last (requests res.2) = Some rq -> rq_result rq = HttpList entries ->
        exists locs,
          res.1 = Ret locs /\
          objectsAt (heap res.2) locs
            (map (tagRepo r)
                 (List.filter (fun raw => String.eqb (raw_type raw) (expectedType c))
                              (map fst entries))) /\
          exists e, cache res.2 !! cacheKey r c = Some e /\ data e = locs)) /\
  (forall sources,
     let res := getFiles c force sources w st in
     cache_wf res.2 /\
     exists locs new,
       res.1 = Ret locs /\
       Forall (fun l => exists f, heap res.2 !! l = Some f /\ type f = expectedType c)
              locs /\
       requests res.2 = (requests st ++ new)%list /\
       forall rq entries raw,
         In rq new -> rq_result rq = HttpList entries ->
         In raw (map fst entries) -> raw_type raw = expectedType c ->
         exists l r d,
           In l locs /\ In r sources /\
           heap res.2 !! l = Some (setDisplayName d (tagRepo r raw))).
Proof.
  intros Hwf. split; [repeat split|]. split.
  - intros r res. subst res.
    destruct (getFilesByRepo_wf r c force w st Hwf) as (H1 & H2 & _).
    split; [exact H1|]. split.
    { intros locs Hret. eapply Forall_impl; [apply (H2 locs Hret)|].
      intros l (f & Hl & Ht & _). eauto. }
    intros rq entries Hgrow Hlast Hres.
    destruct (resolveContentPath r c) as [p|] eqn:Hp.
    2:{ rewrite (getFilesByRepo_excluded _ _ _ _ _ Hp) in Hgrow. cbn in Hgrow. lia. }
    destruct (cacheHit force (clock w (tick st)) (cache st !! cacheKey r c))
      as [entry|] eqn:Hhit.
    { rewrite (getFilesByRepo_hit _ _ _ _ _ _ _ Hp Hhit) in Hgrow. cbn in Hgrow. lia. }
    destruct (getFilesByRepo_miss _ _ _ _ _ _ Hp Hhit) as (n & Hrun).
    rewrite Hrun in Hlast |- *. clear Hrun Hgrow. cbn [fst snd] in *.
    destruct (fetchListing_requests r c p (clock w (tick st)) w (set_tick n st))
      as (n' & hdrs & reply & prefix & _ & Hf).
    rewrite Hf in Hlast |- *. clear Hf.
    rewrite afterListing_requests in Hlast. cbn [log_request requests] in Hlast.
    rewrite last_snoc in Hlast. injection Hlast as <-.
    cbn [requestFor rq_result] in Hres. subst reply.
    cbn [afterListing notFoundIsEmpty fst snd set_cache set_heap heap cache].
    eexists. split; [reflexivity|]. split.
    + rewrite <- keptEntries_by_type. apply objectsAt_alloc.
    + eexists. split; [apply lookup_insert_eq|reflexivity].
  - intros sources res. subst res.
    destruct (getFiles_result c force sources w st Hwf)
      as (locs & before & Hret & H1 & Htyped & Hobj).
    split; [exact H1|].
    assert (Htypes : Forall (fun l => exists f, heap (getFiles c force sources w st).2 !! l
                                               = Some f /\ type f = expectedType c) locs).
    { apply Forall_forall. intros l Hl.
      apply list_elem_of_lookup in Hl as [i Hi].
      destruct (Forall2_lookup_l _ _ _ _ _ Hobj Hi) as (f & Hf & Hlook).
      exists f. split; [exact Hlook|].
      rewrite list_lookup_fmap in Hf.
      destruct (before !! i) as [f0|] eqn:Hf0; [|discriminate]. injection Hf as <-.
      destruct (assignDisplayName_fields (duplicateNames (map name before)) f0)
        as (_ & -> & _).
      rewrite Forall_forall in Htyped.
      apply (Htyped f0). eapply list_elem_of_lookup_2, Hf0. }
    destruct (getFiles_run c force sources w st) as (n & Hrun).
    destruct (getFiles_loop_kept c force (clock w n) sources w (set_tick (S n) st) [])
      as (all & new & more & Hall & _ & Hr & Hh & Hk).
    destruct (getFiles_loop c force (clock w n) sources [] w (set_tick (S n) st))
      as [o st1] eqn:Eloop.
    cbn [fst snd] in *. subst o. rewrite Hrun in Hret, Htypes |- *.
    cbn [fst snd] in *. injection Hret as <-.
    exists all, new. split; [reflexivity|]. split; [exact Htypes|].
    split; [exact Hr|].
    intros rq entries raw Hin Hres Hraw Htype.
    destruct (Hk rq entries Hin Hres) as (r & files & Hsrc & Hincl & Hobjs).
    assert (Hkept : In (tagRepo r raw) (keptEntries r c entries)).
    { unfold keptEntries. apply in_map, filter_In. split; [exact Hraw|].
      by apply keepEntry_type. }
    apply list_elem_of_In, list_elem_of_lookup in Hkept as [i Hi].
    destruct (Forall2_lookup_r _ _ _ _ _ Hobjs Hi) as (l & Hl & Hlook).
    destruct (assignDisplayName_tagged
                (duplicateNames (namesAt (heap st1) all)) r raw) as [d Hd].
    exists l, r, d.
    split; [apply Hincl, list_elem_of_In; eapply list_elem_of_lookup_2, Hl|].
    split; [exact Hsrc|].
    cbn [set_heap heap]. rewrite displayNamePass_lookup, Hlook.
    destruct (decide _) as [_|Hout]; [rewrite <- Hd; reflexivity|].
    exfalso. apply Hout, list_elem_of_In, Hincl, list_elem_of_In.
    eapply list_elem_of_lookup_2, Hl.
Qed.

Lemma listings_filtered_by_type_witness :
  let res := getFilesByRepo defaultRepo Plugins false mixedWorld initialState in
  exists locs,
    res.1 = Ret locs /\
    objectsAt (heap res.2) locs [tagRepo defaultRepo rawDemoDir].
Proof.
  intros res.
  destruct (listings_filtered_by_type mixedWorld initialState Plugins false
              cache_wf_initial) as (_ & H & _).
  destruct (H defaultRepo) as (_ & _ & Hkept).
  edestruct Hkept as (locs & Hret & Hobj & _).
  - vm_compute. lia.
  - vm_compute. reflexivity.
  - reflexivity.
  - exists locs. split; [exact Hret|exact Hobj].
Defined.

(** C5.  From a cache that holds filtered listings, [getFiles] returns its
    merged result with every display name set.  Every entry has a
    repository; if its name occurs in entries of the result that come from
    two different repositories, its display name is
    ["{name} ({owner}/{repo})"] with its own repository; if its name occurs
    once in the result, its display name is its name. *)
Theorem getFiles_displayName (w : World) (st : State) (c : CopilotCategory)
    (force : bool) (sources : list RepoSource) :
  cache_wf st ->
  let res := getFiles c force sources w st in
  exists locs merged,
    res.1 = Ret locs /\
    objectsAt (heap res.2) locs merged /\
    forall f, f ∈ merged ->
      exists r,
        file_repo f = Some r /\
        ((exists g1 g2,
            g1 ∈ merged /\ g2 ∈ merged /\
            name g1 = name f /\ name g2 = name f /\
            file_repo g1 <> file_repo g2) ->
         displayName f = Some (name f ++ " (" ++ owner r ++ "/" ++ repo r ++ ")")) /\
        (length (filter (fun g => name g = name f) merged) = 1%nat ->
         displayName f = Some (name f)).
Proof.
  intros Hwf res. subst res.
  destruct (getFiles_result c force sources w st Hwf)
    as (locs & before & Hret & _ & Htyped & Hobj).
  set (dups := duplicateNames (map name before)) in *.
  exists locs, (map (assignDisplayName dups) before).
  split; [exact Hret|]. split; [exact Hobj|].
  intros f Hf. apply list_elem_of_fmap in Hf as (f0 & -> & Hf0).
  rewrite Forall_forall in Htyped.
  destruct (Htyped f0 Hf0) as [_ [r Hr]].
  destruct (assignDisplayName_fields dups f0) as (Hname & _ & Hrepo).
  exists r. split; [congruence|].
  assert (Hdup : name f0 ∈ dups <->
                 (2 <= length (filter (fun g => name g = name f0)
                                      (map (assignDisplayName dups) before)))%nat).
  { unfold dups at 1. rewrite duplicateNames_spec.
    rewrite <- (map_name_assign dups before), occurrences_map_name. reflexivity. }
  rewrite Hname. split.
  - intros (g1 & g2 & Hg1 & Hg2 & Hn1 & Hn2 & Hne).
    assert (Hin : name f0 ∈ dups).
    { apply Hdup.
      apply (two_distinct_members (fun g => name g = name f0) _ g1 g2); auto.
      intros ->. contradiction. }
    unfold assignDisplayName. rewrite Hr, decide_True by exact Hin. reflexivity.
  - intros Hone.
    assert (Hout : name f0 ∉ dups) by (rewrite Hdup; lia).
    unfold assignDisplayName. rewrite Hr, decide_False by exact Hout. reflexivity.
Qed.

Lemma getFiles_displayName_witness :
  let res := getFiles Instructions false [repoOne; repoTwo] twoRepoWorld initialState in
  exists locs merged,
    res.1 = Ret locs /\
    objectsAt (heap res.2) locs merged /\
    forall f, f ∈ merged ->
      exists r,
        file_repo f = Some r /\
        ((exists g1 g2,
            g1 ∈ merged /\ g2 ∈ merged /\
            name g1 = name f /\ name g2 = name f /\
            file_repo g1 <> file_repo g2) ->
         displayName f = Some (name f ++ " (" ++ owner r ++ "/" ++ repo r ++ ")")) /\
        (length (filter (fun g => name g = name f) merged) = 1%nat ->
         displayName f = Some (name f)).
Proof.
  exact (getFiles_displayName twoRepoWorld initialState Instructions false
           [repoOne; repoTwo] cache_wf_initial).
Defined.

(** The example of the spec, computed: two repositories with [x.md] each,
    one of them with [y.md]. *)
Lemma getFiles_displayName_example :
  let res := getFiles Instructions false [repoOne; repoTwo] twoRepoWorld initialState in
  res.1 = Ret [0; 1; 2]%nat /\
  map (fun f => (name f, displayName f)) (heap res.2) =
    [("x.md", Some "x.md (octo/one)");
     ("x.md", Some "x.md (octo/two)");
     ("y.md", Some "y.md")].
Proof. split; vm_compute; reflexivity. Qed.

(** The invariant holds in a new service and every method of the service
    maintains it. *)
Lemma cache_wf_invariant (w : World) (st : State) :
  cache_wf initialState /\
  (cache_wf st ->
   (forall c force sources, cache_wf (getFiles c force sources w st).2) /\
   (forall r c force, cache_wf (getFilesByRepo r c force w st).2) /\
   (forall url, cache_wf (getFileContent url w st).2) /\
   (forall r p, cache_wf (getFileContentByPath r p w st).2) /\
   (forall r p, cache_wf (getDirectoryContents r p w st).2) /\
   (forall r dir, cache_wf (parsePluginJson r dir w st).2) /\
   cache_wf (clearCache w st).2 /\
   (forall r, cache_wf (clearRepoCache r w st).2) /\
   (forall r c, cache_wf (clearCategoryCache r c w st).2)).
Proof.
  split; [apply cache_wf_initial|]. intros Hwf.
  destruct service_storeKept as (K1 & K2 & K3 & K4).
  repeat apply conj.
  - intros c force sources.
    by destruct (getFiles_result c force sources w st Hwf) as (? & ? & _ & H & _).
  - intros r c force. by destruct (getFilesByRepo_wf r c force w st Hwf) as [H _].
  - intros url. destruct (K1 url w st). by eapply cache_wf_same.
  - intros r p. destruct (K2 r p w st). by eapply cache_wf_same.
  - intros r p. destruct (K3 r p w st). by eapply cache_wf_same.
  - intros r dir. destruct (K4 r dir w st). by eapply cache_wf_same.
  - intros k e Hk. cbn in Hk. by rewrite lookup_empty in Hk.
  - intros r k e Hk. cbn in Hk. apply map_lookup_filter_Some in Hk as [Hk _].
    apply (Hwf k e Hk).
  - intros r c k e Hk. cbn in Hk. apply lookup_delete_Some in Hk as [_ Hk].
    apply (Hwf k e Hk).
Qed.

(** ** The plugin download *)

Ltac frame_step :=
  lazymatch goal with
  | |- keeps _ (bind _ _) => eapply keeps_bind; [eassumption| |intros ?]
  | |- keeps _ (try_catch _ _) => eapply keeps_try_catch; [eassumption| |intros ?]
  | |- keeps _ (ret _) => eapply keeps_ret; eassumption
  | |- keeps _ (throw _) => eapply keeps_throw; eassumption
  | |- keeps _ (ask _) => eapply keeps_ask; eassumption
  | |- keeps _ (get _) => eapply keeps_get; eassumption
  | |- keeps _ (consult _) => eapply keeps_consult; eassumption
  | |- keeps _ (forEach _ _) => eapply keeps_forEach; [eassumption|eassumption|intros ?]
  | |- keeps _ (getDirectoryContents _ _) =>
      eapply getDirectoryContents_keeps; eassumption
  | |- keeps _ (getFileContent _) => eapply getFileContent_keeps; eassumption
  | |- keeps _ (getFileContentByPath _ _) =>
      eapply getFileContentByPath_keeps; eassumption
  | |- keeps _ (parsePluginJson _ _) => eapply parsePluginJson_keeps; eassumption
  | |- keeps _ (if ?b then _ else _) => destruct b
  | |- keeps _ (match ?x with _ => _ end) => destruct x
  end.

Section DownloadFrames.

Variable R : World -> State -> State -> Prop.
Hypothesis R_refl : forall w st, R w st st.
Hypothesis R_trans : forall w st1 st2 st3, R w st1 st2 -> R w st2 st3 -> R w st1 st3.
Hypothesis R_tick : forall w st n, R w st (set_tick n st).
Hypothesis R_request : forall w st ent url hdrs reply,
  R w st (log_request (requestFor w st ent url hdrs reply) st).
Hypothesis R_cache : forall w st c, R w st (set_cache c st).
Hypothesis R_fs : forall w st call, R w st (log_fs call st).
Hypothesis R_message : forall w st text, R w st (log_message text st).

Lemma keeps_log_fs call : keeps R (modify (log_fs call)).
Proof. intros w st. apply R_fs. Qed.

Lemma existsSync_keeps p : keeps R (existsSync p).
Proof. unfold existsSync. repeat first [apply keeps_log_fs | frame_step]. Qed.

Lemma fsCall_keeps call : keeps R (fsCall call).
Proof. unfold fsCall. repeat first [apply keeps_log_fs | frame_step]. Qed.

Lemma writeFileSync_keeps p content : keeps R (writeFileSync p content).
Proof. unfold writeFileSync. repeat first [apply fsCall_keeps | frame_step]. Qed.

Lemma readFileSync_keeps p : keeps R (readFileSync p).
Proof.
  unfold readFileSync. repeat first [apply keeps_log_fs | frame_step].
  intros w st. apply R_refl.
Qed.

Lemma ensureDir_keeps p : keeps R (ensureDir p).
Proof.
  unfold ensureDir, mkdirSync.
  repeat first [apply existsSync_keeps | apply fsCall_keeps | frame_step].
Qed.

Lemma readTemplate_keeps paths : keeps R (readTemplate paths).
Proof.
  induction paths as [|p rest IH]; cbn [readTemplate].
  - frame_step.
  - repeat first [apply existsSync_keeps | apply readFileSync_keeps | exact IH
                 | frame_step].
Qed.

Lemma generateNoteContent_keeps readme pluginName :
  keeps R (generateNoteContent readme pluginName).
Proof.
  unfold generateNoteContent.
  repeat first [apply readTemplate_keeps | frame_step].
Qed.

Lemma downloadPluginItem_keeps item fsPath pluginItem category :
  keeps R (downloadPluginItem item fsPath pluginItem category).
Proof.
  unfold downloadPluginItem, mkdirSync, rmSync.
  repeat first [apply ensureDir_keeps | apply existsSync_keeps | apply fsCall_keeps
               | apply writeFileSync_keeps | frame_step].
Qed.

Lemma downloadOne_keeps item fsPath pluginItem t :
  keeps R (downloadOne item fsPath pluginItem t).
Proof.
  unfold downloadOne.
  repeat first [apply downloadPluginItem_keeps | frame_step].
Qed.

Lemma downloadPluginItems_keeps item fsPath pluginItems :
  forall t, keeps R (downloadPluginItems item fsPath pluginItems t).
Proof.
  induction pluginItems as [|pluginItem rest IH]; intros t; cbn [downloadPluginItems].
  - frame_step.
  - repeat first [apply downloadOne_keeps | apply IH | frame_step].
Qed.

Lemma saveSubfolder_keeps folder pluginDir topLevelItems pluginContents :
  keeps R (saveSubfolder folder pluginDir topLevelItems pluginContents).
Proof.
  unfold saveSubfolder.
  repeat first [apply ensureDir_keeps | apply writeFileSync_keeps | frame_step].
Qed.

Lemma saveManifestCopy_keeps pluginDir meta : keeps R (saveManifestCopy pluginDir meta).
Proof.
  unfold saveManifestCopy.
  repeat first [apply ensureDir_keeps | apply writeFileSync_keeps | frame_step].
Qed.

Lemma saveReadme_keeps pluginDir topLevelItems :
  keeps R (saveReadme pluginDir topLevelItems).
Proof.
  unfold saveReadme. repeat first [apply writeFileSync_keeps | frame_step].
Qed.

Lemma saveNote_keeps pluginDir readme pluginName :
  keeps R (saveNote pluginDir readme pluginName).
Proof.
  unfold saveNote.
  repeat first [apply writeFileSync_keeps | apply generateNoteContent_keeps | frame_step].
Qed.

Lemma savePluginFiles_keeps item fullTargetPath meta :
  keeps R (savePluginFiles item fullTargetPath meta).
Proof.
  unfold savePluginFiles.
  repeat first [apply ensureDir_keeps | apply saveManifestCopy_keeps
               | apply saveSubfolder_keeps | apply saveReadme_keeps
               | apply saveNote_keeps | frame_step].
Qed.

Lemma recordDownload_keeps : keeps R recordDownload.
Proof. unfold recordDownload. repeat frame_step. Qed.

Lemma clearCategoryCache_keeps r c : keeps R (clearCategoryCache r c).
Proof. intros w st. apply R_cache. Qed.

Lemma showMessage_keeps text : keeps R (showMessage text).
Proof. intros w st. apply R_message. Qed.

(** What follows the loop in [downloadPluginBundle]. *)
Lemma afterItems_keeps item fsPath meta total t :
  keeps R
    (do! savePluginFiles item fsPath meta in
     do! recordDownload in
     do! clearCategoryCache (ci_repo item) (ci_category item) in
     do! showMessage (summaryMessage meta total t) in
     ret t).
Proof.
  repeat first [apply savePluginFiles_keeps | apply recordDownload_keeps
               | apply clearCategoryCache_keeps | apply showMessage_keeps
               | frame_step].
Qed.

End DownloadFrames.

Lemma logsGrow_refl w st : logsGrow w st st.
Proof. split; exists []; by rewrite app_nil_r. Qed.

Lemma logsGrow_trans w st1 st2 st3 :
  logsGrow w st1 st2 -> logsGrow w st2 st3 -> logsGrow w st1 st3.
Proof.
  intros [[c1 H1] [m1 H2]] [[c2 H3] [m2 H4]]. split.
  - exists (c1 ++ c2)%list. rewrite H3, H1. by rewrite <- app_assoc.
  - exists (m1 ++ m2)%list. rewrite H4, H2. by rewrite <- app_assoc.
Qed.

Lemma logsGrow_same w st st' :
  fs_calls st' = fs_calls st -> messages st' = messages st -> logsGrow w st st'.
Proof. intros H1 H2. split; exists []; by rewrite app_nil_r. Qed.

Lemma logsGrow_tick w st n : logsGrow w st (set_tick n st).
Proof. by apply logsGrow_same. Qed.

Lemma logsGrow_fs w st call : logsGrow w st (log_fs call st).
Proof. split; [by eexists|exists []; by rewrite app_nil_r]. Qed.

Lemma logsGrow_message w st text : logsGrow w st (log_message text st).
Proof. split; [exists []; by rewrite app_nil_r|by eexists]. Qed.

Lemma logsGrow_In w st st' call :
  logsGrow w st st' -> In call (fs_calls st) -> In call (fs_calls st').
Proof. intros [[calls ->] _] H. apply in_or_app. by left. Qed.

Lemma tally_downloaded entry t :
  downloadedCount (downloaded entry t) = S (downloadedCount t) /\
  errorCount (downloaded entry t) = errorCount t /\
  downloadedFiles (downloaded entry t) = (downloadedFiles t ++ [entry])%list /\
  failedFiles (downloaded entry t) = failedFiles t.
Proof. repeat split. Qed.

Lemma tally_failed entry t :
  downloadedCount (failed entry t) = downloadedCount t /\
  errorCount (failed entry t) = S (errorCount t) /\
  downloadedFiles (failed entry t) = downloadedFiles t /\
  failedFiles (failed entry t) = (failedFiles t ++ [entry])%list.
Proof. repeat split. Qed.

(** One turn of the loop never throws, and counts the item once: as
    downloaded when the body returns, as failed, under its path, when the
    body throws. *)
Lemma downloadOne_run item fsPath it t w st cat :
  KIND_TO_CATEGORY (item_kind it) = Some cat ->
  downloadOne item fsPath it t w st =
    match downloadPluginItem item fsPath it cat w st with
    | (Ret entry, st') => (Ret (downloaded entry t), st')
    | (Throw _, st') => (Ret (failed (item_path it) t), st')
    end.
Proof.
  intros Hk. unfold downloadOne, try_catch, bind. rewrite Hk.
  destruct (downloadPluginItem item fsPath it cat w st) as [[entry|e] st']; reflexivity.
Qed.

Lemma downloadPluginItems_app item fsPath pre post t w st :
  downloadPluginItems item fsPath (pre ++ post) t w st =
    match downloadPluginItems item fsPath pre t w st with
    | (Ret t1, st1) => downloadPluginItems item fsPath post t1 w st1
    | (Throw e, st1) => (Throw e, st1)
    end.
Proof.
  revert t st. induction pre as [|it pre IH]; intros t st; cbn [app downloadPluginItems].
  - reflexivity.
  - unfold bind. destruct (downloadOne item fsPath it t w st) as [[t1|e] st1];
      [apply IH|reflexivity].
Qed.

(** The loop never throws and counts every item exactly once. *)
Lemma downloadPluginItems_run item fsPath items w :
  Forall knownKind items ->
  forall t st,
  exists t' st' succeeded failures,
    downloadPluginItems item fsPath items t w st = (Ret t', st') /\
    downloadedCount t' = (downloadedCount t + length succeeded)%nat /\
    errorCount t' = (errorCount t + length failures)%nat /\
    downloadedFiles t' = (downloadedFiles t ++ succeeded)%list /\
    failedFiles t' = (failedFiles t ++ failures)%list /\
    (length succeeded + length failures = length items)%nat /\
    sublist failures (map item_path items).
Proof.
  induction 1 as [|it rest [cat Hcat] _ IH]; intros t st; cbn [downloadPluginItems].
  - exists t, st, [], []. cbn. rewrite !app_nil_r, !Nat.add_0_r.
    repeat split. constructor.
  - unfold bind. rewrite (downloadOne_run _ _ _ _ _ _ _ Hcat).
    destruct (downloadPluginItem item fsPath it cat w st) as [[entry|e] st1].
    + destruct (IH (downloaded entry t) st1)
        as (t' & st' & succeeded & failures & -> & Hd & He & Hdf & Hff & Hlen & Hsub).
      exists t', st', (entry :: succeeded), failures. cbn in *.
      repeat split; try lia.
      * rewrite Hdf. by rewrite <- app_assoc.
      * exact Hff.
      * by apply sublist_cons.
    + destruct (IH (failed (item_path it) t) st1)
        as (t' & st' & succeeded & failures & -> & Hd & He & Hdf & Hff & Hlen & Hsub).
      exists t', st', succeeded, (item_path it :: failures). cbn in *.
      repeat split; try lia.
      * exact Hdf.
      * rewrite Hff. by rewrite <- app_assoc.
      * by apply sublist_skip.
Qed.

Lemma knownKind_valid (j : json) : validItem j -> knownKind (toPluginItem j).
Proof.
  intros (fields & p & k & -> & Hp & _ & Hk & Hin).
  unfold knownKind, toPluginItem. cbn [item_kind]. rewrite Hk. cbn [asString].
  destruct Hin as [<-|[<-|[<-|[<-|[]]]]]; cbn; eauto.
Qed.

Lemma validated_items_known parsed dir meta :
  validateMetadata parsed dir = Ret meta -> Forall knownKind (itemsOf meta).
Proof.
  destruct parsed as [raw|]; [|discriminate].
  intros H. apply validateMetadata_accepts in H as (_ & (items & Hitems & Hvalid) & ->).
  rewrite itemsOf_withId. unfold itemsOf. rewrite Hitems.
  apply Forall_map. eapply Forall_impl; [exact Hvalid|]. apply knownKind_valid.
Qed.

Lemma fsCall_ok call w st :
  fs_failure w (tick st) = None ->
  fsCall call w st = (Ret tt, log_fs (call None) (set_tick (S (tick st)) st)).
Proof.
  intros H. unfold fsCall, bind, consult, modify. cbn [tick set_tick]. rewrite H.
  reflexivity.
Qed.

Lemma existsSync_run p w st :
  existsSync p w st =
    (Ret (fs_exists w (tick st)),
     log_fs (ExistsSync p (fs_exists w (tick st))) (set_tick (S (tick st)) st)).
Proof. reflexivity. Qed.

Lemma ensureDir_ok p w st :
  (forall k, fs_failure w k = None) ->
  exists st', ensureDir p w st = (Ret tt, st') /\ logsGrow w st st'.
Proof.
  intros Hok. unfold ensureDir, bind. rewrite existsSync_run.
  destruct (fs_exists w (tick st)); cbn [negb].
  - eexists. split; [reflexivity|].
    eapply logsGrow_trans; [apply (logsGrow_tick w st (S (tick st)))|apply logsGrow_fs].
  - unfold mkdirSync. rewrite fsCall_ok by apply Hok. eexists. split; [reflexivity|].
    eapply logsGrow_trans; [apply (logsGrow_tick w st (S (tick st)))|].
    eapply logsGrow_trans; [apply logsGrow_fs|].
    eapply logsGrow_trans; [apply logsGrow_tick|apply logsGrow_fs].
Qed.

Lemma logsGrow_keeps {A} (m : M A) :
  (forall R : World -> State -> State -> Prop,
     (forall w st, R w st st) ->
     (forall w st1 st2 st3, R w st1 st2 -> R w st2 st3 -> R w st1 st3) ->
     (forall w st n, R w st (set_tick n st)) ->
     (forall w st ent url hdrs reply,
        R w st (log_request (requestFor w st ent url hdrs reply) st)) ->
     (forall w st c, R w st (set_cache c st)) ->
     (forall w st call, R w st (log_fs call st)) ->
     (forall w st text, R w st (log_message text st)) ->
     keeps R m) ->
  keeps logsGrow m.
Proof.
  intros H. apply H.
  - exact logsGrow_refl.
  - exact logsGrow_trans.
  - exact logsGrow_tick.
  - intros. by apply logsGrow_same.
  - intros. by apply logsGrow_same.
  - exact logsGrow_fs.
  - exact logsGrow_message.
Qed.

Ltac logs_grow lemma :=
  apply logsGrow_keeps; intros R ? ? ? ? ? ? ?; eapply lemma; eassumption.

Lemma writeFileSync_ok p text w st :
  diskWorks w ->
  writeFileSync p (DText text) w st =
    (Ret tt, log_fs (WriteFileSync p text None) (set_tick (S (tick st)) st)).
Proof. intros H. unfold writeFileSync. apply fsCall_ok, H. Qed.

Lemma In_log_fs call st : In call (fs_calls (log_fs call st)).
Proof. cbn. apply in_or_app. right. by left. Qed.

Lemma saveManifestCopy_ok pluginDir meta w st :
  diskWorks w ->
  exists st',
    saveManifestCopy pluginDir meta w st = (Ret tt, st') /\
    In (WriteFileSync
          (path_join w [path_join w [pluginDir; ".github"; "plugin"]; "plugin.json"])
          (JSON_stringify w meta) None)
       (fs_calls st').
Proof.
  intros Hok. unfold saveManifestCopy, bind, ask, try_catch.
  destruct (ensureDir_ok (path_join w [pluginDir; ".github"; "plugin"]) w st Hok)
    as (st1 & -> & _).
  rewrite (writeFileSync_ok _ _ _ _ Hok). eexists. split; [reflexivity|].
  apply In_log_fs.
Qed.

Lemma forEach_total {A} (xs : list A) (body : A -> M unit) w :
  (forall x st, exists st', body x w st = (Ret tt, st')) ->
  forall st, exists st', forEach xs body w st = (Ret tt, st').
Proof.
  intros Hbody. induction xs as [|x rest IH]; intros st; cbn [forEach].
  - by eexists.
  - unfold bind. destruct (Hbody x st) as (st1 & ->). apply IH.
Qed.

Lemma caught_total (m : M unit) w st :
  exists st', try_catch m (fun _ => ret tt) w st = (Ret tt, st').
Proof.
  unfold try_catch. destruct (m w st) as [[[]|e] st']; by eexists.
Qed.

Lemma saveSubfolder_ok folder pluginDir topLevelItems pluginContents w st :
  diskWorks w ->
  exists st',
    saveSubfolder folder pluginDir topLevelItems pluginContents w st = (Ret tt, st').
Proof.
  intros Hok. unfold saveSubfolder. unfold bind at 1, ask at 1. unfold bind at 1, ask at 1.
  destruct (List.find _ _) as [dir|]; [|by eexists].
  unfold bind at 1.
  destruct (ensureDir_ok (path_join w [pluginDir; folder]) w st Hok) as (st1 & -> & _).
  apply forEach_total. intros f s. apply caught_total.
Qed.

Lemma readTemplate_ok paths w :
  diskWorks w -> forall st, exists found st', readTemplate paths w st = (Ret found, st').
Proof.
  intros Hok. induction paths as [|p rest IH]; intros st; cbn [readTemplate].
  - by do 2 eexists.
  - unfold bind. rewrite existsSync_run. destruct (fs_exists w (tick st)).
    + unfold readFileSync, bind, consult, modify. cbn [tick set_tick]. rewrite Hok.
      by do 2 eexists.
    + apply IH.
Qed.

(** With a disk that does not fail, the note of a README that is a string
    is made. *)
Lemma generateNoteContent_ok text pluginName w st :
  diskWorks w ->
  exists note st', generateNoteContent (DText text) pluginName w st = (Ret note, st').
Proof.
  intros Hok. unfold generateNoteContent.
  unfold bind at 1, ask at 1. unfold bind at 1, ask at 1. unfold bind at 1.
  match goal with |- context [readTemplate ?paths w st] =>
    destruct (readTemplate_ok paths w Hok st) as (found & st' & ->) end.
  destruct (extractSlashCommands text pluginName); by do 2 eexists.
Qed.

Lemma saveNote_ok pluginDir text pluginName w st :
  diskWorks w ->
  exists note st',
    generateNoteContent (DText text) pluginName w st = (Ret note, st') /\
    saveNote pluginDir (DText text) pluginName w st =
      (Ret tt, log_fs (WriteFileSync (path_join w [pluginDir; NOTE_FILE]) note None)
                 (set_tick (S (tick st')) st')).
Proof.
  intros Hok.
  destruct (generateNoteContent_ok text pluginName w st Hok) as (note & st' & Hnote).
  exists note, st'. split; [exact Hnote|].
  unfold saveNote. unfold bind at 1, ask at 1. unfold bind at 1. rewrite Hnote.
  apply (writeFileSync_ok _ _ _ _ Hok).
Qed.

(** The README step never throws. *)
Lemma saveReadme_total pluginDir topLevelItems w st :
  exists readme st', saveReadme pluginDir topLevelItems w st = (Ret readme, st').
Proof.
  unfold saveReadme. unfold bind at 1, ask at 1.
  destruct (List.find _ _) as [readmeFile|]; [|by do 2 eexists].
  unfold try_catch at 1, bind at 1.
  destruct (getFileContent (download_url readmeFile) w st) as [[content|e] st1];
    [|by do 2 eexists].
  unfold try_catch, bind.
  destruct (writeFileSync _ content w st1) as [[[]|e] st2]; by do 2 eexists.
Qed.

(** A README that is there and can be read is written, on a disk that does
    not fail. *)
Lemma saveReadme_ok pluginDir topLevelItems readmeFile text w st st1 :
  diskWorks w ->
  readmeOf topLevelItems = Some readmeFile ->
  getFileContent (download_url readmeFile) w st = (Ret (DText text), st1) ->
  saveReadme pluginDir topLevelItems w st =
    (Ret (DText text),
     log_fs (WriteFileSync (path_join w [pluginDir; "README.md"]) text None)
       (set_tick (S (tick st1)) st1)).
Proof.
  intros Hok Hfind Hget. unfold saveReadme. unfold bind at 1, ask at 1.
  unfold readmeOf in Hfind. rewrite Hfind.
  unfold try_catch at 1, bind at 1. rewrite Hget.
  unfold try_catch, bind. by rewrite (writeFileSync_ok _ _ _ _ Hok).
Qed.

Lemma caught_grows (m : M unit) w st :
  keeps logsGrow m -> logsGrow w st (try_catch m (fun _ => ret tt) w st).2.
Proof.
  intros Hm. apply (keeps_try_catch logsGrow logsGrow_trans); [exact Hm|].
  intros e. apply keeps_ret, logsGrow_refl.
Qed.

(** What [savePluginFiles] leaves on a disk that does not fail: it does not
    throw; the copy of the manifest is written; and when the listing of the
    plugin directory comes in, a README that can be read is written and the
    note of the README is written. *)
Lemma savePluginFiles_persists item target meta w st :
  diskWorks w ->
  let pluginDir := path_join w [target; idOrName meta item] in
  let final := (savePluginFiles item target meta w st).2 in
  (savePluginFiles item target meta w st).1 = Ret tt /\
  In (WriteFileSync
        (path_join w [path_join w [pluginDir; ".github"; "plugin"]; "plugin.json"])
        (JSON_stringify w meta) None)
     (fs_calls final) /\
  forall contents s3,
    getDirectoryContents (ci_repo item) (path (ci_file item)) w
      (listingState item target meta w st) = (Ret contents, s3) ->
    let s5 := readmeState item pluginDir contents w s3 in
    exists readme s6,
      saveReadme pluginDir (topLevel item contents) w s5 = (Ret readme, s6) /\
      (forall f text s',
         readmeOf (topLevel item contents) = Some f ->
         getFileContent (download_url f) w s5 = (Ret (DText text), s') ->
         readme = DText text /\
         In (WriteFileSync (path_join w [pluginDir; "README.md"]) text None)
            (fs_calls final)) /\
      (forall text,
         readme = DText text ->
         exists note s7,
           generateNoteContent readme (idOrName meta item) w s6 = (Ret note, s7) /\
           In (WriteFileSync (path_join w [pluginDir; NOTE_FILE]) note None)
              (fs_calls final)).
Proof.
  intros Hok pluginDir final.
  destruct (ensureDir_ok pluginDir w st Hok) as (s1 & E1 & _).
  destruct (saveManifestCopy_ok pluginDir meta w s1 Hok) as (s2 & E2 & Hmanifest).
  assert (Hlist : listingState item target meta w st = s2).
  { unfold listingState, bind. fold pluginDir. by rewrite E1, E2. }
  rewrite Hlist.
  pose proof (eq_refl (savePluginFiles item target meta w st)) as Hrun.
  unfold savePluginFiles at 2 in Hrun. unfold bind at 1, ask at 1 in Hrun.
  fold pluginDir in Hrun. unfold bind at 1 in Hrun. rewrite E1 in Hrun.
  unfold bind at 1 in Hrun. rewrite E2 in Hrun.
  subst final. rewrite Hrun. clear Hrun.
  match goal with |- context [try_catch ?m _ w s2] => set (body := m) end.
  assert (Hbody : keeps logsGrow body).
  { subst body. apply logsGrow_keeps. intros R ? ? ? ? ? ? ?.
    repeat first [eapply saveSubfolder_keeps; eassumption
                 | eapply saveReadme_keeps; eassumption
                 | eapply saveNote_keeps; eassumption
                 | frame_step]. }
  split; [|split].
  - destruct (caught_total body w s2) as (s' & ->). reflexivity.
  - eapply logsGrow_In; [apply caught_grows, Hbody|exact Hmanifest].
  - intros contents s3 Hdir s5'.
    destruct (saveSubfolder_ok "agents" pluginDir (topLevel item contents) contents
                w s3 Hok) as (s4 & E4).
    destruct (saveSubfolder_ok "commands" pluginDir (topLevel item contents) contents
                w s4 Hok) as (s5 & E5).
    assert (Hs5 : s5' = s5).
    { subst s5'. unfold readmeState, bind. by rewrite E4, E5. }
    rewrite Hs5. clear Hs5 s5'.
    destruct (saveReadme_total pluginDir (topLevel item contents) w s5)
      as (readme & s6 & Hreadme).
    remember (try_catch body (fun _ => ret tt) w s2) as run eqn:Hrun.
    unfold try_catch in Hrun. subst body. unfold bind at 1 in Hrun.
    rewrite Hdir in Hrun. unfold bind at 1 in Hrun. rewrite E4 in Hrun.
    unfold bind at 1 in Hrun. rewrite E5 in Hrun. unfold bind at 1 in Hrun.
    rewrite Hreadme in Hrun. rewrite Hrun. clear Hrun.
    exists readme, s6. split; [exact Hreadme|]. split.
    + intros f text s' Hf Hget.
      rewrite (saveReadme_ok _ _ _ _ _ _ _ Hok Hf Hget) in Hreadme.
      injection Hreadme as <- <-. split; [reflexivity|].
      match goal with |- In _ (fs_calls (let (_, _) := ?m w ?s in _).2) =>
        assert (Hgrow : logsGrow w s (m w s).2)
          by (apply (logsGrow_keeps m);
              intros R ? ? ? ? ? ? ?; eapply saveNote_keeps; eassumption);
        destruct (m w s) as [[[]|e] s7]; cbn [snd] in Hgrow |- * end;
        (eapply logsGrow_In; [exact Hgrow|apply In_log_fs]).
    + intros text ->.
      destruct (saveNote_ok pluginDir text (idOrName meta item) w s6 Hok)
        as (note & s7 & Hnote & ->).
      exists note, s7. split; [exact Hnote|]. apply In_log_fs.
Qed.

Lemma tally_lengths item fsPath items w t st t' st' :
  downloadPluginItems item fsPath items t w st = (Ret t', st') ->
  length (downloadedFiles t) = downloadedCount t ->
  length (failedFiles t) = errorCount t ->
  length (downloadedFiles t') = downloadedCount t' /\
  length (failedFiles t') = errorCount t'.
Proof.
  revert t st. induction items as [|it rest IH]; intros t st; cbn [downloadPluginItems].
  - intros [= <- <-]. auto.
  - unfold bind, downloadOne, try_catch.
    destruct (KIND_TO_CATEGORY (item_kind it)) as [cat|].
    + unfold bind. destruct (downloadPluginItem item fsPath it cat w st) as [[entry|e] s1];
        intros Hrun Hd Hf; apply IH in Hrun; auto; cbn; rewrite ?length_app; cbn; lia.
    + intros Hrun Hd Hf; apply IH in Hrun; auto; cbn; rewrite ?length_app; cbn; lia.
Qed.

(** Each item is counted where the run of its body says: as downloaded when
    the body returns, under its path as failed when the body throws; and
    the loop has gone on from the items before it. *)
Lemma downloadPluginItems_each item fsPath w pre it post t st t' st' :
  Forall knownKind (pre ++ it :: post) ->
  downloadPluginItems item fsPath (pre ++ it :: post) t w st = (Ret t', st') ->
  exists t0 s0 cat,
    downloadPluginItems item fsPath pre t w st = (Ret t0, s0) /\
    KIND_TO_CATEGORY (item_kind it) = Some cat /\
    match downloadPluginItem item fsPath it cat w s0 with
    | (Ret entry, _) => In entry (downloadedFiles t')
    | (Throw _, _) => In (item_path it) (failedFiles t')
    end.
Proof.
  intros Hknown Hrun. apply Forall_app in Hknown as [Hpre Hrest].
  apply Forall_cons_iff in Hrest as [[cat Hcat] Hpost].
  destruct (downloadPluginItems_run item fsPath pre w Hpre t st)
    as (t0 & s0 & ? & ? & Hpre_run & _).
  rewrite downloadPluginItems_app, Hpre_run in Hrun. cbn [downloadPluginItems] in Hrun.
  unfold bind in Hrun. rewrite (downloadOne_run _ _ _ _ _ _ _ Hcat) in Hrun.
  exists t0, s0, cat. split; [exact Hpre_run|]. split; [exact Hcat|].
  destruct (downloadPluginItem item fsPath it cat w s0) as [[entry|e] s1].
  - destruct (downloadPluginItems_run item fsPath post w Hpost (downloaded entry t0) s1)
      as (t1 & st1 & ok & bad & Hpost_run & _ & _ & Hd & _).
    rewrite Hpost_run in Hrun. injection Hrun as <- <-. rewrite Hd. cbn.
    apply in_or_app. left. apply in_or_app. right. by left.
  - destruct (downloadPluginItems_run item fsPath post w Hpost
                (failed (item_path it) t0) s1)
      as (t1 & st1 & ok & bad & Hpost_run & _ & _ & _ & Hf & _).
    rewrite Hpost_run in Hrun. injection Hrun as <- <-. rewrite Hf. cbn.
    apply in_or_app. left. apply in_or_app. right. by left.
Qed.

Lemma downloadPluginBundle_run item fsPath meta w st t st1 :
  downloadPluginItems item fsPath (itemsOf meta) noTally w st = (Ret t, st1) ->
  downloadPluginBundle item fsPath meta w st = afterItems item fsPath meta t w st1.
Proof.
  intros Hrun. unfold downloadPluginBundle, afterItems.
  unfold bind at 1, ask at 1. unfold bind at 1. rewrite Hrun.
  reflexivity.
Qed.

(** What [afterItems] adds to the record of the calls of [savePluginFiles]. *)
Lemma afterItems_calls item fsPath meta t w st call :
  In call
     (fs_calls (savePluginFiles item (path_join w [fsPath; FOLDER_PATHS (ci_category item)])
                  meta w st).2) ->
  In call (fs_calls (afterItems item fsPath meta t w st).2).
Proof.
  intros Hin. unfold afterItems. unfold bind at 1, ask at 1. unfold bind at 1.
  destruct (savePluginFiles _ _ _ w st) as [[[]|e] s1]; cbn [snd] in Hin |- *;
    [|exact Hin].
  match goal with |- In _ (fs_calls (?m w s1).2) =>
    assert (Hgrow : logsGrow w s1 (m w s1).2) end.
  { match goal with |- logsGrow w s1 (?m w s1).2 => apply (logsGrow_keeps m) end.
    intros R ? ? ? ? ? ? ?.
    repeat first [eapply recordDownload_keeps; eassumption
                 | eapply clearCategoryCache_keeps; eassumption
                 | eapply showMessage_keeps; eassumption
                 | frame_step]. }
  eapply logsGrow_In; [exact Hgrow|exact Hin].
Qed.


(** ** The tally of a plugin download *)

(** A manifest [parsePluginJson] returns has passed the validation. *)
Lemma parsePluginJson_validated r dir w st res st' :
  parsePluginJson r dir w st = (Ret res, st') ->
  exists parsed, validateMetadata parsed dir = Ret (metadata res).
Proof.
  unfold parsePluginJson, try_catch, bind, ask, lift.
  destruct (getFileContentByPath r _ w st) as [[fileData|e] s1]; [|discriminate].
  destruct (validateMetadata _ dir) as [meta|e] eqn:Hvalid; [|discriminate].
  intros [= <- <-]. eexists. exact Hvalid.
Qed.

(** Once the manifest is read, has items and the download is confirmed,
    [downloadPlugin] is [downloadPluginBundle], whose failure it reports. *)
Lemma downloadPlugin_confirmed item fsPath w st res s1 :
  parsePluginJson (ci_repo item) (path (ci_file item)) w st = (Ret res, s1) ->
  itemsOf (metadata res) <> [] ->
  chose (dialog w (tick s1)) "Download" = true ->
  downloadPlugin item fsPath w st =
    match downloadPluginBundle item fsPath (metadata res) w
            (set_tick (S (tick s1))
               (log_message (confirmMessage (metadata res) (length (itemsOf (metadata res))))
                            s1)) with
    | (Ret t, s2) => (Ret (Some t), s2)
    | (Throw e, s2) =>
        (Ret None,
         log_message ("Failed to download " ++ ci_name item ++ ": " ++ errToString e) s2)
    end.
Proof.
  intros Hparse Hitems Hchoice. unfold downloadPlugin.
  unfold try_catch at 1. unfold bind at 1. unfold try_catch at 1. unfold bind at 1.
  rewrite Hparse. cbn [ret].
  destruct (itemsOf (metadata res)) as [|it rest] eqn:Hit; [congruence|].
  cbn [length Nat.eqb]. unfold bind at 1.
  unfold askChoice, showMessage, showChoice, bind at 1, modify, consult.
  cbn [log_message tick]. rewrite Hchoice. unfold bind.
  destruct (downloadPluginBundle item fsPath (metadata res) w _) as [[t|e] s2];
    reflexivity.
Qed.

(** C6. A plugin download over a validated manifest with [n] items: the
    loop over the items does not throw, so every item is reached; the two
    counters add up to [n] and count the entries of the two lists; the list
    of failures is made of paths of items, in their order; an item whose
    body returns is among the downloaded entries and an item whose body
    throws has its path among the failures; and, whatever the tally, the
    files next to the items are saved after the loop: on a disk that works
    the copy of the manifest is written, and when the listing of the plugin
    directory comes in, the README that can be read is written and the note
    made of it is written. *)
Theorem plugin_bundle_accounting (item : CopilotItem) (fsPath : string)
    (parsed : option json) (dir : string) (meta : json) (w : World) (st : State) :
  validateMetadata parsed dir = Ret meta ->
  let items := itemsOf meta in
  let target := path_join w [fsPath; FOLDER_PATHS (ci_category item)] in
  let localDir := path_join w [target; idOrName meta item] in
  let calls := fs_calls (downloadPluginBundle item fsPath meta w st).2 in
  exists t st1,
    downloadPluginItems item fsPath items noTally w st = (Ret t, st1) /\
    (downloadedCount t + errorCount t)%nat = length items /\
    length (downloadedFiles t) = downloadedCount t /\
    length (failedFiles t) = errorCount t /\
    sublist (failedFiles t) (map item_path items) /\
    (forall pre it post,
       items = (pre ++ it :: post)%list ->
       exists t0 s0 cat,
         downloadPluginItems item fsPath pre noTally w st = (Ret t0, s0) /\
         KIND_TO_CATEGORY (item_kind it) = Some cat /\
         match downloadPluginItem item fsPath it cat w s0 with
         | (Ret entry, _) => In entry (downloadedFiles t)
         | (Throw _, _) => In (item_path it) (failedFiles t)
         end) /\
    downloadPluginBundle item fsPath meta w st = afterItems item fsPath meta t w st1 /\
    (diskWorks w ->
     In (WriteFileSync (manifestCopyPath w item fsPath meta) (JSON_stringify w meta) None)
        calls /\
     forall contents s3,
       getDirectoryContents (ci_repo item) (path (ci_file item)) w
         (listingState item target meta w st1) = (Ret contents, s3) ->
       let s5 := readmeState item localDir contents w s3 in
       exists readme s6,
         saveReadme localDir (topLevel item contents) w s5 = (Ret readme, s6) /\
         (forall f text s',
            readmeOf (topLevel item contents) = Some f ->
            getFileContent (download_url f) w s5 = (Ret (DText text), s') ->
            readme = DText text /\
            In (WriteFileSync (path_join w [localDir; "README.md"]) text None) calls) /\
         (forall text,
            readme = DText text ->
            exists note s7,
              generateNoteContent readme (idOrName meta item) w s6 = (Ret note, s7) /\
              In (WriteFileSync (path_join w [localDir; NOTE_FILE]) note None) calls)).
Proof.
  intros Hvalid items target localDir calls.
  assert (Hknown : Forall knownKind items) by exact (validated_items_known _ _ _ Hvalid).
  destruct (downloadPluginItems_run item fsPath items w Hknown noTally st)
    as (t & st1 & ok & bad & Hrun & Hd & He & Hdf & Hff & Hlen & Hsub).
  cbn in Hd, He, Hdf, Hff. subst ok bad.
  exists t, st1. split; [exact Hrun|].
  destruct (tally_lengths _ _ _ _ _ _ _ _ Hrun eq_refl eq_refl) as [Hld Hlf].
  split; [lia|]. split; [exact Hld|]. split; [exact Hlf|]. split; [exact Hsub|].
  split.
  { intros pre it post Hsplit.
    eapply downloadPluginItems_each; [rewrite <- Hsplit; exact Hknown|].
    rewrite <- Hsplit. exact Hrun. }
  assert (Hafter := downloadPluginBundle_run _ _ _ _ _ _ _ Hrun).
  split; [exact Hafter|].
  intros Hok. subst calls. rewrite Hafter.
  destruct (savePluginFiles_persists item target meta w st1 Hok)
    as (_ & Hmanifest & Hfiles).
  split; [apply afterItems_calls; exact Hmanifest|].
  intros contents s3 Hdir s5.
  destruct (Hfiles contents s3 Hdir) as (readme & s6 & Hreadme & Hwritten & Hnote).
  exists readme, s6. split; [exact Hreadme|]. split.
  - intros f text s' Hf Hget. destruct (Hwritten f text s' Hf Hget) as [-> Hin].
    split; [reflexivity|]. apply afterItems_calls; exact Hin.
  - intros text Htext. destruct (Hnote text Htext) as (note & s7 & Hgen & Hin).
    exists note, s7. split; [exact Hgen|]. apply afterItems_calls; exact Hin.
Qed.

Lemma plugin_bundle_accounting_witness :
  validateMetadata (Some fiveItems) "plugins/demo" = Ret fiveItems /\
  exists t st1,
    downloadPluginItems demoPlugin "/ws" (itemsOf fiveItems) noTally bundleWorld
      initialState = (Ret t, st1) /\
    (downloadedCount t + errorCount t)%nat = length (itemsOf fiveItems) /\
    sublist (failedFiles t) (map item_path (itemsOf fiveItems)) /\
    downloadPluginBundle demoPlugin "/ws" fiveItems bundleWorld initialState =
      afterItems demoPlugin "/ws" fiveItems t bundleWorld st1.
Proof.
  split; [reflexivity|].
  destruct (plugin_bundle_accounting demoPlugin "/ws" (Some fiveItems) "plugins/demo"
              fiveItems bundleWorld initialState eq_refl)
    as (t & st1 & Hrun & Hsum & _ & _ & Hsub & _ & Hafter & _).
  exists t, st1. repeat split; assumption.
Defined.

(** The example of the spec, computed: five items, the third of which
    cannot be fetched. *)
Lemma plugin_bundle_example :
  let run := downloadPluginBundle demoPlugin "/ws" fiveItems bundleWorld initialState in
  let localDir := "/ws/.github/plugins/demo" in
  run.1 = Ret {| downloadedCount := 4; errorCount := 1;
                 downloadedFiles :=
                   ["instruction: a.instructions.md"; "prompt: b.prompt.md";
                    "instruction: d.instructions.md"; "prompt: e.prompt.md"];
                 failedFiles := ["agents/c.agent.md"] |} /\
  In (WriteFileSync (localDir ++ "/.github/plugin/plugin.json") "{}" None)
     (fs_calls run.2) /\
  In (WriteFileSync (localDir ++ "/README.md") readmeText None) (fs_calls run.2) /\
  In (WriteFileSync (localDir ++ "/" ++ NOTE_FILE)
        ("# NOTE" ++ nl ++ nl ++ "Plugin slash commands are mapped as:" ++ nl ++ nl
         ++ "| Command |" ++ nl ++ "|---------|" ++ nl ++ "| `/review` |" ++ nl)
        None)
     (fs_calls run.2) /\
  messages run.2 =
    ["Plugin " ++ dq ++ "Demo" ++ dq ++ " downloaded!" ++ nl ++ nl
     ++ "Downloaded 4/5 item(s) successfully." ++ nl ++ "1 item(s) failed."].
Proof. vm_compute. repeat split; auto 20. Qed.

(** * Further properties of the sources *)

(** ** Errors of the retrieval functions and of the validation *)

Lemma caught_and_wrapped {A} (m : M A) (wrap : JsError -> JsError) w st e st' :
  try_catch m (fun error => throw (wrap error)) w st = (Throw e, st') ->
  exists cause, e = wrap cause.
Proof.
  unfold try_catch, throw. destruct (m w st) as [[a|cause] s]; intros [= <- <-]; eauto.
Qed.

(** Whatever goes wrong inside them, the four retrieval functions throw an
    [Error] of their own making: its message starts with the text of the
    function and goes on with the text of the cause, and it carries no
    response, so that the status code of a failed request cannot be read
    from what these functions throw. *)
Theorem service_errors_wrapped (w : World) (st : State) :
  (forall url e st',
     getFileContent url w st = (Throw e, st') ->
     (exists cause, e = Error ("Failed to fetch file content: " ++ errToString cause)) /\
     statusCode e = None) /\
  (forall r p e st',
     getFileContentByPath r p w st = (Throw e, st') ->
     (exists cause,
        e = Error ("Failed to fetch file content for path " ++ dq ++ p ++ dq ++ ": "
                   ++ errToString cause)) /\
     statusCode e = None) /\
  (forall r p e st',
     getDirectoryContents r p w st = (Throw e, st') ->
     (exists cause,
        e = Error ("Failed to fetch directory contents: " ++ errToString cause)) /\
     statusCode e = None) /\
  (forall r dir e st',
     parsePluginJson r dir w st = (Throw e, st') ->
     (exists cause, e = Error ("Failed to parse plugin.json: " ++ err_message cause)) /\
     statusCode e = None).
Proof.
  repeat apply conj.
  - intros url e st' H. apply caught_and_wrapped in H as (cause & ->). eauto.
  - intros r p e st' H. apply caught_and_wrapped in H as (cause & ->). eauto.
  - intros r p e st' H. unfold getDirectoryContents, bind, consult in H.
    destruct (http w (tick st)); cbn [getDirectoryContents_reply] in H;
      apply caught_and_wrapped in H as (cause & ->); eauto.
  - intros r dir e st' H. apply caught_and_wrapped in H as (cause & ->). eauto.
Qed.

Lemma service_errors_wrapped_witness :
  exists cause,
    (parsePluginJson defaultRepo "plugins/demo"
       (constantWorld false notFound emptyManifest) initialState).1
    = Throw (Error ("Failed to parse plugin.json: " ++ err_message cause)).
Proof.
  destruct (service_errors_wrapped (constantWorld false notFound emptyManifest)
              initialState) as (_ & _ & _ & H).
  destruct (parsePluginJson defaultRepo "plugins/demo"
              (constantWorld false notFound emptyManifest) initialState)
    as [[res|e] st'] eqn:E.
  - exfalso. vm_compute in E. discriminate.
  - destruct (H _ _ _ _ E) as ((cause & ->) & _). exists cause. reflexivity.
Defined.

Lemma checkItems_app (index : nat) (pre rest : list json) :
  checkItems index (pre ++ rest) =
    match checkItems index pre with
    | Some e => Some e
    | None => checkItems (index + length pre) rest
    end.
Proof.
  revert index. induction pre as [|item pre IH]; intros index; cbn [app checkItems length].
  - by rewrite Nat.add_0_r.
  - destruct (checkItem index item); [reflexivity|].
    rewrite IH. by rewrite Nat.add_succ_r.
Qed.

(** The validation stops at the first entry of [items] that fails its
    check: the error thrown is the one of that entry, numbered by its place
    in the array, whatever comes after it. *)
Theorem validateMetadata_first_invalid (meta : json) (dir : string)
    (pre post : list json) (bad : json) (e : JsError) :
  namedManifest meta ->
  getProp meta "items" = Some (JArr (pre ++ bad :: post)) ->
  Forall validItem pre ->
  checkItem (length pre) bad = Some e ->
  validateMetadata (Some meta) dir = Throw e /\
  Js.startsWith (err_message e)
    ("Invalid plugin.json format: item at index " ++ pretty (length pre)) = true.
Proof.
  intros Hnamed Hitems Hpre Hbad.
  destruct (namedManifest_object meta Hnamed) as (fields & ->).
  destruct Hnamed as [Hn Hd]. split.
  - unfold validateMetadata. cbn [falsy typeofObject orb negb].
    rewrite Hn, Hd, Hitems, checkItems_app.
    rewrite (proj2 (checkItems_None 0 pre) Hpre). cbn [checkItems Nat.add].
    by rewrite Hbad.
  - unfold checkItem in Hbad. unfold Js.startsWith.
    assert (Hpre' : forall a b, String.prefix a (a ++ b) = true).
    { intros a b. induction a as [|ch a IH]; [by destruct b|].
      change (String ch a ++ b) with (String ch (a ++ b)). cbn.
      destruct (ascii_dec ch ch); [exact IH|contradiction]. }
    destruct (falsy bad || negb (typeofObject bad));
      [injection Hbad as <-; apply Hpre'|].
    destruct (notNonBlankString (getProp bad "path"));
      [injection Hbad as <-; apply Hpre'|].
    destruct (notNonBlankString (getProp bad "kind"));
      [injection Hbad as <-; apply Hpre'|].
    destruct (getProp bad "kind") as [[| | |k| |]|]; try discriminate.
    destruct (isAllowedKind k); [discriminate|].
    injection Hbad as <-. apply Hpre'.
Qed.

Lemma validateMetadata_first_invalid_witness :
  validateMetadata
    (Some (JObj [("name", JStr "Demo"); ("description", JStr "Two items");
                 ("items",
                  JArr [JObj [("path", JStr "prompts/a.prompt.md");
                              ("kind", JStr "prompt")];
                        JObj [("path", JStr "chat/b.md"); ("kind", JStr "chatmode")];
                        JNull])]))
    "plugins/demo"
  = Throw (Error ("Invalid plugin.json format: item at index 1 has unsupported "
                  ++ dq ++ "kind" ++ dq ++ " value " ++ dq ++ "chatmode" ++ dq
                  ++ ". Allowed kinds are: instruction, prompt, agent, skill")).
Proof.
  refine (proj1 (validateMetadata_first_invalid _ "plugins/demo"
            [JObj [("path", JStr "prompts/a.prompt.md"); ("kind", JStr "prompt")]]
            [JNull]
            (JObj [("path", JStr "chat/b.md"); ("kind", JStr "chatmode")])
            _ _ _ _ _)).
  - split; reflexivity.
  - reflexivity.
  - constructor; [|constructor].
    exists [("path", JStr "prompts/a.prompt.md"); ("kind", JStr "prompt")],
      "prompts/a.prompt.md", "prompt".
    repeat split; [vm_compute; discriminate|cbn; auto].
  - reflexivity.
Defined.

Lemma assoc_setField_same (key : string) (v : json) (fields : list (string * json)) :
  assoc key (setField key v fields) = Some v.
Proof.
  induction fields as [|[k old] rest IH]; cbn [setField assoc].
  - by rewrite String.eqb_refl.
  - destruct (String.eqb_spec k key) as [->|Hk]; cbn [assoc].
    + by rewrite String.eqb_refl.
    + destruct (String.eqb_spec k key); [contradiction|exact IH].
Qed.

(** An accepted manifest always comes back with an [id] that is a string:
    its own, when that is a string that is not empty, and otherwise the last
    segment of the path of the plugin directory (which is empty for a path
    that ends in a slash).  Every other property is handed back as it was
    parsed. *)
Theorem accepted_manifest_id (meta : json) (dir : string) (result : json) :
  validateMetadata (Some meta) dir = Ret result ->
  getProp result "id" =
    Some (JStr (match getProp meta "id" with
                | Some (JStr own) => if String.eqb own "" then Js.lastSegment dir else own
                | _ => Js.lastSegment dir
                end)) /\
  (forall key, key <> "id" -> getProp result key = getProp meta key).
Proof.
  intros H. apply validateMetadata_accepts in H as (Hnamed & _ & ->).
  destruct (namedManifest_object meta Hnamed) as (fields & ->).
  unfold withId.
  assert (Hset : forall v,
            getProp (setProp (JObj fields) "id" v) "id" = Some v /\
            forall key, key <> "id" ->
              getProp (setProp (JObj fields) "id" v) key = getProp (JObj fields) key).
  { intros v. cbn [setProp getProp]. split; [apply assoc_setField_same|].
    intros key Hkey. by apply assoc_setField_other. }
  destruct (getProp (JObj fields) "id") as [[| | |own| |]|] eqn:Hid; try apply Hset.
  destruct (String.eqb own ""); [apply Hset|]. split; [exact Hid|reflexivity].
Qed.

Lemma accepted_manifest_id_witness :
  getProp (withId legacyManifest "plugins/multi-kind/") "id" = Some (JStr "") /\
  getProp (withId legacyManifest "plugins/multi-kind") "name"
    = Some (JStr "Multi-Kind Plugin").
Proof.
  split.
  - apply (accepted_manifest_id legacyManifest "plugins/multi-kind/"). reflexivity.
  - apply (accepted_manifest_id legacyManifest "plugins/multi-kind");
      [reflexivity|discriminate].
Defined.

(** ** The cache, once more *)

Lemma cacheHit_forced now entry : cacheHit true now entry = None.
Proof. destruct entry; reflexivity. Qed.

(** The run of [getFilesByRepo] when the cache does not answer: the requests
    it adds, and what it makes of the last reply. *)
Lemma getFilesByRepo_fetch r c force w st p :
  resolveContentPath r c = Some p ->
  cacheHit force (clock w (tick st)) (cache st !! cacheKey r c) = None ->
  exists n hdrs reply prefix,
    let url := buildApiUrlForPath r p in
    let rq := requestFor w st (Js.truthy (baseUrl r)) url hdrs reply in
    let st1 := log_request rq (log_requests prefix (set_tick n st)) in
    retryPrefix w st r url prefix /\
    getFilesByRepo r c force w st =
      (notFoundIsEmpty r c (afterListing r c (clock w (tick st)) reply st1).1,
       (afterListing r c (clock w (tick st)) reply st1).2).
Proof.
  intros Hp Hmiss.
  destruct (getFilesByRepo_miss _ _ _ _ _ _ Hp Hmiss) as (n & Hrun).
  destruct (fetchListing_requests r c p (clock w (tick st)) w (set_tick n st))
    as (n' & hdrs & reply & prefix & Hprefix & Hf).
  rewrite Hf in Hrun. exists n', hdrs, reply, prefix. cbn zeta.
  split; [exact Hprefix|]. exact Hrun.
Qed.

(** A listing that has just been fetched is served from the cache: when
    [getFilesByRepo] has issued a request and its last request brought a
    listing, a call without [forceRefresh] made less than an hour later (by
    the clock of the process) returns the very same array, issues no request
    and changes nothing. *)
Theorem listing_then_cached (w : World) (st : State) (r : RepoSource)
    (c : CopilotCategory) (force : bool) (rq : Request)
    (entries : list (RawFile * HttpResult)) :
  let first := getFilesByRepo r c force w st in
  (length (requests st) < length (requests first.2))%nat ->
  last (requests first.2) = Some rq ->
  rq_result rq = HttpList entries ->
  clock w (tick first.2) - clock w (tick st) < CACHE_DURATION ->
  exists files,
    first.1 = Ret files /\
    getFilesByRepo r c false w first.2 = (Ret files, set_tick (S (tick first.2)) first.2).
Proof.
  intros first Hlen Hlast Hres Hclock. subst first.
  destruct (resolveContentPath r c) as [p|] eqn:Hp.
  2:{ rewrite (getFilesByRepo_excluded _ _ _ _ _ Hp) in Hlen. cbn in Hlen. lia. }
  destruct (cacheHit force (clock w (tick st)) (cache st !! cacheKey r c))
    as [entry|] eqn:Hhit.
  { rewrite (getFilesByRepo_hit _ _ _ _ _ _ _ Hp Hhit) in Hlen. cbn in Hlen. lia. }
  destruct (getFilesByRepo_fetch _ _ _ _ _ _ Hp Hhit)
    as (n & hdrs & reply & prefix & _ & Hrun).
  cbn zeta in Hrun. rewrite Hrun in *. clear Hrun. cbn [fst snd] in *.
  rewrite afterListing_requests, last_log_request in Hlast.
  injection Hlast as <-. cbn [requestFor rq_result] in Hres. subst reply.
  cbn [afterListing fst snd notFoundIsEmpty] in *.
  eexists. split; [reflexivity|].
  match goal with |- getFilesByRepo r c false w ?s = _ => set (st2 := s) in * end.
  match type of Hclock with clock w (tick ?s) - _ < _ => change s with st2 in Hclock end.
  assert (Hentry : exists e, cache st2 !! cacheKey r c = Some e /\
                     timestamp e = clock w (tick st) /\
                     data e = seq (length (heap st)) (length (keptEntries r c entries))).
  { subst st2. cbn [cache set_cache]. rewrite lookup_insert_eq. eexists.
    split; [reflexivity|]. cbn [timestamp data log_request heap].
    rewrite heap_log_requests. by cbn. }
  destruct Hentry as (e & Hentry & Hstamp & Hdata).
  rewrite (getFilesByRepo_hit r c false w st2 p e Hp).
  - rewrite Hdata. cbn [log_request heap]. rewrite heap_log_requests. reflexivity.
  - rewrite Hentry. unfold cacheHit. cbn [negb andb]. rewrite Hstamp.
    destruct (Z.ltb_spec (clock w (tick st2) - clock w (tick st)) CACHE_DURATION);
      [reflexivity|lia].
Qed.

Lemma listing_then_cached_witness :
  let first := getFilesByRepo repoOne Instructions false twoRepoWorld initialState in
  exists files,
    first.1 = Ret files /\
    getFilesByRepo repoOne Instructions false twoRepoWorld first.2
      = (Ret files, set_tick (S (tick first.2)) first.2).
Proof.
  eapply (listing_then_cached twoRepoWorld initialState repoOne Instructions false).
  - vm_compute. lia.
  - vm_compute. reflexivity.
  - reflexivity.
  - vm_compute. reflexivity.
Defined.

(** With [forceRefresh], a listing of a category that is not excluded goes
    to the server whatever the cache holds: at least one request is issued,
    the last of them for the folder of the category, and when that request
    brings a listing the cache entry is written anew with the time of the
    call. *)
Theorem force_refresh_requests (w : World) (st : State) (r : RepoSource)
    (c : CopilotCategory) (p : string) :
  resolveContentPath r c = Some p ->
  let res := getFilesByRepo r c true w st in
  exists prefix rq,
    requests res.2 = (requests st ++ prefix ++ [rq])%list /\
    rq_url rq = buildApiUrlForPath r p /\
    forall entries, rq_result rq = HttpList entries ->
      exists e, cache res.2 !! cacheKey r c = Some e /\
                timestamp e = clock w (tick st) /\ res.1 = Ret (data e).
Proof.
  intros Hp res. subst res.
  destruct (getFilesByRepo_fetch r c true w st p Hp (cacheHit_forced _ _))
    as (n & hdrs & reply & prefix & _ & Hrun).
  cbn zeta in Hrun. rewrite Hrun. clear Hrun. cbn [fst snd].
  exists prefix, (requestFor w st (Js.truthy (baseUrl r)) (buildApiUrlForPath r p)
                    hdrs reply).
  split; [|split].
  - rewrite afterListing_requests. cbn [log_request requests].
    rewrite requests_log_requests. cbn. by rewrite <- app_assoc.
  - reflexivity.
  - intros entries Hres. cbn [requestFor rq_result] in Hres. subst reply.
    cbn [afterListing fst snd set_cache cache notFoundIsEmpty].
    rewrite lookup_insert_eq. eexists. split; [reflexivity|]. split; reflexivity.
Qed.

Lemma force_refresh_requests_witness :
  exists prefix rq,
    requests (getFilesByRepo defaultRepo Plugins true (signInWorld 0)
                (cachedState 4999000)).2 = (prefix ++ [rq])%list /\
    rq_url rq = "https://api.github.com/repos/github/awesome-copilot/contents/plugins".
Proof.
  destruct (force_refresh_requests (signInWorld 0) (cachedState 4999000) defaultRepo
              Plugins "plugins" eq_refl) as (prefix & rq & Hreq & Hurl & _).
  exists prefix, rq. split; [exact Hreq|exact Hurl].
Defined.

(** [clearCategoryCache] removes the entry of that repository and category
    and no other, so that the next listing of the category is asked of the
    server again (unless the category is excluded). *)
Theorem clearCategoryCache_exact (w : World) (st : State) (r : RepoSource)
    (c : CopilotCategory) :
  let st1 := (clearCategoryCache r c w st).2 in
  cache st1 !! cacheKey r c = None /\
  (forall k, k <> cacheKey r c -> cache st1 !! k = cache st !! k) /\
  requests st1 = requests st /\
  (forall p, resolveContentPath r c = Some p ->
     (length (requests st1) < length (requests (getFilesByRepo r c false w st1).2))%nat).
Proof.
  intros st1. subst st1. cbn [clearCategoryCache modify snd cache set_cache requests].
  split; [apply lookup_delete_eq|]. split; [|split; [reflexivity|]].
  - intros k Hk. by apply lookup_delete_ne.
  - intros p Hp.
    match goal with |- context [getFilesByRepo r c false w ?s] => set (st1 := s) end.
    assert (Hmiss : cacheHit false (clock w (tick st1)) (cache st1 !! cacheKey r c) = None).
    { subst st1. cbn [cache set_cache]. by rewrite lookup_delete_eq. }
    destruct (getFilesByRepo_fetch r c false w st1 p Hp Hmiss)
      as (n & hdrs & reply & prefix & _ & Hrun).
    cbn zeta in Hrun. rewrite Hrun. cbn [snd].
    rewrite afterListing_requests. cbn [log_request requests].
    rewrite requests_log_requests, !length_app. cbn. lia.
Qed.

Lemma clearCategoryCache_exact_witness :
  cache (clearCategoryCache defaultRepo Plugins (signInWorld 0) (cachedState 0)).2
    !! cacheKey defaultRepo Plugins = None /\
  (0 < length (requests
                 (getFilesByRepo defaultRepo Plugins false (signInWorld 0)
                    (clearCategoryCache defaultRepo Plugins (signInWorld 0)
                       (cachedState 4999000)).2).2))%nat.
Proof.
  split.
  - apply (clearCategoryCache_exact (signInWorld 0) (cachedState 0) defaultRepo Plugins).
  - destruct (clearCategoryCache_exact (signInWorld 0) (cachedState 4999000)
                defaultRepo Plugins) as (_ & _ & _ & H).
    apply (H "plugins" eq_refl).
Defined.

Lemma prefix_bar_includes (a s : string) :
  String.prefix (a ++ "|") s = true -> Js.includes s "|" = true.
Proof.
  revert s. induction a as [|ch a IH]; intros s.
  - change ("" ++ "|") with "|". destruct s as [|ch' s]; [discriminate|].
    intros H. cbn [Js.includes]. rewrite H. reflexivity.
  - change (String ch a ++ "|") with (String ch (a ++ "|")).
    destruct s as [|ch' s]; [discriminate|]. cbn [String.prefix].
    destruct (ascii_dec ch ch'); [|discriminate].
    intros H. cbn [Js.includes]. rewrite (IH s H). apply orb_true_r.
Qed.

Lemma includes_cons_false ch s needle :
  Js.includes (String ch s) needle = false -> Js.includes s needle = false.
Proof. cbn [Js.includes]. intros H. apply orb_false_elim in H as [_ H]. exact H. Qed.

(** A key made of [k'], a bar and a text without bars starts with [k] and a
    bar only if [k] is [k'], when [k'] has no bar. *)
Lemma key_prefix_inj (k k' rest : string) :
  Js.includes k' "|" = false -> Js.includes rest "|" = false ->
  String.prefix (k ++ "|") (k' ++ "|" ++ rest) = true -> k = k'.
Proof.
  revert k. induction k' as [|ch' k' IH]; intros k Hk' Hrest.
  - change ("" ++ "|" ++ rest) with (String "|" rest).
    destruct k as [|ch k]; [reflexivity|].
    change (String ch k ++ "|") with (String ch (k ++ "|")). cbn [String.prefix].
    destruct (ascii_dec ch "|"); [|discriminate].
    intros H. apply prefix_bar_includes in H. congruence.
  - change (String ch' k' ++ "|" ++ rest) with (String ch' (k' ++ "|" ++ rest)).
    destruct k as [|ch k].
    + change ("" ++ "|") with "|". cbn [String.prefix].
      destruct (ascii_dec "|" ch') as [<-|]; [|discriminate].
      destruct k'; cbn in Hk'; discriminate.
    + change (String ch k ++ "|") with (String ch (k ++ "|")). cbn [String.prefix].
      destruct (ascii_dec ch ch') as [->|]; [|discriminate].
      intros H. f_equal. apply IH; [|exact Hrest|exact H].
      by apply includes_cons_false in Hk'.
Qed.

Lemma prefix_app (a b : string) : String.prefix a (a ++ b) = true.
Proof.
  induction a as [|ch a IH]; [by destruct b|].
  change (String ch a ++ b) with (String ch (a ++ b)). cbn.
  destruct (ascii_dec ch ch); [exact IH|contradiction].
Qed.

Lemma prefix_app_app (a b c : string) : String.prefix (a ++ b) (a ++ b ++ c) = true.
Proof.
  induction a as [|ch a IH]; [exact (prefix_app b c)|].
  change (String ch a ++ b) with (String ch (a ++ b)).
  change (String ch a ++ b ++ c) with (String ch (a ++ b ++ c)). cbn.
  destruct (ascii_dec ch ch); [exact IH|contradiction].
Qed.

Lemma categoryName_no_bar (c : CopilotCategory) : Js.includes (categoryName c) "|" = false.
Proof. destruct c; reflexivity. Qed.

(** [clearRepoCache] removes the entries of every category of the
    repository, and leaves alone the entries of every repository with
    another key, provided that key has no ['|'] in it (owner, name and base
    address of a GitHub repository never have one). *)
Theorem clearRepoCache_exact (w : World) (st : State) (r : RepoSource) :
  let st1 := (clearRepoCache r w st).2 in
  (forall c, cache st1 !! cacheKey r c = None) /\
  (forall r' c',
     Js.includes (repoKey r') "|" = false -> repoKey r' <> repoKey r ->
     cache st1 !! cacheKey r' c' = cache st !! cacheKey r' c') /\
  requests st1 = requests st /\ heap st1 = heap st.
Proof.
  intros st1. subst st1. cbn [clearRepoCache modify snd cache set_cache requests heap].
  split; [|split; [|split; reflexivity]].
  - intros c. apply map_lookup_filter_None. right. intros e _. cbn [fst].
    unfold Js.startsWith, cacheKey. rewrite prefix_app_app. discriminate.
  - intros r' c' Hbar Hne.
    destruct (cache st !! cacheKey r' c') as [e|] eqn:He.
    + apply map_lookup_filter_Some. split; [exact He|]. cbn [fst].
      unfold Js.startsWith, cacheKey.
      destruct (String.prefix (repoKey r ++ "|") (repoKey r' ++ "|" ++ categoryName c'))
        eqn:Hpre; [|reflexivity].
      apply key_prefix_inj in Hpre; [congruence|exact Hbar|apply categoryName_no_bar].
    + apply map_lookup_filter_None. left. exact He.
Qed.

Lemma clearRepoCache_exact_witness :
  cache (clearRepoCache repoOne twoRepoWorld (cachedState 0)).2
    !! cacheKey defaultRepo Plugins
  = cache (cachedState 0) !! cacheKey defaultRepo Plugins.
Proof.
  apply (clearRepoCache_exact twoRepoWorld (cachedState 0) repoOne).
  - reflexivity.
  - vm_compute. discriminate.
Defined.

(** ** What holds after any sequence of calls *)

Lemma runCallsFrom_snoc w st calls call :
  runCallsFrom w st (calls ++ [call]) = runCall w (runCallsFrom w st calls) call.
Proof. unfold runCallsFrom. by rewrite fold_left_app. Qed.

Lemma runCall_requestsOnly w st call :
  env_tls (runCall w st call) = env_tls st /\
  fs_calls (runCall w st call) = fs_calls st /\
  messages (runCall w st call) = messages st /\
  exists rs, requests (runCall w st call) = (requests st ++ rs)%list /\
             Forall (issued w (env_tls st)) rs.
Proof.
  destruct service_requestsOnly as (K1 & K2 & K3 & K4 & K5 & K6).
  destruct call; cbn [runCall];
    try (repeat split; exists []; split; [by rewrite app_nil_r|constructor]).
  - apply K1.
  - apply K2.
  - apply K3.
  - apply K4.
  - apply K5.
  - apply K6.
Qed.

Lemma runCall_wf w st call : cache_wf st -> cache_wf (runCall w st call).
Proof.
  intros Hwf.
  destruct (cache_wf_invariant w st) as (_ & H).
  destruct (H Hwf) as (H1 & H2 & H3 & H4 & H5 & H6 & H7 & H8 & H9).
  destruct call; cbn [runCall]; auto.
Qed.

(** A call that awaits each of its requests leaves the flag as it found
    it. *)
Lemma runCall_env w st call :
  isWalk call = false -> env_tls (runCall w st call) = env_tls st.
Proof.
  destruct service_requestsOnly as (K1 & K2 & K3 & K4 & _ & K6).
  destruct call; cbn [runCall isWalk]; intros Hwalk; try reflexivity;
    try discriminate Hwalk.
  - apply K1.
  - apply K2.
  - apply K3.
  - apply K4.
  - apply K6.
Qed.

(** Without the opt-in no call writes the flag, and every request runs
    under the flag the calls started with. *)
Lemma runCallsFrom_issued w st calls :
  allowInsecureEnterpriseCerts w = false ->
  env_tls (runCallsFrom w st calls) = env_tls st /\
  exists rs, requests (runCallsFrom w st calls) = (requests st ++ rs)%list /\
             Forall (issued w (env_tls st)) rs.
Proof.
  intros Hopt. induction calls as [|call calls (Henv & rs & Hrs & Hissued)] using rev_ind.
  - split; [reflexivity|]. exists []. split; [by rewrite app_nil_r|constructor].
  - rewrite runCallsFrom_snoc.
    destruct (runCall_requestsOnly w (runCallsFrom w st calls) call)
      as (E1 & _ & _ & rs' & -> & Hrs').
    split; [by rewrite E1|].
    exists (rs ++ rs')%list. split; [by rewrite Hrs, <- app_assoc|].
    apply Forall_app. split; [exact Hissued|]. by rewrite <- Henv.
Qed.

(** However a service is used, from its creation on, each call awaited
    before the next: every entry of its cache sits under the key of its own
    repository and category and holds only entries of the type of that
    category, tagged with a repository; the service has made no call into
    the file system; and, as long as no directory has been walked, the
    variable [NODE_TLS_REJECT_UNAUTHORIZED] is unset between calls, as it
    was at the start.  (A walk issues the requests for the sub-directories
    before it awaits any of them, and is left out of this last part.) *)
Theorem service_state_invariant (w : World) (calls : list ServiceCall) :
  let st := runCalls w calls in
  cache_wf st /\ fs_calls st = [] /\
  (Forall (fun call => isWalk call = false) calls -> env_tls st = None).
Proof.
  unfold runCalls.
  induction calls as [|call calls IH] using rev_ind; cbn zeta.
  - split; [apply cache_wf_initial|]. by split.
  - cbn zeta in IH. destruct IH as (Hwf & Hfs & Henv).
    rewrite runCallsFrom_snoc.
    destruct (runCall_requestsOnly w (runCallsFrom w initialState calls) call)
      as (_ & E2 & _).
    split; [by apply runCall_wf|]. split; [by rewrite E2|].
    intros Hcalls. apply Forall_app in Hcalls as [Hcalls Hcall].
    apply Forall_inv in Hcall. rewrite (runCall_env _ _ _ Hcall). auto.
Qed.

Lemma service_state_invariant_witness :
  env_tls (runCalls optInWorld
             [CallGetFilesByRepo publicAsBase Plugins false;
              CallGetFileContent publicDownload; CallClearCache]) = None.
Proof.
  apply (service_state_invariant optInWorld
           [CallGetFilesByRepo publicAsBase Plugins false;
            CallGetFileContent publicDownload; CallClearCache]).
  repeat constructor.
Defined.

(** While the opt-in stays off, and provided the flag is not at ['0'] when
    the first call starts, no request that the service issues, in any
    sequence of calls, runs without certificate validation: none under the
    flag at ['0'], none through an agent that accepts unauthorized peers. *)
Theorem requests_validated_without_opt_in (w : World) (st : State)
    (calls : list ServiceCall) (new : list Request) (rq : Request) :
  allowInsecureEnterpriseCerts w = false ->
  env_tls st <> Some "0" ->
  requests (runCallsFrom w st calls) = (requests st ++ new)%list ->
  In rq new ->
  ~ validationOff rq.
Proof.
  intros Hopt Hflag Hnew Hin Hoff.
  destruct (runCallsFrom_issued w st calls Hopt) as (_ & rs & Hrs & Hissued).
  rewrite Hrs in Hnew. apply app_inv_head in Hnew as ->.
  rewrite Forall_forall in Hissued. apply list_elem_of_In in Hin.
  destruct (issued_policy w (env_tls st) rq (Hissued rq Hin) Hflag Hoff) as [Hallow _].
  congruence.
Qed.

Lemma requests_validated_without_opt_in_witness :
  Forall (fun rq => ~ validationOff rq)
    (requests (runCallsFrom (constantWorld false notFound emptyManifest)
                 (set_env_tls (Some "1") initialState)
                 [CallGetFileContent publicDownload;
                  CallGetDirectoryContents publicAsBase "skills/x"])).
Proof.
  set (w := constantWorld false notFound emptyManifest).
  set (st := set_env_tls (Some "1") initialState).
  set (calls := [CallGetFileContent publicDownload;
                 CallGetDirectoryContents publicAsBase "skills/x"]).
  apply Forall_forall. intros rq Hin. apply list_elem_of_In in Hin.
  apply (requests_validated_without_opt_in w st calls
           (requests (runCallsFrom w st calls)) rq eq_refl);
    [discriminate|reflexivity|exact Hin].
Defined.

(** ** The flag during a walk *)

Lemma walkRun_app override s1 s2 env pool :
  walkRun override (s1 ++ s2) env pool =
  walkRun override s2 (walkRun override s1 env pool).1 (walkRun override s1 env pool).2.
Proof.
  revert env pool. induction s1 as [|i s1 IH]; intros env pool; [reflexivity|].
  cbn [app walkRun]. destruct (pool !! i); apply IH.
Qed.

(** The calls for the sub-directories get their headers, first to last. *)
Lemma walkRun_start_rest subs : forall pre,
  walkRun true (seq (length pre) (length subs)) (Some "0")
          (pre ++ map Starting subs)%list
  = (Some "0", (pre ++ map (InFlight (Some "0")) subs)%list).
Proof.
  induction subs as [|s subs IH]; intros pre; [reflexivity|].
  cbn [length seq map walkRun].
  assert (Hat : ((pre ++ Starting s :: map Starting subs)%list) !! length pre
                = Some (Starting s)) by apply list_lookup_middle, eq_refl.
  rewrite Hat. cbn [walkStep fst snd].
  rewrite take_app_length.
  assert (Hdrop : drop (S (length pre)) (pre ++ Starting s :: map Starting subs)%list
                  = map Starting subs).
  { change (Starting s :: map Starting subs) with ([Starting s] ++ map Starting subs)%list.
    rewrite app_assoc. apply drop_app_length'. rewrite length_app. cbn. lia. }
  rewrite Hdrop.
  specialize (IH (pre ++ [InFlight (Some "0") s])%list).
  rewrite length_app, Nat.add_1_r, <- !app_assoc in IH. exact IH.
Qed.

Lemma walkRun_start s subs env :
  walkRun true (seq 0 (S (length subs))) env (map Starting (s :: subs))
  = (Some "0", InFlight env s :: map (InFlight (Some "0")) subs).
Proof.
  cbn [seq map walkRun lookup list_lookup walkStep fst snd firstn skipn app].
  apply (walkRun_start_rest subs [InFlight env s]).
Qed.

(** The replies of calls that list no sub-directory, first to last. *)
Lemma walkRun_first_to_last tasks : forall env,
  Forall (fun t => exists saved reply, t = InFlight saved reply /\ leafReply reply) tasks ->
  walkRun true (repeat 0%nat (length tasks)) env tasks
  = (default env (savedOf <$> last tasks), []).
Proof.
  induction tasks as [|t tasks IH]; intros env Hall; [reflexivity|].
  apply Forall_cons in Hall as [(saved & reply & -> & Hleaf) Hall].
  cbn [length repeat walkRun lookup list_lookup walkStep fst snd firstn skipn app].
  assert (Hnone : match reply with
                  | HttpList entries => map Starting (subdirReplies entries)
                  | _ => []
                  end = []).
  { destruct reply; cbn in Hleaf |- *; try reflexivity. by rewrite Hleaf. }
  rewrite Hnone. cbn [app]. rewrite drop_0, (IH saved Hall).
  destruct tasks as [|t' tasks]; [reflexivity|].
  rewrite (last_cons (InFlight saved reply)).
  destruct (last (t' :: tasks)) eqn:E; [reflexivity|].
  by apply last_None in E.
Qed.

(** The same replies, last to first. *)
Lemma walkRun_last_to_first tasks : forall env,
  Forall (fun t => exists saved reply, t = InFlight saved reply /\ leafReply reply) tasks ->
  walkRun true (rev (seq 0 (length tasks))) env tasks
  = (default env (savedOf <$> head tasks), []).
Proof.
  induction tasks as [|t tasks IH] using rev_ind; intros env Hall; [reflexivity|].
  apply Forall_app in Hall as [Hall Ht].
  apply Forall_inv in Ht as (saved & reply & -> & Hleaf).
  rewrite length_app, Nat.add_1_r, seq_S, rev_app_distr. cbn [rev app walkRun plus].
  assert (Hat : ((tasks ++ [InFlight saved reply])%list) !! length tasks
                = Some (InFlight saved reply)) by apply list_lookup_middle, eq_refl.
  rewrite Hat. cbn [walkStep fst snd].
  assert (Hnone : match reply with
                  | HttpList entries => map Starting (subdirReplies entries)
                  | _ => []
                  end = []).
  { destruct reply; cbn in Hleaf |- *; try reflexivity. by rewrite Hleaf. }
  rewrite Hnone, take_app_length.
  assert (Hdrop : drop (S (length tasks)) (tasks ++ [InFlight saved reply])%list = [])
    by (apply drop_ge; rewrite length_app; cbn; lia).
  rewrite Hdrop. cbn [app]. rewrite app_nil_r, (IH saved Hall).
  destruct tasks as [|t' tasks]; reflexivity.
Qed.

Lemma walkRun_no_override schedule : forall env pool,
  (walkRun false schedule env pool).1 = env.
Proof.
  induction schedule as [|i rest IH]; intros env pool; [reflexivity|].
  cbn [walkRun]. destruct (pool !! i) as [[reply|saved reply]|]; cbn [walkStep fst snd];
    apply IH.
Qed.

(** The flag is never anything but what it was at the start, or ['0']. *)
Lemma walkRun_flag env0 schedule : forall env pool,
  env = env0 \/ env = Some "0" ->
  (forall saved reply, In (InFlight saved reply) pool ->
                       saved = env0 \/ saved = Some "0") ->
  (walkRun true schedule env pool).1 = env0 \/
  (walkRun true schedule env pool).1 = Some "0".
Proof.
  induction schedule as [|i rest IH]; intros env pool Henv Hpool; [exact Henv|].
  cbn [walkRun]. destruct (pool !! i) as [t|] eqn:Hi; [|by apply IH].
  assert (Hin : In t pool) by (apply list_elem_of_In; eapply list_elem_of_lookup_2, Hi).
  assert (Hrest : forall saved reply,
            In (InFlight saved reply) (take i pool ++ drop (S i) pool)%list ->
            saved = env0 \/ saved = Some "0").
  { intros saved reply Hl. apply (Hpool saved reply).
    apply in_app_or in Hl as [Hl|Hl]; apply list_elem_of_In in Hl;
      apply list_elem_of_In; eapply elem_of_sublist;
      [exact Hl|apply sublist_take|exact Hl|apply sublist_drop]. }
  destruct t as [reply|saved reply]; cbn [walkStep fst snd]; apply IH.
  - by right.
  - intros saved' reply' Hl. apply in_app_or in Hl as [Hl|Hl].
    + apply (Hrest saved' reply'), in_or_app. by left.
    + destruct Hl as [[= <- <-]|Hl]; [exact Henv|].
      apply (Hrest saved' reply'), in_or_app. by right.
  - apply (Hpool saved reply Hin).
  - intros saved' reply' Hl. apply in_app_or in Hl as [Hl|Hl].
    + apply (Hrest saved' reply'), in_or_app. by left.
    + apply in_app_or in Hl as [Hl|Hl].
      * destruct reply; try contradiction.
        apply in_map_iff in Hl as (x & [=] & _).
      * apply (Hrest saved' reply'), in_or_app. by right.
Qed.

(** What a walk leaves in [NODE_TLS_REJECT_UNAUTHORIZED] depends on the
    order in which the replies come in.  Without the override (a public
    source, or no opt-in) the walk does not touch the flag.  Under the
    override the flag is, whenever one looks, what it was before the walk or
    ['0'].  For a directory with two or more sub-directories, none of which
    has sub-directories: when the replies of the sub-directories come in
    the order of their requests, the walk ends with the flag at ['0'],
    whatever it was before, because every request but the first was issued
    under the override of the one before it and restores that; when they
    come in the opposite order, the flag is back to what it was. *)
Theorem walk_flag_by_arrival (w : World) (r : RepoSource) (env : option string)
    (entries : list (RawFile * HttpResult)) :
  let override := walkOverride w r in
  let subs := subdirReplies entries in
  (override = false ->
   forall schedule reply, (walkRun override schedule env [Starting reply]).1 = env) /\
  (forall schedule reply,
     (walkRun override schedule env [Starting reply]).1 = env \/
     (walkRun override schedule env [Starting reply]).1 = Some "0") /\
  (override = true -> Forall leafReply subs -> (2 <= length subs)%nat ->
   walkRun override (inOrder (length subs)) env [Starting (HttpList entries)]
   = (Some "0", []) /\
   walkRun override (lastFirst (length subs)) env [Starting (HttpList entries)]
   = (env, [])).
Proof.
  intros override subs. split; [|split].
  - intros -> schedule reply. apply walkRun_no_override.
  - intros schedule reply. destruct override.
    + apply walkRun_flag; [by left|]. intros saved reply' [[=]|[]].
    + left. apply walkRun_no_override.
  - intros -> Hleaf Hlen.
    destruct subs as [|s subs'] eqn:Hsubs; [cbn in Hlen; lia|].
    destruct subs' as [|s' subs'']; [cbn in Hlen; lia|].
    apply Forall_cons in Hleaf as [Hs Hleaf].
    set (tasks := InFlight env s :: map (InFlight (Some "0")) (s' :: subs'')).
    assert (Htasks : Forall (fun t => exists saved reply,
                                        t = InFlight saved reply /\ leafReply reply) tasks).
    { constructor; [by eexists _, _|]. apply Forall_map.
      eapply Forall_impl; [exact Hleaf|]. intros reply Hreply. by eexists _, _. }
    assert (Hk : length (s :: s' :: subs'') = length tasks).
    { subst tasks. cbn [length]. by rewrite length_map. }
    assert (Hstart : forall rest,
              walkRun true ([0%nat; 0%nat] ++ seq 0 (length (s :: s' :: subs'')) ++ rest)
                      env [Starting (HttpList entries)]
              = walkRun true rest (Some "0") tasks).
    { intros rest.
      assert (Hown : walkRun true [0%nat; 0%nat] env [Starting (HttpList entries)]
                     = (env, map Starting (s :: s' :: subs''))).
      { cbn [walkRun lookup list_lookup walkStep fst snd firstn skipn app].
        fold subs. rewrite Hsubs, app_nil_r. reflexivity. }
      rewrite walkRun_app, Hown. cbn [fst snd].
      rewrite walkRun_app. change (length (s :: s' :: subs'')) with (S (length (s' :: subs''))).
      rewrite walkRun_start. reflexivity. }
    split.
    + unfold inOrder. rewrite Hstart, Hk, (walkRun_first_to_last tasks _ Htasks).
      subst tasks. rewrite last_cons.
      destruct (last (map (InFlight (Some "0")) (s' :: subs''))) as [t|] eqn:E.
      * apply last_Some in E as (l' & E).
        assert (Hin : In t (map (InFlight (Some "0")) (s' :: subs'')))
          by (rewrite E; apply in_or_app; right; by left).
        apply in_map_iff in Hin as (x & <- & _). reflexivity.
      * by apply last_None in E.
    + unfold lastFirst. rewrite Hstart, Hk, (walkRun_last_to_first tasks _ Htasks).
      reflexivity.
Qed.

Lemma walk_flag_by_arrival_witness :
  walkRun true (inOrder 2) None [Starting twoFolders] = (Some "0", []) /\
  walkRun true (lastFirst 2) None [Starting twoFolders] = (None, []).
Proof.
  apply (walk_flag_by_arrival optInWorld enterpriseRepo None
           [(rawSubdir "scripts", HttpList []); (rawSubdir "references", HttpList [])]).
  - reflexivity.
  - repeat constructor.
  - cbn. lia.
Defined.

(** ** Credentials *)

(** [createRequestHeaders] never throws, whatever the session provider
    does; the headers always carry the agent name and the media type; and an
    [Authorization] header is sent only when authentication is enabled, its
    value being the configured enterprise token (for an enterprise request)
    or else the access token of the session. *)
Theorem createRequestHeaders_auth (ent : bool) (w : World) (st : State) :
  exists hdrs n,
    createRequestHeaders ent w st = (Ret hdrs, set_tick n st) /\
    In ("User-Agent", "VSCode-VscodeGitCopilotTools-Extension/1.0.0") hdrs /\
    In ("Accept", "application/vnd.github+json") hdrs /\
    forall v, In ("Authorization", v) hdrs ->
      enableGithubAuth w = true /\
      ((ent = true /\ Js.truthy (enterpriseToken w) = true /\
        v = "Bearer " ++ Js.orElse (enterpriseToken w) "") \/
       (exists token,
          session w (tick st) = Session token /\ token <> "" /\ v = "Bearer " ++ token)).
Proof.
  unfold createRequestHeaders, bind, ask, setHeader.
  destruct (enableGithubAuth w) eqn:Hauth.
  2:{ exists [("User-Agent", "VSCode-VscodeGitCopilotTools-Extension/1.0.0");
              ("Accept", "application/vnd.github+json");
              ("X-GitHub-Api-Version", "2022-11-28")], (tick st).
      rewrite set_tick_tick. split; [reflexivity|]. cbn.
      split; [auto|]. split; [auto|].
      intros v H. repeat destruct H as [H|H]; try discriminate H; contradiction. }
  destruct (ent && Js.truthy (enterpriseToken w)) eqn:Htoken.
  - apply andb_prop in Htoken as [-> Htoken].
    eexists _, (tick st). rewrite set_tick_tick. split; [reflexivity|]. cbn.
    split; [auto|]. split; [auto|].
    intros v H. repeat destruct H as [H|H]; try discriminate H; try contradiction.
    injection H as <-. auto.
  - unfold try_catch, getSession, bind, consult, ret, throw.
    destruct (session w (tick st)) as [|token|e] eqn:Hsession.
    + cbn [Js.truthy]. eexists _, _. split; [reflexivity|].
      destruct ent; cbn; (split; [auto|]); (split; [auto|]);
        intros v H; repeat destruct H as [H|H]; try discriminate H; contradiction.
    + destruct (String.eqb_spec token "") as [->|Hne]; cbn [Js.truthy negb String.eqb].
      * eexists _, _. split; [reflexivity|].
        destruct ent; cbn; (split; [auto|]); (split; [auto|]);
          intros v H; repeat destruct H as [H|H]; try discriminate H; contradiction.
      * assert (Hb : String.eqb token "" = false) by by apply String.eqb_neq.
        rewrite Hb. cbn [negb Js.orElse]. rewrite Hb.
        eexists _, _. split; [reflexivity|].
        destruct ent; cbn; (split; [auto|]); (split; [auto|]);
          intros v H; repeat destruct H as [H|H]; try discriminate H;
          try contradiction; injection H as <-; split; eauto.
    + eexists _, _. split; [reflexivity|].
      destruct ent; cbn; (split; [auto|]); (split; [auto|]);
        intros v H; repeat destruct H as [H|H]; try discriminate H; contradiction.
Qed.

(** [handleAuthError] never throws.  It answers [true], which makes the
    caller repeat the request, only for a 401 or a 403, with authentication
    enabled, and after the user has chosen "Sign In" in the prompt; for any
    other error, or with authentication disabled, it answers [false] without
    asking anything. *)
Theorem handleAuthError_consent (e : JsError) (ent : bool) (w : World) (st : State) :
  exists b n,
    handleAuthError e ent w st = (Ret b, set_tick n st) /\
    (b = true ->
     authFailure e = true /\ enableGithubAuth w = true /\
     chose (dialog w (tick st)) "Sign In" = true) /\
    (authFailure e = false \/ enableGithubAuth w = false -> b = false /\ n = tick st).
Proof.
  unfold handleAuthError, authFailure.
  destruct (statusIs e 401 || statusIs e 403) eqn:Hstatus.
  2:{ exists false, (tick st). rewrite set_tick_tick. split; [reflexivity|].
      split; [discriminate|auto]. }
  unfold bind at 1, ask at 1.
  destruct (enableGithubAuth w) eqn:Hauth; cbn [negb].
  2:{ exists false, (tick st). rewrite set_tick_tick. split; [reflexivity|].
      split; [discriminate|auto]. }
  assert (Hprompt : forall st0,
            exists b n,
              (let! authChoice := showChoice in
               if chose authChoice "Sign In" then ensureGitHubAuth ent else ret false)
                w st0 = (Ret b, set_tick n st0) /\
              (b = true -> chose (dialog w (tick st0)) "Sign In" = true)).
  { intros st0. unfold bind, showChoice, consult.
    destruct (chose (dialog w (tick st0)) "Sign In") eqn:Hchoice.
    - destruct (ensureGitHubAuth_quiet ent w (set_tick (S (tick st0)) st0))
        as (b & n & ->).
      exists b, n. split; [reflexivity|auto].
    - exists false, (S (tick st0)). split; [reflexivity|discriminate]. }
  assert (Hno : forall A B : Prop, (false = true -> A) /\ (true = false \/ true = false -> B)).
  { intros A B. split; [discriminate|intros [|]; discriminate]. }
  destruct (chose _ "0").
  - destruct (Js.truthy _).
    + destruct (Hprompt st) as (b & n & -> & Hb). exists b, n.
      split; [reflexivity|]. split; [auto|intros [|]; discriminate].
    + exists false, (tick st). rewrite set_tick_tick. split; [reflexivity|apply Hno].
  - destruct (Hprompt st) as (b & n & -> & Hb). exists b, n.
    split; [reflexivity|]. split; [auto|intros [|]; discriminate].
Qed.

(** ** The tables of kinds and folders *)

(** The kinds the parser lets through are exactly the kinds that have a
    category, and the category of a kind is the one named by its plural,
    saved under [.github/] and that plural. *)
Theorem kinds_have_categories (kind : string) :
  (isAllowedKind kind = true <-> is_Some (KIND_TO_CATEGORY kind)) /\
  (forall c, KIND_TO_CATEGORY kind = Some c ->
     categoryName c = kind ++ "s" /\ FOLDER_PATHS c = ".github/" ++ kind ++ "s").
Proof.
  unfold isAllowedKind, KIND_TO_CATEGORY, allowedKinds. cbn [existsb].
  destruct (String.eqb_spec kind "instruction") as [->|_].
  { split; [by split; eauto|]. intros c [= <-]. by split. }
  destruct (String.eqb_spec kind "prompt") as [->|_].
  { split; [by split; eauto|]. intros c [= <-]. by split. }
  destruct (String.eqb_spec kind "agent") as [->|_].
  { split; [by split; eauto|]. intros c [= <-]. by split. }
  destruct (String.eqb_spec kind "skill") as [->|_].
  { split; [by split; eauto|]. intros c [= <-]. by split. }
  split; [|discriminate]. split; [discriminate|]. intros [c H]. discriminate.
Qed.

(** ** Addresses *)

Lemma startsWith_app (a b : string) : Js.startsWith (a ++ b) a = true.
Proof. apply prefix_app. Qed.

(** The two builders of API addresses agree: the address of a category is
    the address of the path that is the name of the category.  For a
    repository without [baseUrl] it is an address of the public API; for one
    with a [baseUrl], the address starts with that base, less one trailing
    slash, followed by [/api/v3/repos/]; and the path [''] stands for the
    root of the repository. *)
Theorem api_urls (r : RepoSource) :
  (forall c, buildApiUrl r c = buildApiUrlForPath r (categoryName c)) /\
  (Js.truthy (baseUrl r) = false ->
   forall p, Js.startsWith (buildApiUrlForPath r p)
               ("https://api.github.com/repos/" ++ owner r ++ "/" ++ repo r ++ "/contents")
             = true) /\
  (forall base p,
     baseUrl r = Some base -> base <> "" ->
     Js.startsWith (buildApiUrlForPath r p)
       (stripTrailingSlash base ++ "/api/v3/repos/" ++ owner r ++ "/" ++ repo r
        ++ "/contents") = true) /\
  (Js.truthy (baseUrl r) = false ->
   buildApiUrlForPath r ""
   = "https://api.github.com/repos/" ++ owner r ++ "/" ++ repo r ++ "/contents").
Proof.
  assert (Hassoc : forall a b c : string, (a ++ b) ++ c = a ++ b ++ c).
  { intros a b c. induction a as [|ch a IH]; [reflexivity|].
    change ((String ch a ++ b) ++ c) with (String ch ((a ++ b) ++ c)).
    by rewrite IH. }
  assert (Hpre : forall a b c d e f : string,
            Js.startsWith (a ++ b ++ c ++ d ++ e ++ f) (a ++ b ++ c ++ d ++ e) = true).
  { intros. rewrite <- !Hassoc. apply startsWith_app. }
  assert (Hsuffix : forall p, exists tail,
            (if String.eqb p "" then "/contents" else "/contents/" ++ p)
            = "/contents" ++ tail).
  { intros p. destruct (String.eqb p ""); [by exists ""|by exists ("/" ++ p)]. }
  split; [|split; [|split]].
  - intros c. unfold buildApiUrl, buildApiUrlForPath.
    assert (Hc : String.eqb (categoryName c) "" = false) by by destruct c.
    rewrite Hc. reflexivity.
  - intros Hbase p. unfold buildApiUrlForPath. rewrite Hbase.
    destruct (Hsuffix p) as (tail & ->). apply Hpre.
  - intros base p Hbase Hne. unfold buildApiUrlForPath. rewrite Hbase.
    cbn [Js.truthy Js.orElse].
    rewrite (proj2 (String.eqb_neq base "") Hne). cbn [negb].
    destruct (Hsuffix p) as (tail & ->).
    rewrite <- !Hassoc. apply startsWith_app.
  - intros Hbase. unfold buildApiUrlForPath. rewrite Hbase. reflexivity.
Qed.

Lemma api_urls_witness :
  buildApiUrlForPath defaultRepo ""
  = "https://api.github.com/repos/github/awesome-copilot/contents" /\
  Js.startsWith (buildApiUrlForPath publicAsBase "plugins")
    "https://github.com/api/v3/repos/github/awesome-copilot/contents" = true.
Proof.
  split.
  - apply (api_urls defaultRepo). reflexivity.
  - destruct (api_urls publicAsBase) as (_ & _ & H & _).
    apply (H "https://github.com" "plugins"); [reflexivity|discriminate].
Defined.

(** ** The directory walk *)

Lemma yields_any {A} (m : M A) : yields (fun _ => True) m.
Proof. by intros w st a st' _. Qed.

Lemma yields_ret {A} (P : A -> Prop) (a : A) : P a -> yields P (ret a).
Proof. intros H w st a' st' [= <- _]. exact H. Qed.

Lemma yields_throw {A} (P : A -> Prop) e : yields P (@throw A e).
Proof. intros w st a st' H. discriminate H. Qed.

Lemma yields_bind {A B} (Q : A -> Prop) (P : B -> Prop) (m : M A) (k : A -> M B) :
  yields Q m -> (forall a, Q a -> yields P (k a)) -> yields P (bind m k).
Proof.
  intros Hm Hk w st b st'. unfold bind.
  destruct (m w st) as [[a|e] s1] eqn:E; [|discriminate].
  apply (Hk a (Hm _ _ _ _ E)).
Qed.

Lemma yields_rethrown {A} (P : A -> Prop) (m : M A) (wrap : JsError -> JsError) :
  yields P m -> yields P (try_catch m (fun error => throw (wrap error))).
Proof.
  intros Hm w st a st'. unfold try_catch.
  destruct (m w st) as [[a'|e] s1] eqn:E; [|discriminate].
  intros [= <- <-]. apply (Hm _ _ _ _ E).
Qed.

Lemma yields_promiseAll {A} (P : A -> Prop) (ms : list (M A)) :
  Forall (yields P) ms -> yields (Forall P) (promiseAll ms).
Proof.
  induction 1 as [|m rest Hm _ IH]; intros w st l st'; cbn [promiseAll].
  - intros [= <- _]. constructor.
  - destruct (m w st) as [[a|e] s1] eqn:E1;
      destruct (promiseAll rest w s1) as [[l'|e'] s2] eqn:E2; try discriminate.
    intros [= <- <-]. constructor; [apply (Hm _ _ _ _ E1)|apply (IH _ _ _ _ E2)].
Qed.

Lemma yields_reply (b : bool) reply url cfg :
  yields (fun d => outcomeOf reply = Ret d)
    (withTlsOverride b (axios_get_reply reply url cfg)).
Proof. intros w st d st'. rewrite tlsGet_reply_run. by intros [= -> _]. Qed.

Lemma Forall_concat {A} (P : A -> Prop) (ls : list (list A)) :
  Forall (Forall P) ls -> Forall P (concat ls).
Proof.
  induction 1 as [|l ls Hl _ IH]; cbn [concat]; [constructor|].
  apply Forall_app. by split.
Qed.

(** What the walk returns for the listing [reply] of its directory. *)
Lemma getDirectoryContents_reply_shape reply :
  forall r p,
    yields (fun contents =>
              (exists entries deeper,
                 reply = HttpList entries /\
                 contents = (map (tagRepo r) (map fst entries) ++ deeper)%list) /\
              Forall (fun f => file_repo f = Some r /\ displayName f = None) contents)
      (getDirectoryContents_reply reply r p).
Proof.
  induction reply as [e|entries IH|f|s] using HttpResult_tree_ind; intros r p;
    cbn [getDirectoryContents_reply]; apply yields_rethrown.
  all: eapply yields_bind; [apply yields_any|intros hdrs _].
  all: eapply yields_bind; [apply yields_any|intros agent _].
  all: eapply yields_bind; [apply yields_any|intros allow _].
  all: eapply yields_bind; [apply yields_reply|intros response Hresponse].
  all: cbn [outcomeOf] in Hresponse; try discriminate Hresponse.
  all: injection Hresponse as <-; try apply yields_throw.
  eapply yields_bind.
  - apply (yields_promiseAll
             (Forall (fun f => file_repo f = Some r /\ displayName f = None))).
    induction IH as [|[raw sub] rest Hsub _ IHrest]; [constructor|].
    destruct (String.eqb (raw_type raw) "dir"); [|exact IHrest].
    constructor; [|exact IHrest].
    intros w st contents st' Hrun. apply (Hsub r (raw_path raw) _ _ _ _ Hrun).
  - intros arrays Harrays. apply yields_ret. split; [eauto|].
    apply Forall_app. split; [|by apply Forall_concat].
    apply Forall_map, Forall_map, Forall_true. by intros raw.
Qed.

(** [getDirectoryContents] returns only if the reply to its own request is
    a listing; the entries of that listing, in their order, come first in
    what it returns, ahead of everything found in the sub-directories; and
    every entry it returns, at whatever depth, is tagged with the
    repository that was asked and has no display name. *)
Theorem getDirectoryContents_shape (r : RepoSource) (p : string) (w : World)
    (st st' : State) (contents : list GitHubFile) :
  getDirectoryContents r p w st = (Ret contents, st') ->
  (exists entries deeper,
     http w (tick st) = HttpList entries /\
     contents = (map (tagRepo r) (map fst entries) ++ deeper)%list) /\
  Forall (fun f => file_repo f = Some r /\ displayName f = None) contents.
Proof.
  unfold getDirectoryContents, bind, consult. intros Hrun.
  apply (getDirectoryContents_reply_shape _ r p _ _ _ _ Hrun).
Qed.

Lemma getDirectoryContents_shape_witness :
  exists entries deeper,
    http bundleWorld 17 = HttpList entries /\
    (getDirectoryContents defaultRepo "plugins/demo" bundleWorld
       (set_tick 17 initialState)).1
    = Ret (map (tagRepo defaultRepo) (map fst entries) ++ deeper)%list.
Proof.
  destruct (getDirectoryContents defaultRepo "plugins/demo" bundleWorld
              (set_tick 17 initialState)) as [[contents|e] st'] eqn:E.
  - destruct (getDirectoryContents_shape _ _ _ _ _ _ E)
      as ((entries & deeper & Hreply & ->) & _).
    exists entries, deeper. split; [exact Hreply|reflexivity].
  - exfalso. vm_compute in E. discriminate.
Defined.

(** ** Failures of a listing *)

(** The four retrieval functions read and never write the cache or the
    store of file objects: whatever they return or throw, both are as they
    were. *)
Theorem retrieval_keeps_cache (w : World) (st : State) :
  (forall url, let st' := (getFileContent url w st).2 in
               cache st' = cache st /\ heap st' = heap st) /\
  (forall r p, let st' := (getFileContentByPath r p w st).2 in
               cache st' = cache st /\ heap st' = heap st) /\
  (forall r p, let st' := (getDirectoryContents r p w st).2 in
               cache st' = cache st /\ heap st' = heap st) /\
  (forall r dir, let st' := (parsePluginJson r dir w st).2 in
                 cache st' = cache st /\ heap st' = heap st).
Proof.
  destruct service_storeKept as (K1 & K2 & K3 & K4).
  repeat apply conj; intros; cbn zeta.
  - destruct (K1 url w st); auto.
  - destruct (K2 r p w st); auto.
  - destruct (K3 r p w st); auto.
  - destruct (K4 r dir w st); auto.
Qed.

Lemma getFiles_source_returns c force now r w st :
  exists files st', getFiles_source c force now r w st = (Ret files, st').
Proof.
  unfold getFiles_source, bind, get.
  destruct (cacheHit force now (cache st !! cacheKey r c)); [by eexists _, _|].
  unfold try_catch.
  destruct (resolveContentPath r c) as [p|]; [|by eexists _, _].
  destruct (fetchListing r c p now w st) as [[files|e] st']; by eexists _, _.
Qed.

Lemma getFiles_loop_returns c force now sources w :
  forall allFiles st,
    exists files st', getFiles_loop c force now sources allFiles w st = (Ret files, st').
Proof.
  induction sources as [|r rest IH]; intros allFiles st; cbn [getFiles_loop].
  - by eexists _, _.
  - unfold bind. destruct (getFiles_source_returns c force now r w st) as (files & st' & ->).
    apply IH.
Qed.

Lemma getFiles_source_failed c force now r w st rq :
  (length (requests st) < length (requests (getFiles_source c force now r w st).2))%nat ->
  last (requests (getFiles_source c force now r w st).2) = Some rq ->
  (forall entries, rq_result rq <> HttpList entries) ->
  (getFiles_source c force now r w st).1 = Ret [] /\
  cache (getFiles_source c force now r w st).2 = cache st /\
  heap (getFiles_source c force now r w st).2 = heap st.
Proof.
  unfold getFiles_source, bind, get.
  destruct (cacheHit force now (cache st !! cacheKey r c)) as [entry|].
  { cbn [ret fst snd]. lia. }
  unfold try_catch.
  destruct (resolveContentPath r c) as [p|]; [|cbn [ret fst snd]; lia].
  destruct (fetchListing_requests r c p now w st)
    as (n & hdrs & reply & prefix & _ & ->).
  intros _ Hlast Hno.
  assert (Hreply : forall entries, reply <> HttpList entries).
  { intros entries ->.
    destruct (afterListing r c now (HttpList entries) _) as [o st1] eqn:E.
    cbn [afterListing] in E. injection E as <- <-.
    cbn [ret fst snd set_cache set_heap requests log_request] in Hlast.
    rewrite last_snoc in Hlast. injection Hlast as <-.
    by apply (Hno entries). }
  destruct reply as [e|entries|f|s]; cbn [afterListing ret fst snd];
    try (exfalso; by apply (Hreply entries));
    cbn [log_request cache heap]; by rewrite cache_log_requests, heap_log_requests.
Qed.

(** [getFiles] never throws, and a source whose listing fails does not
    stop it.  When the last request made for a source brings anything but a
    listing (a rejection of any status, a 404 included, or a reply of
    another shape), that source adds nothing to the result and leaves the
    cache and the store as they were, and the loop goes on with the sources
    after it, keeping what it had collected.  ([getFilesByRepo] itself
    throws for every failure but a 404.) *)
Theorem getFiles_never_throws (c : CopilotCategory) (force : bool)
    (sources : list RepoSource) (w : World) (st : State) :
  (exists files st', getFiles c force sources w st = (Ret files, st')) /\
  (forall now r rest allFiles st0,
     exists files st1,
       getFiles_source c force now r w st0 = (Ret files, st1) /\
       getFiles_loop c force now (r :: rest) allFiles w st0
       = getFiles_loop c force now rest (allFiles ++ files)%list w st1 /\
       forall rq,
         (length (requests st0) < length (requests st1))%nat ->
         last (requests st1) = Some rq ->
         (forall entries, rq_result rq <> HttpList entries) ->
         files = [] /\ cache st1 = cache st0 /\ heap st1 = heap st0).
Proof.
  split.
  - destruct (getFiles_run c force sources w st) as (n & ->).
    destruct (getFiles_loop_returns c force (clock w n) sources w [] (set_tick (S n) st))
      as (files & st' & ->).
    by eexists _, _.
  - intros now r rest allFiles st0.
    destruct (getFiles_source_returns c force now r w st0) as (files & st1 & E).
    exists files, st1. split; [exact E|].
    split; [cbn [getFiles_loop]; unfold bind; by rewrite E|].
    intros rq Hlen Hlast Hno.
    pose proof (getFiles_source_failed c force now r w st0 rq) as H.
    rewrite E in H. cbn [fst snd] in H.
    destruct (H Hlen Hlast Hno) as ([= ->] & Hc & Hh). auto.
Qed.

Lemma getFiles_never_throws_witness :
  (getFiles_source Instructions false 1000 repoOne flakyWorld
     (set_tick 1 initialState)).1 = Ret [] /\
  (getFiles Instructions false [repoOne; repoTwo] flakyWorld initialState).1
  = Ret [0%nat].
Proof.
  destruct (getFiles_never_throws Instructions false [repoOne; repoTwo] flakyWorld
              initialState) as (_ & H).
  destruct (H 1000 repoOne [repoTwo] [] (set_tick 1 initialState))
    as (files & st1 & E & Eloop & Hfail).
  assert (Hst : st1 = (getFiles_source Instructions false 1000 repoOne flakyWorld
                         (set_tick 1 initialState)).2) by (by rewrite E).
  edestruct (Hfail) as (-> & _).
  - rewrite Hst. vm_compute. lia.
  - rewrite Hst. vm_compute. reflexivity.
  - intros entries. discriminate.
  - split; [by rewrite E|]. vm_compute. reflexivity.
Defined.

(** When the last request of a listing fails with anything but a 404,
    [getFilesByRepo] throws an [Error] that names the category and the
    repository and quotes the failure, and leaves the cache as it was: an
    entry that had expired is still there. *)
Theorem getFilesByRepo_failure (w : World) (st : State) (r : RepoSource)
    (c : CopilotCategory) (force : bool) (rq : Request) (e : JsError) :
  let res := getFilesByRepo r c force w st in
  (length (requests st) < length (requests res.2))%nat ->
  last (requests res.2) = Some rq ->
  rq_result rq = HttpFail e ->
  statusIs e 404 = false ->
  res.1 = Throw (Error ("Failed to load " ++ categoryName c ++ " from "
                        ++ owner r ++ "/" ++ repo r ++ ": " ++ errToString e)) /\
  cache res.2 = cache st.
Proof.
  intros res Hlen Hlast Hres Hcode. subst res.
  destruct (resolveContentPath r c) as [p|] eqn:Hp.
  2:{ rewrite (getFilesByRepo_excluded _ _ _ _ _ Hp) in Hlen. cbn in Hlen. lia. }
  destruct (cacheHit force (clock w (tick st)) (cache st !! cacheKey r c))
    as [entry|] eqn:Hhit.
  { rewrite (getFilesByRepo_hit _ _ _ _ _ _ _ Hp Hhit) in Hlen. cbn in Hlen. lia. }
  destruct (getFilesByRepo_fetch _ _ _ _ _ _ Hp Hhit)
    as (n & hdrs & reply & prefix & _ & Hrun).
  cbn zeta in Hrun. rewrite Hrun in *. clear Hrun. cbn [fst snd] in *.
  rewrite afterListing_requests, last_log_request in Hlast.
  injection Hlast as <-. cbn [requestFor rq_result] in Hres. subst reply.
  cbn [afterListing fst snd notFoundIsEmpty]. rewrite Hcode.
  split; [reflexivity|]. cbn [log_request cache]. by rewrite cache_log_requests.
Qed.

Lemma getFilesByRepo_failure_witness :
  exists e,
    (getFilesByRepo defaultRepo Plugins false
       (constantWorld false unauthorized emptyManifest) initialState).1
    = Throw (Error ("Failed to load plugins from github/awesome-copilot: "
                    ++ errToString e)) /\
    statusCode e = Some 401.
Proof.
  eexists. split.
  - refine (proj1 (getFilesByRepo_failure
                     (constantWorld false unauthorized emptyManifest) initialState
                     defaultRepo Plugins false _ _ _ _ _ _)).
    + vm_compute. lia.
    + vm_compute. reflexivity.
    + reflexivity.
    + reflexivity.
  - reflexivity.
Defined.

(** ** Public sources *)

(** The listing of a repository that has no [baseUrl] is asked of the
    public API and runs with certificate validation, whatever the settings,
    the opt-in included, provided the flag is not at ['0'] when the call
    starts (the call running on its own, with no other request of the
    process under way). *)
Theorem public_source_listing_validated (w : World) (st : State) (r : RepoSource)
    (c : CopilotCategory) (force : bool) (rq : Request) :
  Js.truthy (baseUrl r) = false ->
  env_tls st <> Some "0" ->
  In rq (requests (getFilesByRepo r c force w st).2) -> ~ In rq (requests st) ->
  ~ validationOff rq /\
  Js.startsWith (rq_url rq) "https://api.github.com/" = true /\
  withCredentials (rq_config rq) = false.
Proof.
  intros Hbase Hflag Hin Hnew.
  destruct (public_listing_validated w st r c force rq Hbase Hflag Hin Hnew) as [H1 H2].
  split; [exact H1|]. split; [exact H2|].
  destruct (service_requestsOnly) as (_ & K & _).
  destruct (K r c force w st) as (_ & _ & _ & rs & Hrs & Hissued).
  destruct (resolveContentPath r c) as [p|] eqn:Hp.
  2:{ rewrite (getFilesByRepo_excluded _ _ _ _ _ Hp) in Hin. contradiction. }
  destruct (cacheHit force (clock w (tick st)) (cache st !! cacheKey r c))
    as [entry|] eqn:Hhit.
  { rewrite (getFilesByRepo_hit _ _ _ _ _ _ _ Hp Hhit) in Hin. contradiction. }
  destruct (getFilesByRepo_fetch _ _ _ _ _ _ Hp Hhit)
    as (n & hdrs & reply & prefix & Hprefix & Hrun).
  cbn zeta in Hrun. rewrite Hrun in Hin. cbn [snd] in Hin.
  rewrite afterListing_requests in Hin. cbn [log_request requests] in Hin.
  rewrite requests_log_requests in Hin. cbn [set_tick requests] in Hin.
  apply in_app_or in Hin as [Hin|[<-|[]]]; [|by rewrite Hbase].
  apply in_app_or in Hin as [Hin|Hin]; [contradiction|].
  destruct Hprefix as [->|(hdrs1 & e1 & _ & ->)]; [contradiction|].
  destruct Hin as [<-|[]]. by rewrite Hbase.
Qed.

Lemma public_source_listing_validated_witness :
  match head (requests (getFilesByRepo defaultRepo Plugins false optInWorld
                          initialState).2) with
  | Some rq =>
      ~ validationOff rq /\
      Js.startsWith (rq_url rq) "https://api.github.com/" = true /\
      withCredentials (rq_config rq) = false
  | None => False
  end.
Proof.
  cbv -[validationOff not Js.startsWith withCredentials rq_url rq_config].
  apply (public_source_listing_validated optInWorld initialState defaultRepo Plugins false).
  - reflexivity.
  - discriminate.
  - vm_compute. left. reflexivity.
  - intros [].
Defined.

(** ** The two makers of agents *)

(** The function [createHttpsAgent] of [extension.ts] and the method of the
    same name of the service decide alike: for an address that contains
    ["github.com"] no agent, whatever the settings; for any other address an
    agent that validates certificates unless the user has opted in. *)
Theorem createHttpsAgent_agree (url : string) (w : World) (st : State) :
  createHttpsAgent url w st
  = (Ret (Extension.createHttpsAgent url (allowInsecureEnterpriseCerts w)), st) /\
  (Js.includes url "github.com" = true ->
   forall allow, Extension.createHttpsAgent url allow = None) /\
  (forall allow agent,
     Extension.createHttpsAgent url allow = Some agent ->
     rejectUnauthorized agent = negb allow /\ checkServerIdentityOff agent = allow).
Proof.
  unfold createHttpsAgent, Extension.createHttpsAgent, bind, ask, ret.
  split; [|split].
  - destruct (Js.includes url "github.com"), (allowInsecureEnterpriseCerts w); reflexivity.
  - intros ->. by intros [].
  - intros allow agent.
    destruct (Js.includes url "github.com"), allow; cbn; intros [= <-]; by split.
Qed.

(** ** The label of the mapping panel *)

Lemma append_assoc (a b c : string) : (a ++ b) ++ c = a ++ b ++ c.
Proof.
  induction a as [|ch a IH]; [reflexivity|].
  change ((String ch a ++ b) ++ c) with (String ch ((a ++ b) ++ c)).
  by rewrite IH.
Qed.

Lemma replaceAllChar_app c by_ a b :
  replaceAllChar c by_ (a ++ b) = replaceAllChar c by_ a ++ replaceAllChar c by_ b.
Proof.
  induction a as [|ch a IH]; [reflexivity|].
  change (String ch a ++ b) with (String ch (a ++ b)). cbn [replaceAllChar].
  rewrite IH. destruct (Ascii.eqb ch c); [|reflexivity].
  by rewrite append_assoc.
Qed.

Lemma escapeHtml_app a b : escapeHtml (a ++ b) = escapeHtml a ++ escapeHtml b.
Proof. unfold escapeHtml. by rewrite !replaceAllChar_app. Qed.

Lemma escapeHtml_char ch : escapeHtml (String ch "") = escapeChar ch.
Proof.
  unfold escapeHtml, escapeChar. cbn [replaceAllChar].
  destruct (Ascii.eqb_spec ch "&") as [->|H1]; [reflexivity|]. cbn [replaceAllChar].
  destruct (Ascii.eqb_spec ch "<") as [->|H2]; [reflexivity|]. cbn [replaceAllChar].
  destruct (Ascii.eqb_spec ch ">") as [->|H3]; [reflexivity|]. cbn [replaceAllChar].
  destruct (Ascii.eqb_spec ch "034") as [->|H4]; [reflexivity|]. cbn [replaceAllChar].
  destruct (Ascii.eqb_spec ch "'") as [->|H5]; reflexivity.
Qed.

Lemma includes_app_false (a b needle : string) (ch : ascii) :
  needle = String ch "" ->
  Js.includes a needle = false -> Js.includes b needle = false ->
  Js.includes (a ++ b) needle = false.
Proof.
  intros -> Ha Hb. induction a as [|c a IH]; [exact Hb|].
  change (String c a ++ b) with (String c (a ++ b)).
  cbn [Js.includes String.prefix] in *.
  apply orb_false_elim in Ha as [Hc Ha]. rewrite (IH Ha), orb_false_r.
  destruct (ascii_dec ch c); [|reflexivity]. destruct a; discriminate.
Qed.

(** [escapeHtml] writes every character on its own: the five characters
    [&], [<], [>], the double and the single quote as their entities, any
    other as itself; the five passes of the source do not get in each
    other's way.  What it returns has no [<], no [>] and no quote of either
    kind, so that the label of a repository cannot open or close a tag or an
    attribute of the page. *)
Theorem escapeHtml_safe (text : string) :
  escapeHtml text = escapeEach text /\
  Js.includes (escapeHtml text) "<" = false /\
  Js.includes (escapeHtml text) ">" = false /\
  Js.includes (escapeHtml text) dq = false /\
  Js.includes (escapeHtml text) "'" = false.
Proof.
  assert (Heach : escapeHtml text = escapeEach text).
  { induction text as [|ch text IH]; [reflexivity|].
    change (String ch text) with (String ch "" ++ text).
    rewrite escapeHtml_app, escapeHtml_char, IH. reflexivity. }
  split; [exact Heach|]. rewrite Heach.
  assert (Hchar : forall ch bad,
            In bad ["<"; ">"; "034"; "'"]%char ->
            Js.includes (escapeChar ch) (String bad "") = false).
  { intros ch bad Hbad. unfold escapeChar.
    destruct (Ascii.eqb_spec ch "&") as [->|H1];
      [destruct Hbad as [<-|[<-|[<-|[<-|[]]]]]; reflexivity|].
    destruct (Ascii.eqb_spec ch "<") as [->|H2];
      [destruct Hbad as [<-|[<-|[<-|[<-|[]]]]]; reflexivity|].
    destruct (Ascii.eqb_spec ch ">") as [->|H3];
      [destruct Hbad as [<-|[<-|[<-|[<-|[]]]]]; reflexivity|].
    destruct (Ascii.eqb_spec ch "034") as [->|H4];
      [destruct Hbad as [<-|[<-|[<-|[<-|[]]]]]; reflexivity|].
    destruct (Ascii.eqb_spec ch "'") as [->|H5];
      [destruct Hbad as [<-|[<-|[<-|[<-|[]]]]]; reflexivity|].
    cbn [Js.includes String.prefix].
    destruct (ascii_dec bad ch) as [<-|_]; [|reflexivity].
    destruct Hbad as [<-|[<-|[<-|[<-|[]]]]]; contradiction. }
  assert (Hall : forall bad,
            In bad ["<"; ">"; "034"; "'"]%char ->
            Js.includes (escapeEach text) (String bad "") = false).
  { intros bad Hbad. clear Heach. induction text as [|ch text IH]; [reflexivity|].
    cbn [escapeEach]. eapply includes_app_false; [reflexivity| |exact IH].
    by apply Hchar. }
  repeat split; apply Hall; cbn; auto.
Qed.

(** ** The search term *)

Lemma prefix_spec (n s : string) :
  String.prefix n s = true <-> exists b, s = n ++ b.
Proof.
  revert s. induction n as [|ch n IH]; intros s.
  - split; [intros _; by exists s|intros _; by destruct s].
  - destruct s as [|c s]; cbn [String.prefix].
    + split; [discriminate|intros (b & H); discriminate H].
    + destruct (ascii_dec ch c) as [->|Hne].
      * rewrite IH. split; intros (b & H); exists b.
        -- by rewrite H.
        -- by injection H.
      * split; [discriminate|]. intros (b & H). injection H as H _. congruence.
Qed.

Lemma includes_spec (s n : string) :
  Js.includes s n = true <-> exists a b, s = a ++ n ++ b.
Proof.
  induction s as [|c s IH]; cbn [Js.includes].
  - rewrite orb_false_r, prefix_spec. split.
    + intros (b & H). by exists "", b.
    + intros (a & b & H). destruct a; [by exists b|discriminate H].
  - rewrite orb_true_iff, prefix_spec, IH. split.
    + intros [(b & H)|(a & b & H)]; [by exists "", b|].
      exists (String c a), b. by rewrite H.
    + intros (a & b & H). destruct a as [|c' a]; [left; by exists b|].
      right. injection H as _ H. by exists a, b.
Qed.

Lemma toLowerCase_app (a b : string) :
  toLowerCase (a ++ b) = toLowerCase a ++ toLowerCase b.
Proof.
  induction a as [|c a IH]; [reflexivity|].
  change (String c a ++ b) with (String c (a ++ b)). cbn [toLowerCase].
  by rewrite IH.
Qed.

Lemma toLowerCaseChar_idem (c : ascii) :
  toLowerCaseChar (toLowerCaseChar c) = toLowerCaseChar c.
Proof. destruct c as [[] [] [] [] [] [] [] []]; reflexivity. Qed.

Lemma toLowerCase_idem (s : string) : toLowerCase (toLowerCase s) = toLowerCase s.
Proof.
  induction s as [|c s IH]; [reflexivity|].
  cbn [toLowerCase]. by rewrite toLowerCaseChar_idem, IH.
Qed.

Lemma toLowerCase_empty (s : string) : String.eqb (toLowerCase s) "" = String.eqb s "".
Proof. by destruct s. Qed.

(** A term that is blank, once set, filters nothing: every name matches,
    the list of items comes back whole, no search is active and there is no
    status text.  Setting it, or entering it in the input box whatever the
    term was before, does what [clearSearch] does; only the dismissal of
    the input box leaves the former term in place. *)
Theorem search_blank_term (text : string) (items : list CopilotItem) :
  Js.trim text = "" ->
  let term := SearchBar.setSearchTerm text in
  term = SearchBar.clearSearch /\
  (forall old, SearchBar.showSearchInput (Some text) old = term /\
               SearchBar.showSearchInput None old = old) /\
  (forall fileName, SearchBar.matchesSearch term fileName = true) /\
  SearchBar.filterItems term items = items /\
  SearchBar.isSearchActive term = false /\
  SearchBar.getStatusMessage term = "".
Proof.
  intros Hblank. unfold SearchBar.setSearchTerm, SearchBar.showSearchInput.
  cbn zeta. rewrite Hblank. by repeat split.
Qed.

Lemma search_blank_term_witness :
  SearchBar.filterItems (SearchBar.setSearchTerm "   ") [demoPlugin] = [demoPlugin].
Proof. apply (search_blank_term "   " [demoPlugin]). reflexivity. Defined.

(** The match is a search for the term inside the name, both in lower case:
    the case of neither matters; and a term that contains another, case
    apart, matches nothing the other does not match, so that typing on can
    only shorten the list.  Filtering twice with one term is filtering
    once. *)
Theorem search_narrows (t1 t2 : string) (items : list CopilotItem) :
  (forall fileName,
     SearchBar.matchesSearch t1 fileName
     = SearchBar.matchesSearch (toLowerCase t1) (toLowerCase fileName)) /\
  (Js.includes (toLowerCase t2) (toLowerCase t1) = true ->
   (forall fileName,
      SearchBar.matchesSearch t2 fileName = true ->
      SearchBar.matchesSearch t1 fileName = true) /\
   (forall item, In item (SearchBar.filterItems t2 items) ->
                 In item (SearchBar.filterItems t1 items))) /\
  SearchBar.filterItems t1 (SearchBar.filterItems t1 items) = SearchBar.filterItems t1 items.
Proof.
  split; [|split].
  - intros fileName. unfold SearchBar.matchesSearch.
    by rewrite toLowerCase_empty, !toLowerCase_idem.
  - intros Hsub.
    assert (Hmatch : forall fileName,
              SearchBar.matchesSearch t2 fileName = true ->
              SearchBar.matchesSearch t1 fileName = true).
    { intros fileName. unfold SearchBar.matchesSearch.
      destruct (String.eqb_spec t1 "") as [|H1]; [reflexivity|].
      destruct (String.eqb_spec t2 "") as [->|H2].
      - apply includes_spec in Hsub as (a & b & H).
        destruct a; [|discriminate H]. destruct t1; [contradiction|discriminate H].
      - rewrite !includes_spec. apply includes_spec in Hsub as (a & b & ->).
        intros (a' & b' & ->). exists (a' ++ a), (b ++ b').
        by rewrite !append_assoc. }
    split; [exact Hmatch|].
    intros item. unfold SearchBar.filterItems.
    destruct (String.eqb_spec t1 "") as [|H1].
    + destruct (String.eqb t2 ""); [auto|]. rewrite filter_In. tauto.
    + destruct (String.eqb_spec t2 "") as [->|H2].
      * intros Hin. apply filter_In. split; [exact Hin|]. by apply Hmatch.
      * rewrite !filter_In. intros [Hin Hm]. split; [exact Hin|by apply Hmatch].
  - unfold SearchBar.filterItems. destruct (String.eqb t1 ""); [reflexivity|].
    induction items as [|item items IH]; [reflexivity|]. cbn [List.filter].
    destruct (SearchBar.matchesSearch t1 (ci_name item)) eqn:E; [|exact IH].
    cbn [List.filter]. by rewrite E, IH.
Qed.

Lemma search_narrows_witness :
  SearchBar.matchesSearch "em" "My-Demo-Plugin" = true.
Proof.
  destruct (search_narrows "em" "DEMO" []) as (_ & H & _).
  apply (proj1 (H eq_refl) "My-Demo-Plugin"). reflexivity.
Defined.

(** ** The mapping panel *)

Lemma trimStart_clean (s : string) : startsClean (Js.trimStart s).
Proof.
  induction s as [|c s IH]; cbn [Js.trimStart]; [exact I|].
  destruct (Js.isWhiteSpace c) eqn:E; [exact IH|exact E].
Qed.

Lemma trimStart_of_clean (s : string) : startsClean s -> Js.trimStart s = s.
Proof. destruct s as [|c s]; [reflexivity|]. cbn. by intros ->. Qed.

Lemma trimEnd_clean (s : string) : startsClean s -> startsClean (Js.trimEnd s).
Proof.
  destruct s as [|c s]; [by intros _|]. cbn [startsClean Js.trimEnd]. intros Hc.
  destruct (Js.trimEnd s); [by rewrite Hc|exact Hc].
Qed.

Lemma trimEnd_cons (c : ascii) (r : string) :
  Js.trimEnd (String c r) =
    match Js.trimEnd r with
    | EmptyString => if Js.isWhiteSpace c then EmptyString else String c EmptyString
    | r' => String c r'
    end.
Proof. reflexivity. Qed.

Lemma trimEnd_idem (s : string) : Js.trimEnd (Js.trimEnd s) = Js.trimEnd s.
Proof.
  induction s as [|c s IH]; [reflexivity|]. rewrite trimEnd_cons.
  destruct (Js.trimEnd s) as [|c' s'] eqn:E.
  - destruct (Js.isWhiteSpace c) eqn:Hc; [reflexivity|].
    rewrite trimEnd_cons. cbn [Js.trimEnd]. by rewrite Hc.
  - rewrite trimEnd_cons, IH. reflexivity.
Qed.

Lemma trim_idem (s : string) : Js.trim (Js.trim s) = Js.trim s.
Proof.
  unfold Js.trim.
  rewrite (trimStart_of_clean (Js.trimEnd (Js.trimStart s)))
    by apply trimEnd_clean, trimStart_clean.
  apply trimEnd_idem.
Qed.

Lemma savedMapping_slot (mappings : CopilotCategory -> option json) (c : CopilotCategory) :
  savedMapping mappings c = mappingOfValue (mappings c).
Proof.
  unfold savedMapping, CATEGORIES. cbn [fold_left].
  destruct c;
    destruct (mappingOfValue (mappings Agents)),
             (mappingOfValue (mappings Instructions)),
             (mappingOfValue (mappings Plugins)),
             (mappingOfValue (mappings Prompts)),
             (mappingOfValue (mappings Skills)); reflexivity.
Qed.

(** From the text of a box at the click on "Save" to the folder that is
    listed. *)
Lemma posted_values_resolved (texts : CopilotCategory -> string) (r : RepoSource)
    (c : CopilotCategory) :
  folderMappings r
  = Some (savedMapping (fun cat => Some (JStr (inputValue (texts cat))))) ->
  resolveContentPath r c =
    (let val := Js.trim (texts c) in
     if String.eqb val "" then Some (categoryName c)
     else if String.eqb (toLowerCase val) "null" then None
     else if String.eqb (toLowerCase val) "root" then Some ""
     else Some val) /\
  (forall value s,
     savedMapping value c = Str s -> Js.trim s = s /\ s <> "").
Proof.
  intros Hmap. split.
  - unfold resolveContentPath. rewrite Hmap, savedMapping_slot.
    unfold inputValue, mappingOfValue. cbv beta zeta.
    destruct (String.eqb_spec (Js.trim (texts c)) "") as [_|Hblank]; [reflexivity|].
    destruct (String.eqb_spec (toLowerCase (Js.trim (texts c))) "null") as [|Hnull];
      [reflexivity|].
    destruct (String.eqb_spec (toLowerCase (Js.trim (texts c))) "root") as [|Hroot];
      [reflexivity|].
    destruct (String.eqb_spec (Js.trim (texts c)) "null") as [E|_];
      [rewrite E in Hnull; contradiction|].
    destruct (String.eqb_spec (Js.trim (texts c)) "root") as [E|_];
      [rewrite E in Hroot; contradiction|].
    rewrite trim_idem.
    destruct (String.eqb_spec (Js.trim (texts c)) "") as [|_]; [contradiction|].
    cbn [negb].
    destruct (String.eqb_spec (Js.trim (texts c)) "root") as [E|_];
      [rewrite E in Hroot; contradiction|].
    rewrite trim_idem.
    destruct (String.eqb_spec (Js.trim (texts c)) "") as [|_]; [contradiction|].
    reflexivity.
  - intros value s. rewrite savedMapping_slot. unfold mappingOfValue.
    destruct (value c) as [[| | |v| |]|]; try discriminate.
    destruct (String.eqb v "null"); [discriminate|].
    destruct (String.eqb v "root"); [by intros [= <-]|].
    destruct (String.eqb_spec (Js.trim v) "") as [|Hv]; [discriminate|].
    cbn [negb]. intros [= <-]. split; [apply trim_idem|exact Hv].
Qed.

Lemma handleRootLogic_value inputs c :
  box_value (handleRootLogic inputs) c =
  match rootCategory inputs with
  | Some rc => if String.eqb (categoryName c) (categoryName rc)
               then box_value inputs c else ""
  | None => box_value inputs c
  end.
Proof.
  unfold handleRootLogic. destruct (rootCategory inputs) as [rc|].
  - destruct c, rc; reflexivity.
  - destruct c; reflexivity.
Qed.

Lemma categoryName_eqb c c' :
  String.eqb (categoryName c) (categoryName c') = true <-> c = c'.
Proof. rewrite String.eqb_eq. split; [apply categoryName_inj|by intros ->]. Qed.

Lemma handleRootLogic_rootAlone inputs : rootAlone (handleRootLogic inputs).
Proof.
  intros c0 Hroot c Hne. unfold holdsRoot in Hroot.
  rewrite handleRootLogic_value in Hroot |- *.
  destruct (rootCategory inputs) as [rc|] eqn:Hrc.
  - destruct (String.eqb (categoryName c0) (categoryName rc)) eqn:E0;
      [|discriminate Hroot].
    apply categoryName_eqb in E0 as ->.
    destruct (String.eqb (categoryName c) (categoryName rc)) eqn:E; [|reflexivity].
    apply categoryName_eqb in E. contradiction.
  - unfold rootCategory in Hrc.
    assert (Hin : In c0 CATEGORIES) by (destruct c0; cbn; auto 6).
    pose proof (find_none _ _ Hrc c0 Hin) as Hnone. unfold holdsRoot in Hnone.
    congruence.
Qed.

Lemma typed_rootAlone events : rootAlone (typed events).
Proof.
  unfold typed.
  induction events as [|[cat text] events IH] using rev_ind.
  - intros c0 Hroot. discriminate Hroot.
  - rewrite fold_left_app. cbn [fold_left fst snd]. unfold inputEvent.
    destruct (box_disabled _ cat); [exact IH|apply handleRootLogic_rootAlone].
Qed.

Lemma categoryName_not_empty c : categoryName c <> "".
Proof. by destruct c. Qed.

(** From what is typed into the panel to the folders that are listed.  The
    boxes are as the edits and the listener of the page have left them: a
    blank box stands for the folder named after the category; [null], in
    any case of letters, excludes the category; [root], in any case of
    letters, stands for the root of the repository; any other text stands
    for itself, less the white space around it.  Once a box holds [root]
    every other box has been emptied, so that a mapping with a category at
    the root has every other category at its default folder, none excluded.
    The slot saved for a category is never a blank string nor one with
    white space around it. *)
Theorem panel_input_resolved (events : list (CopilotCategory * string))
    (r : RepoSource) (c : CopilotCategory) :
  folderMappings r = Some (savedMapping (postedMappings (typed events))) ->
  resolveContentPath r c =
    (let val := Js.trim (box_value (typed events) c) in
     if String.eqb val "" then Some (categoryName c)
     else if String.eqb (toLowerCase val) "null" then None
     else if String.eqb (toLowerCase val) "root" then Some ""
     else Some val) /\
  (forall c0, c <> c0 -> resolveContentPath r c0 = Some "" ->
              resolveContentPath r c = Some (categoryName c)) /\
  (forall value s,
     savedMapping value c = Str s -> Js.trim s = s /\ s <> "").
Proof.
  intros Hmap.
  assert (Hres : forall c1,
            resolveContentPath r c1 =
            (let val := Js.trim (box_value (typed events) c1) in
             if String.eqb val "" then Some (categoryName c1)
             else if String.eqb (toLowerCase val) "null" then None
             else if String.eqb (toLowerCase val) "root" then Some ""
             else Some val)).
  { intros c1. apply (posted_values_resolved (box_value (typed events)) r c1 Hmap). }
  split; [apply Hres|]. split.
  - intros c0 Hne Hroot. rewrite Hres in Hroot |- *. cbv zeta in Hroot |- *.
    assert (Hholds : holdsRoot (typed events) c0 = true).
    { unfold holdsRoot.
      destruct (String.eqb_spec (Js.trim (box_value (typed events) c0)) "") as [_|Hblank].
      { injection Hroot as Hroot. by apply categoryName_not_empty in Hroot. }
      destruct (String.eqb (toLowerCase (Js.trim (box_value (typed events) c0))) "null");
        [discriminate Hroot|].
      destruct (String.eqb (toLowerCase (Js.trim (box_value (typed events) c0))) "root");
        [reflexivity|].
      injection Hroot as Hroot. contradiction. }
    rewrite (typed_rootAlone events c0 Hholds c Hne). reflexivity.
  - apply (posted_values_resolved (box_value (typed events)) r c Hmap).
Qed.

Lemma panel_input_resolved_witness :
  let saved events :=
    {| owner := "octo"; repo := "one"; label := None; baseUrl := None;
       folderMappings := Some (savedMapping (postedMappings (typed events))) |} in
  let excluding := saved [(Plugins, " NULL "); (Agents, " docs/agents ")] in
  let rooted := saved [(Plugins, " NULL "); (Agents, " docs/agents "); (Skills, "Root")] in
  (resolveContentPath excluding Plugins = None /\
   resolveContentPath excluding Agents = Some "docs/agents" /\
   resolveContentPath excluding Skills = Some "skills") /\
  (resolveContentPath rooted Skills = Some "" /\
   resolveContentPath rooted Plugins = Some "plugins" /\
   resolveContentPath rooted Agents = Some "agents" /\
   resolveContentPath rooted Prompts = Some "prompts").
Proof.
  intros saved excluding rooted.
  pose proof (fun c => proj1 (panel_input_resolved _ excluding c eq_refl)) as H1.
  pose proof (fun c => proj1 (panel_input_resolved _ rooted c eq_refl)) as H2.
  exact (conj (conj (H1 Plugins) (conj (H1 Agents) (H1 Skills)))
              (conj (H2 Skills) (conj (H2 Plugins) (conj (H2 Agents) (H2 Prompts))))).
Defined.

(** ** The commands of a README *)

Lemma spanNotBacktick_fst (s : string) :
  Js.includes (spanNotBacktick s).1 "`" = false.
Proof.
  induction s as [|ch s IH]; [reflexivity|]. cbn [spanNotBacktick].
  destruct (Ascii.eqb_spec ch "`") as [->|Hch]; [reflexivity|].
  cbn [fst Js.includes String.prefix]. rewrite IH, orb_false_r.
  destruct (ascii_dec "`" ch) as [E|_]; [congruence|reflexivity].
Qed.

Lemma matchCommandAt_plain pluginName s command rest :
  matchCommandAt pluginName s = Some (command, rest) ->
  command <> "" /\ Js.includes command "`" = false.
Proof.
  unfold matchCommandAt.
  destruct s as [|c r]; [discriminate|].
  destruct (Ascii.eqb_spec c "|") as [->|Hc].
  2:{ destruct c as [[] [] [] [] [] [] [] []]; try discriminate; contradiction. }
  destruct (stripPrefix _ (Js.trimStart r)) as [r2|]; [|discriminate].
  assert (H := spanNotBacktick_fst r2).
  destruct (spanNotBacktick r2) as [[|g0 g] [|c3 r3]]; try discriminate.
  cbn [fst] in H.
  destruct (Ascii.eqb_spec c3 "`") as [->|Hc3].
  2:{ destruct c3 as [[] [] [] [] [] [] [] []]; try discriminate; contradiction. }
  destruct (Js.trimStart r3) as [|c5 r5]; [discriminate|].
  destruct (Ascii.eqb_spec c5 "|") as [->|Hc5].
  2:{ destruct c5 as [[] [] [] [] [] [] [] []]; try discriminate; contradiction. }
  intros [= <- _]. split; [discriminate|exact H].
Qed.

Lemma execLoop_plain fuel pluginName :
  forall s, Forall (fun command => command <> "" /\ Js.includes command "`" = false)
                   (execLoop fuel pluginName s).
Proof.
  induction fuel as [|fuel IH]; intros s; cbn [execLoop]; [constructor|].
  destruct (matchCommandAt pluginName s) as [[command rest]|] eqn:E.
  - constructor; [by eapply matchCommandAt_plain|apply IH].
  - destruct s; [constructor|apply IH].
Qed.

(** No command that [extractSlashCommands] finds is empty or has a backtick
    in it, whatever the README. *)
Theorem extracted_commands_plain (readmeContent pluginName : string) :
  Forall (fun command => command <> "" /\ Js.includes command "`" = false)
         (extractSlashCommands readmeContent pluginName).
Proof.
  unfold extractSlashCommands.
  induction (Js.split "010" readmeContent) as [|line lines IH]; cbn [flat_map];
    [constructor|].
  apply Forall_app. split; [apply execLoop_plain|exact IH].
Qed.

Lemma oneLine_app (a b : string) : oneLine (a ++ b) = oneLine a && oneLine b.
Proof.
  induction a as [|ch a IH]; [reflexivity|].
  change (String ch a ++ b) with (String ch (a ++ b)). cbn [oneLine].
  rewrite IH. by rewrite !andb_assoc.
Qed.

Lemma plainText_oneLine (s : string) : plainText s = true -> oneLine s = true.
Proof.
  induction s as [|ch s IH]; [reflexivity|]. cbn [plainText oneLine].
  intros H. apply andb_prop in H as [H Hs]. apply andb_prop in H as [_ Hnl].
  by rewrite Hnl, (IH Hs).
Qed.

Lemma split_oneLine (s : string) : oneLine s = true -> Js.split "010" s = [s].
Proof.
  induction s as [|ch s IH]; [reflexivity|]. cbn [oneLine Js.split].
  intros H. apply andb_prop in H as [Hnl Hs].
  destruct (Ascii.eqb ch "010"); [discriminate|]. by rewrite (IH Hs).
Qed.

Lemma split_line (a b : string) :
  oneLine a = true ->
  Js.split "010" (a ++ nl ++ b) = a :: Js.split "010" b.
Proof.
  induction a as [|ch a IH]; [reflexivity|].
  change (String ch a ++ nl ++ b) with (String ch (a ++ nl ++ b)).
  cbn [oneLine Js.split].
  intros H. apply andb_prop in H as [Hnl Ha].
  destruct (Ascii.eqb ch "010"); [discriminate|]. by rewrite (IH Ha).
Qed.

Lemma stripPrefix_app (p s : string) : stripPrefix p (p ++ s) = Some s.
Proof.
  induction p as [|ch p IH]; [reflexivity|].
  change (String ch p ++ s) with (String ch (p ++ s)). cbn [stripPrefix].
  by rewrite Ascii.eqb_refl.
Qed.

Lemma spanNotBacktick_app (command rest : string) :
  plainText command = true ->
  spanNotBacktick (command ++ String "`" rest) = (command, String "`" rest).
Proof.
  induction command as [|ch command IH]; [reflexivity|].
  change (String ch command ++ String "`" rest)
    with (String ch (command ++ String "`" rest)).
  cbn [plainText spanNotBacktick].
  intros H. apply andb_prop in H as [H Hc]. apply andb_prop in H as [Hb _].
  destruct (Ascii.eqb ch "`"); [discriminate|]. by rewrite (IH Hc).
Qed.

Lemma matchCommandAt_row (pluginName command : string) :
  command <> "" -> plainText command = true ->
  matchCommandAt pluginName (commandRow pluginName command) = Some (command, "").
Proof.
  intros Hne Hplain. unfold commandRow.
  change ("| `/" ++ pluginName ++ ":" ++ command ++ "` |")
    with (String "|" (String " " ("`/" ++ pluginName ++ ":" ++ command ++ "` |"))).
  unfold matchCommandAt.
  change (Js.trimStart (String " " ("`/" ++ pluginName ++ ":" ++ command ++ "` |")))
    with ("`/" ++ pluginName ++ ":" ++ command ++ "` |").
  replace ("`/" ++ pluginName ++ ":" ++ command ++ "` |")
    with (("`/" ++ pluginName ++ ":") ++ command ++ "` |")
    by (by rewrite !append_assoc).
  rewrite stripPrefix_app.
  change (command ++ "` |") with (command ++ String "`" " |").
  rewrite (spanNotBacktick_app command " |" Hplain).
  destruct command as [|g0 g]; [contradiction|]. reflexivity.
Qed.

Lemma execLoop_row (fuel : nat) (pluginName command : string) :
  command <> "" -> plainText command = true ->
  execLoop (S (S fuel)) pluginName (commandRow pluginName command) = [command].
Proof.
  intros Hne Hplain. cbn [execLoop]. by rewrite matchCommandAt_row.
Qed.

Lemma commandRow_oneLine (pluginName command : string) :
  oneLine pluginName = true -> oneLine command = true ->
  oneLine (commandRow pluginName command) = true.
Proof.
  intros Hn Hc. unfold commandRow. rewrite !oneLine_app, Hn, Hc. reflexivity.
Qed.

Lemma commandRow_length (pluginName command : string) :
  exists k, String.length (commandRow pluginName command) = S k.
Proof.
  unfold commandRow.
  change ("| `/" ++ pluginName ++ ":" ++ command ++ "` |")
    with (String "|" (" `/" ++ pluginName ++ ":" ++ command ++ "` |")).
  by eexists.
Qed.

(** What a README documents is what is extracted: from a table whose rows
    are [| `/<plugin>:<command>` |], one row to a line, the commands come
    back in the order of the rows, without the name of the plugin. *)
Theorem documented_commands_extracted (pluginName : string) (commands : list string) :
  oneLine pluginName = true ->
  Forall (fun command => command <> "" /\ plainText command = true) commands ->
  extractSlashCommands (String.concat nl (map (commandRow pluginName) commands)) pluginName
  = commands.
Proof.
  intros Hname Hall. unfold extractSlashCommands.
  induction Hall as [|command rest [Hne Hplain] Hrest IH]; [reflexivity|].
  assert (Hrow : oneLine (commandRow pluginName command) = true)
    by (apply commandRow_oneLine; [exact Hname|by apply plainText_oneLine]).
  destruct (commandRow_length pluginName command) as (k & Hlen).
  destruct rest as [|next rest].
  - cbn [map String.concat]. rewrite (split_oneLine _ Hrow). cbn [flat_map].
    rewrite Hlen, execLoop_row by assumption. reflexivity.
  - change (String.concat nl (map (commandRow pluginName) (command :: next :: rest)))
      with (commandRow pluginName command ++ nl
            ++ String.concat nl (map (commandRow pluginName) (next :: rest))).
    rewrite (split_line _ _ Hrow). cbn [flat_map].
    rewrite Hlen, execLoop_row by assumption. cbn [app]. f_equal. exact IH.
Qed.

Lemma documented_commands_extracted_witness :
  extractSlashCommands
    ("| `/demo:review` |" ++ nl ++ "| `/demo:fix-tests` |") "demo"
  = ["review"; "fix-tests"].
Proof.
  apply (documented_commands_extracted "demo" ["review"; "fix-tests"]).
  - reflexivity.
  - repeat constructor; discriminate.
Defined.

(** ** Downloads of files and of skill folders *)

Lemma ensureDir_disk p w st :
  diskWorks w ->
  exists st',
    ensureDir p w st = (Ret tt, st') /\
    requests st' = requests st /\ cache st' = cache st /\ heap st' = heap st /\
    messages st' = messages st /\
    exists calls, fs_calls st' = (fs_calls st ++ calls)%list.
Proof.
  intros Hok. unfold ensureDir, bind. rewrite existsSync_run.
  destruct (fs_exists w (tick st)); cbn [negb].
  - eexists. split; [reflexivity|]. repeat split. by eexists.
  - unfold mkdirSync. rewrite fsCall_ok by apply Hok. eexists. split; [reflexivity|].
    repeat split. cbn. rewrite <- app_assoc. by eexists.
Qed.


Section EditorProperties.

Variable showDocument : string -> M unit.
Variable revealInExplorer : string -> M unit.

(** The branch taken for an item that is not a plugin folder. *)
Lemma downloadCopilotItem_branch fsPath item w st :
  isPluginFolder item = false ->
  downloadCopilotItem showDocument revealInExplorer (Some fsPath) item w st =
    try_catch
      (if isSkillFolder item
       then downloadSkillFolder showDocument revealInExplorer item
              (path_join w [fsPath; FOLDER_PATHS (ci_category item)])
       else downloadFile showDocument item
              (path_join w [fsPath; FOLDER_PATHS (ci_category item)]))
      (fun error =>
         showMessage ("Failed to download " ++ ci_name item ++ ": " ++ errToString error))
      w st.
Proof.
  unfold isPluginFolder, isSkillFolder, downloadCopilotItem, try_catch, bind, ask.
  intros Hplugin.
  destruct (ci_category item), (isDir (ci_file item)); try discriminate; reflexivity.
Qed.


(** Nothing is replaced without the user's word.  For an item that is not
    a plugin folder: when the input box is dismissed or left empty, nothing
    at all happens; and when the name that was entered exists on the disk
    and the answer to the question is anything but "Overwrite", nothing is
    removed, created or written, no request is issued, nothing is recorded
    and the cache is left alone: the disk has only been asked whether the
    target exists. *)
Theorem download_refused (fsPath : string) (item : CopilotItem) (w : World) (st : State) :
  isPluginFolder item = false ->
  let run := downloadCopilotItem showDocument revealInExplorer (Some fsPath) item w st in
  (Js.truthy (dialog w (tick st)) = false ->
   run = (Ret tt, set_tick (S (tick st)) st)) /\
  (forall name,
     dialog w (tick st) = Some name -> name <> "" ->
     fs_exists w (S (tick st)) = true ->
     chose (dialog w (S (S (tick st)))) "Overwrite" = false ->
     run.1 = Ret tt /\
     fs_calls run.2
     = (fs_calls st ++ [ExistsSync (downloadTarget w fsPath item name) true])%list /\
     messages run.2 = (messages st ++ [overwriteQuestion item name])%list /\
     requests run.2 = requests st /\ cache run.2 = cache st /\ heap run.2 = heap st).
Proof.
  intros Hplugin run. subst run. rewrite (downloadCopilotItem_branch _ _ _ _ Hplugin).
  unfold overwriteQuestion, downloadTarget. split.
  - intros Hcancel. unfold try_catch.
    destruct (isSkillFolder item);
      unfold downloadSkillFolder, downloadFile, bind, ask, showInputBox, consult;
      rewrite Hcancel; reflexivity.
  - intros name Hname Hne Hexists Hchoice.
    assert (Htruthy : Js.truthy (Some name) = true).
    { cbn. by rewrite (proj2 (String.eqb_neq name "") Hne). }
    assert (Horelse : Js.orElse (Some name) "" = name).
    { cbn. by rewrite (proj2 (String.eqb_neq name "") Hne). }
    unfold try_catch.
    destruct (isSkillFolder item);
      unfold downloadSkillFolder, downloadFile, showInputBox, existsSync, askChoice,
        showMessage, showChoice;
      unfold bind, ask, consult, modify, ret;
      rewrite Hname, Htruthy, Horelse; cbn [negb tick set_tick log_fs log_message];
      rewrite Hexists; cbn [tick set_tick log_fs log_message]; rewrite Hchoice;
      cbn [negb]; repeat split.
Qed.

(** The file is fetched and written, and the cache of the category is
    dropped.  For an item that is neither a plugin folder nor a skill
    folder, with a name entered that does not exist yet, a disk that works,
    a server that sends the text [content] and a record that succeeds: one
    request goes out, to the download address of the item; [content] is
    written under the name entered, in the folder of the category; the
    entry of the category leaves the cache, so that the next listing is
    fetched anew; and the last notification reports the success. *)
Theorem download_file_saved (fsPath : string) (item : CopilotItem) (w : World)
    (st : State) (name content : string) :
  isPluginFolder item = false -> isSkillFolder item = false ->
  dialog w (tick st) = Some name -> name <> "" ->
  fs_exists w (S (tick st)) = false ->
  diskWorks w ->
  (forall k, http w k = HttpText content) ->
  (forall k, record_failure w k = None) ->
  (forall k, chose (dialog w k) "Open File" = false) ->
  let run := downloadCopilotItem showDocument revealInExplorer (Some fsPath) item w st in
  run.1 = Ret tt /\
  In (WriteFileSync (downloadTarget w fsPath item name) content None) (fs_calls run.2) /\
  cache run.2 !! cacheKey (ci_repo item) (ci_category item) = None /\
  last (messages run.2) = Some ("Successfully downloaded " ++ name) /\
  exists rq, requests run.2 = (requests st ++ [rq])%list /\
             rq_url rq = download_url (ci_file item) /\
             rq_result rq = HttpText content.
Proof.
  intros Hplugin Hskill Hname Hne Hexists Hdisk Hhttp Hrecord Hopen run.
  assert (Htruthy : Js.truthy (Some name) = true).
  { cbn. by rewrite (proj2 (String.eqb_neq name "") Hne). }
  assert (Horelse : Js.orElse (Some name) "" = name).
  { cbn. by rewrite (proj2 (String.eqb_neq name "") Hne). }
  unfold downloadTarget.
  set (fullTargetPath := path_join w [fsPath; FOLDER_PATHS (ci_category item)]).
  set (target := path_join w [fullTargetPath; name]).
  pose proof (eq_refl run) as Hrun. unfold run at 2 in Hrun.
  rewrite (downloadCopilotItem_branch _ _ _ _ Hplugin), Hskill in Hrun.
  unfold try_catch, downloadFile in Hrun.
  unfold bind at 1, ask at 1 in Hrun. unfold bind at 1, showInputBox, consult in Hrun.
  rewrite Hname, Htruthy, Horelse in Hrun. cbn [negb] in Hrun.
  fold fullTargetPath target in Hrun.
  unfold bind at 1 in Hrun. rewrite existsSync_run in Hrun.
  cbn [tick set_tick] in Hrun. rewrite Hexists in Hrun.
  unfold bind at 1, ret at 1 in Hrun. cbn [negb] in Hrun.
  set (s0 := log_fs (ExistsSync target false) _) in Hrun.
  destruct (ensureDir_disk fullTargetPath w s0 Hdisk)
    as (s1 & Hensure & Hrq1 & Hcache1 & Hheap1 & Hmsg1 & calls & Hfs1).
  unfold bind at 1 in Hrun. rewrite Hensure in Hrun.
  destruct (getFileContent_run (download_url (ci_file item)) w s1) as (n & hdrs & Hget).
  cbn zeta in Hget. rewrite Hhttp in Hget.
  unfold bind at 1 in Hrun. rewrite Hget in Hrun. cbn [outcomeOf] in Hrun.
  unfold bind at 1 in Hrun. rewrite (writeFileSync_ok _ _ _ _ Hdisk) in Hrun.
  unfold bind at 1, recordDownload, bind, consult in Hrun. rewrite Hrecord in Hrun.
  unfold clearCategoryCache, modify, askChoice, showMessage, showChoice, bind, modify,
    consult, ret in Hrun.
  cbn [tick set_tick log_fs log_message set_cache log_request] in Hrun.
  rewrite Hopen in Hrun. cbn [fst snd] in Hrun.
  rewrite Hrun. cbn [fst snd].
  cbn [tick set_tick log_fs log_message set_cache log_request cache messages requests
       fs_calls].
  split; [reflexivity|]. split; [|split; [|split]].
  - apply in_or_app. right. by left.
  - apply lookup_delete_eq.
  - apply last_snoc.
  - eexists. rewrite Hrq1. split; [reflexivity|]. split; reflexivity.
Qed.

End EditorProperties.

Lemma download_refused_witness :
  let w := {| enableGithubAuth := false; allowInsecureEnterpriseCerts := false;
              enterpriseToken := None;
              cacheTimeout := 3600000;
              http := fun _ => HttpText "new";
              session := fun _ => NoSession;
              dialog := fun k => if (k =? 0)%nat then Some "notes.md" else Some "Cancel";
              clock := fun _ => 1000;
              fs_exists := fun _ => true;
              fs_failure := fun _ => None;
              fs_read := fun _ => EmptyString;
              record_failure := fun _ => None;
              JSON_parse := fun _ => None;
              JSON_stringify := fun _ => "{}";
              Buffer_decode := fun content _ => content;
              path_join := String.concat "/";
              path_dirname := fun p => p;
              module_dirname := "out" |} in
  let item := {| ci_id := "x"; ci_name := "notes.md"; ci_category := Instructions;
                 ci_file := tagRepo defaultRepo (rawMd "notes.md");
                 ci_repo := defaultRepo |} in
  fs_calls (downloadCopilotItem (fun _ => ret tt) (fun _ => ret tt) (Some "/ws") item w
              initialState).2
  = [ExistsSync "/ws/.github/instructions/notes.md" true].
Proof.
  intros w item.
  destruct (download_refused (fun _ => ret tt) (fun _ => ret tt) "/ws" item w
              initialState eq_refl) as (_ & H).
  destruct (H "notes.md" eq_refl ltac:(discriminate) eq_refl eq_refl) as (_ & Hfs & _).
  exact Hfs.
Defined.

Lemma download_file_saved_witness :
  let w := {| enableGithubAuth := false; allowInsecureEnterpriseCerts := false;
              enterpriseToken := None;
              cacheTimeout := 3600000;
              http := fun _ => HttpText "new";
              session := fun _ => NoSession;
              dialog := fun _ => Some "notes.md";
              clock := fun _ => 1000;
              fs_exists := fun _ => false;
              fs_failure := fun _ => None;
              fs_read := fun _ => EmptyString;
              record_failure := fun _ => None;
              JSON_parse := fun _ => None;
              JSON_stringify := fun _ => "{}";
              Buffer_decode := fun content _ => content;
              path_join := String.concat "/";
              path_dirname := fun p => p;
              module_dirname := "out" |} in
  let item := {| ci_id := "x"; ci_name := "notes.md"; ci_category := Instructions;
                 ci_file := tagRepo defaultRepo (rawMd "notes.md");
                 ci_repo := defaultRepo |} in
  In (WriteFileSync "/ws/.github/instructions/notes.md" "new" None)
     (fs_calls (downloadCopilotItem (fun _ => ret tt) (fun _ => ret tt) (Some "/ws") item
                  w initialState).2).
Proof.
  intros w item.
  assert (Hdisk : diskWorks w) by (intros k; reflexivity).
  destruct (download_file_saved (fun _ => ret tt) (fun _ => ret tt) "/ws" item w
              initialState "notes.md" "new" eq_refl eq_refl eq_refl ltac:(discriminate)
              eq_refl Hdisk (fun _ => eq_refl) (fun _ => eq_refl) (fun _ => eq_refl))
    as (_ & Hfs & _).
  exact Hfs.
Defined.

